(** * Observatory dashboard: synthetic data generator, cell selection,
      selection state and dependency graph of [src/App.tsx].

    [src/App.tsx] holds two revisions of the [App] component and the
    [Timeline] component.  The first revision (lines 1-660) generates one
    asset collection and runs a d3 force simulation over it; the second
    (lines 660-1387) generates one collection per date and filters it by
    the date chosen on the timeline.  Both are embedded here: what they
    share is defined once, what differs lives in [Module V1] and
    [Module V2]. *)

From Stdlib Require Import ZArith List String Ascii Bool Lia Arith PeanoNat.
From Stdlib Require Import Decimal DecimalString DecimalNat Permutation.
Import ListNotations.

Open Scope Z_scope.

(** * JavaScript numbers

    A finite binary64 value is [man * 2 ^ expo].  Every arithmetic result
    is rounded to 53 significant bits, ties to even, as IEEE 754 asks.
    The values of this program stay far inside the normal range, so
    neither subnormals nor overflow, NaN or the sign of zero are
    represented. *)
Module JSNum.

Record float : Type := mkF { man : Z; expo : Z }.

(** [a / 2^s] for [0 <= a] and [0 < s], to nearest, ties to even. *)
Definition rne (a s : Z) : Z :=
  let q := Z.shiftr a s in
  let r := Z.land a (Z.ones s) in
  let h := Z.shiftl 1 (s - 1) in
  if (h <? r) || ((r =? h) && Z.odd q) then q + 1 else q.

(** The binary64 value nearest to [m * 2^e]. *)
Definition roundF (m e : Z) : float :=
  let a := Z.abs m in
  let s := Z.log2 a - 52 in
  if s <=? 0 then mkF m e else mkF (Z.sgn m * rne a s) (e + s).

Definition ofZ (z : Z) : float := roundF z 0.

(** Both mantissas over the smaller of the two exponents. *)
Definition align (x y : float) : Z * Z * Z :=
  let e := Z.min (expo x) (expo y) in
  (man x * 2 ^ (expo x - e), man y * 2 ^ (expo y - e), e).

Definition fadd (x y : float) : float :=
  let '(a, b, e) := align x y in roundF (a + b) e.

Definition fsub (x y : float) : float :=
  let '(a, b, e) := align x y in roundF (a - b) e.

Definition fmul (x y : float) : float :=
  roundF (man x * man y) (expo x + expo y).

(** Division keeps 55 or more quotient bits and a sticky bit for the
    remainder, which is enough for the rounding to be the correct one.
    JavaScript gives [Infinity] or [NaN] for a zero divisor; the two
    generators only divide by zero where the quotient is never used, and
    [fdiv] gives [0] there. *)
Definition fdiv (x y : float) : float :=
  if man y =? 0 then mkF 0 0 else
  let a := Z.abs (man x) in
  let b := Z.abs (man y) in
  let g := 55 + Z.log2 b in
  let q := Z.shiftl a g / b in
  let sticky := if Z.shiftl a g mod b =? 0 then 0 else 1 in
  roundF (Z.sgn (man x) * Z.sgn (man y) * (2 * q + sticky))
         (expo x - expo y - g - 1).

Definition fltb (x y : float) : bool :=
  let '(a, b, _) := align x y in a <? b.

Definition feqb (x y : float) : bool :=
  let '(a, b, _) := align x y in a =? b.

(** [Math.max] and [Math.min]. *)
Definition fmax (x y : float) : float := if fltb x y then y else x.
Definition fmin (x y : float) : float := if fltb y x then y else x.

(** [Math.floor], [Math.ceil] and [Math.round] (ties go up). *)
Definition floorF (x : float) : Z :=
  if 0 <=? expo x then man x * 2 ^ expo x else Z.shiftr (man x) (- expo x).

Definition ceilF (x : float) : Z := - floorF (mkF (- man x) (expo x)).

Definition roundHalfUp (x : float) : Z :=
  let '(a, b, e) := align x (mkF 1 (-1)) in floorF (mkF (a + b) e).

(** The literals of the source, as [float.hex] prints them. *)
Definition c0_02 := mkF 0x147ae147ae147b (-58).  (* 0x1.47ae147ae147bp-6 *)
Definition c0_03 := mkF 0x1eb851eb851eb8 (-58).  (* 0x1.eb851eb851eb8p-6 *)
Definition c0_05 := mkF 0x1999999999999a (-57).  (* 0x1.999999999999ap-5 *)
Definition c0_08 := mkF 0x147ae147ae147b (-56).  (* 0x1.47ae147ae147bp-4 *)
Definition c0_1  := mkF 0x1999999999999a (-56).  (* 0x1.999999999999ap-4 *)
Definition c0_15 := mkF 0x13333333333333 (-55).  (* 0x1.3333333333333p-3 *)
Definition c0_2  := mkF 0x1999999999999a (-55).  (* 0x1.999999999999ap-3 *)
Definition c0_4  := mkF 0x1999999999999a (-54).  (* 0x1.999999999999ap-2 *)
Definition c0_5  := mkF 1 (-1).
Definition c0_6  := mkF 0x13333333333333 (-53).  (* 0x1.3333333333333p-1 *)
Definition c0_8  := mkF 0x1999999999999a (-53).  (* 0x1.999999999999ap-1 *)
Definition c0_9  := mkF 0x1ccccccccccccd (-53).  (* 0x1.ccccccccccccdp-1 *)
Definition PI    := mkF 0x1921fb54442d18 (-51).  (* 0x1.921fb54442d18p+1 *)

End JSNum.
Import JSNum.


(** * The random source

    [Math.random()] returns a binary64 value in [[0, 1)]; the engines
    draw 53 (or fewer) random bits [n] and return [n * 2^-53].  The
    successive draws of a run are the values of [source] from [cursor]
    on, each reduced to 53 bits. *)
Record Rng : Type := mkRng { source : nat -> Z; cursor : nat }.

Definition Gen (A : Type) : Type := Rng -> A * Rng.

Definition ret {A : Type} (a : A) : Gen A := fun r => (a, r).

Definition bind {A B : Type} (m : Gen A) (k : A -> Gen B) : Gen B :=
  fun r => let (a, r') := m r in k a r'.

Notation "x <- m ;; k" := (bind m (fun x => k))
  (at level 61, m at next level, right associativity).

Definition run {A : Type} (m : Gen A) (r : Rng) : A := fst (m r).

(** [Math.random()] *)
Definition random : Gen float :=
  fun r => (mkF (source r (cursor r) mod 2 ^ 53) (-53),
            mkRng (source r) (S (cursor r))).

(** [Math.floor(Math.random() * k)] *)
Definition randomInt (k : Z) : Gen Z :=
  u <- random ;; ret (floorF (fmul u (ofZ k))).

(** A loop that pushes one element per round. *)
Fixpoint mapM {A B : Type} (f : A -> Gen B) (l : list A) : Gen (list B) :=
  match l with
  | [] => ret []
  | a :: l' => b <- f a ;; bs <- mapM f l' ;; ret (b :: bs)
  end.

(** A loop that carries an accumulator. *)
Fixpoint foldM {A B : Type} (f : B -> A -> Gen B) (l : list A) (b : B)
  : Gen B :=
  match l with
  | [] => ret b
  | a :: l' => b' <- f b a ;; foldM f l' b'
  end.

(** The states of the random source at the start of the rounds of a
    loop that begins in [r]. *)
Fixpoint statesOf {A B : Type} (f : A -> Gen B) (l : list A) (r : Rng)
  : list Rng :=
  match l with
  | [] => []
  | a :: l' => r :: statesOf f l' (snd (f a r))
  end.

(** * Strings *)
Open Scope string_scope.

(** A non-negative integer inside a template literal. *)
Definition decimal (n : nat) : string :=
  NilEmpty.string_of_uint (Nat.to_uint n).

(** * Data model (the interfaces at the top of [App.tsx]) *)
Module Process.
Record t : Type := mk {
  id : string;
  name : string;
  status : string;
  group : string;
  connections : list string;
  weight : Z
}.
End Process.

Module Properties.
Record t : Type := mk {
  name : string;
  type : string;
  status : string;
  processes : list Process.t
}.
End Properties.

Module Node.
(** [date] exists in the second revision only. *)
Record t : Type := mk {
  id : string;
  x : float;
  y : float;
  radius : Z;
  hasAnomaly : bool;
  tag : string;
  properties : Properties.t;
  date : option string
}.

Definition processes (n : t) : list Process.t :=
  Properties.processes (properties n).

Definition setPosition (n : t) (x' y' : float) : t :=
  mk (id n) x' y' (radius n) (hasAnomaly n) (tag n) (properties n) (date n).
End Node.

Record GroupConfig : Type := mkConfig { count : Z; anomalyRate : float }.

Record Dimensions : Type := mkDimensions { width : Z; height : Z }.

Record Subcluster : Type := mkSubcluster {
  centerX : float;
  centerY : float;
  sc_radius : float
}.

(** The [groups] table of [generateNodes], in the order of
    [Object.entries]. *)
Definition groups : list (string * GroupConfig) :=
  [ ("Production",  mkConfig 568 c0_08);
    ("Staging",     mkConfig 384 c0_05);
    ("Development", mkConfig 287 c0_03);
    ("Testing",     mkConfig 133 c0_02);
    ("Monitoring",  mkConfig 50  c0_1) ].

Definition processGroups : list string :=
  ["Core"; "Network"; "Storage"; "Security"; "Monitoring"].

Definition assetTypes : list string := ["Server"; "Database"; "Service"].

(** [arr[k]] for an index that is in range. *)
Definition at_index (arr : list string) (k : Z) : string :=
  nth (Z.to_nat k) arr "".

(** * What the two generators share *)

(** [`proc-${tag}-${i}-${j}`] *)
Definition processId (tag : string) (i j : nat) : string :=
  "proc-" ++ tag ++ "-" ++ decimal i ++ "-" ++ decimal j.

(** The body of both process loops: a group and a weight are drawn, the
    status is the caller's. *)
Definition makeProcess (tag : string) (i : nat) (status : string) (j : nat)
  : Gen Process.t :=
  g <- randomInt 5 ;;
  let group := at_index processGroups g in
  w <- randomInt 3 ;;
  let weight := w + 1 in
  ret (Process.mk (processId tag i j)
                  (group ++ " Process " ++ decimal j)
                  status group [] weight).

(** [j % 2 === 0 ? 'Error' : 'Warning'] *)
Definition problematicStatus (j : nat) : string :=
  if Nat.eqb (j mod 2) 0 then "Error" else "Warning".

(** [for (let j = 0; j < problematicProcessCount; j++)] followed by
    [for (let j = problematicProcessCount; j < processCount; j++)], both
    pushing to [nodeProcesses]. *)
Definition makeProcesses (tag : string) (i : nat)
    (problematicProcessCount processCount : nat) : Gen (list Process.t) :=
  bad <- mapM (fun j => makeProcess tag i (problematicStatus j) j)
              (seq 0 problematicProcessCount) ;;
  good <- mapM (makeProcess tag i "OK")
               (seq problematicProcessCount
                    (processCount - problematicProcessCount)) ;;
  ret (bad ++ good)%list.

(** [Math.floor(Math.random() * 100) + 1] *)
Definition drawProcessCount : Gen Z :=
  k <- randomInt 100 ;; ret (k + 1).

(** [Math.random() < config.anomalyRate] *)
Definition drawAnomaly (config : GroupConfig) : Gen bool :=
  u <- random ;; ret (fltb u (anomalyRate config)).

(** [hasAnomaly ? Math.floor(Math.random() * 9) + 1 : 0] *)
Definition drawProblematicCount (hasAnomaly : bool) : Gen Z :=
  if hasAnomaly then k <- randomInt 9 ;; ret (k + 1) else ret 0.

(** What the host gives the program: [Math.cos] and [Math.sin], which
    ECMAScript leaves to the implementation, and the d3 force simulation
    of the first revision, configured with collision radii 60 and 25,
    the centring forces at the middle of the viewport, and advanced by
    800 ticks. *)
Record SimNode : Type := mkSimNode {
  sim_x : float;
  sim_y : float;
  sim_hasAnomaly : bool
}.

Record Host : Type := mkHost {
  cos : float -> float;
  sin : float -> float;
  forceSimulation : Dimensions -> list SimNode -> list SimNode
}.

(** The elements of the [subclusters] array. *)
Definition makeSubcluster (dimensions : Dimensions) (_ : nat)
  : Gen Subcluster :=
  let w := ofZ (width dimensions) in
  let h := ofZ (height dimensions) in
  ux <- random ;;
  let cx := fadd (fmul ux (fmul w c0_6)) (fmul w c0_2) in
  uy <- random ;;
  let cy := fadd (fmul uy (fmul h c0_6)) (fmul h c0_2) in
  ret (mkSubcluster cx cy (fmul (fmin w h) c0_15)).

Definition makeSubclusters (dimensions : Dimensions) (subclusterCount : Z)
  : Gen (list Subcluster) :=
  mapM (makeSubcluster dimensions) (seq 0 (Z.to_nat subclusterCount)).

Definition noSubcluster : Subcluster :=
  mkSubcluster (mkF 0 0) (mkF 0 0) (mkF 0 0).

(** The placement of asset [i] of a group of [n] assets: the angle around
    the centre of its subcluster, then the distance, which is drawn
    between two fractions of the subcluster's radius. *)
Definition drawPosition (host : Host) (subclusters : list Subcluster)
    (subclusterCount n : Z) (i : nat) (hasAnomaly : bool)
  : Gen (float * float) :=
  let subcluster :=
    nth (Z.to_nat (Z.of_nat i mod subclusterCount)) subclusters
        noSubcluster in
  let baseAngle :=
    fmul (fmul (fdiv (ofZ (Z.of_nat i))
                     (fdiv (ofZ n) (ofZ subclusterCount))) PI) (ofZ 2) in
  ua <- random ;;
  let angleVariation := fmul (fsub ua c0_5) c0_2 in
  let angle := fadd baseAngle angleVariation in
  let minDistance :=
    fmul (sc_radius subcluster) (if hasAnomaly then c0_5 else c0_4) in
  let maxDistance :=
    fmul (sc_radius subcluster) (if hasAnomaly then c0_8 else c0_9) in
  ud <- random ;;
  let distance := fadd minDistance (fmul ud (fsub maxDistance minDistance)) in
  ret (fadd (centerX subcluster) (fmul (cos host angle) distance),
       fadd (centerY subcluster) (fmul (sin host angle) distance)).

(** [hasAnomaly ? 'Warning' : 'Active'] *)
Definition assetStatus (hasAnomaly : bool) : string :=
  if hasAnomaly then "Warning" else "Active".

(** * First revision (lines 49-220): one collection, decluttered *)
Module V1.

(** One round of [for (let i = 0; i < config.count; i++)]. *)
Definition makeAsset (host : Host) (tag : string) (config : GroupConfig)
    (subclusters : list Subcluster) (subclusterCount : Z) (i : nat)
  : Gen Node.t :=
  processCount <- drawProcessCount ;;
  hasAnomaly <- drawAnomaly config ;;
  problematicProcessCount <- drawProblematicCount hasAnomaly ;;
  nodeProcesses <- makeProcesses tag i (Z.to_nat problematicProcessCount)
                                 (Z.to_nat processCount) ;;
  p <- drawPosition host subclusters subclusterCount (count config) i
                    hasAnomaly ;;
  t <- randomInt 3 ;;
  ret (Node.mk (tag ++ "-" ++ decimal i) (fst p) (snd p) 5 hasAnomaly tag
         (Properties.mk (tag ++ " Asset " ++ decimal i)
                        (at_index assetTypes t)
                        (assetStatus hasAnomaly) nodeProcesses)
         None).

(** The object pushed to [allNodes] for a node: a copy of its position
    and flag, not the node itself. *)
Definition simNodeOf (n : Node.t) : SimNode :=
  mkSimNode (Node.x n) (Node.y n) (Node.hasAnomaly n).

(** [nodes.findIndex(pred)] *)
Fixpoint findIndex {A : Type} (pred : A -> bool) (l : list A) : option nat :=
  match l with
  | [] => None
  | a :: l' => if pred a then Some O else option_map S (findIndex pred l')
  end.

(** [arr[k] = f(arr[k])] for [k] in range. *)
Fixpoint updateAt {A : Type} (f : A -> A) (k : nat) (l : list A) {struct l}
  : list A :=
  match l, k with
  | [], _ => []
  | a :: l', O => f a :: l'
  | a :: l', S k' => a :: updateAt f k' l'
  end.

(** [n.hasAnomaly === node.hasAnomaly && n.x === node.x && n.y === node.y] *)
Definition samePlace (node : SimNode) (n : Node.t) : bool :=
  Bool.eqb (Node.hasAnomaly n) (sim_hasAnomaly node)
  && feqb (Node.x n) (sim_x node) && feqb (Node.y n) (sim_y node).

(** [Math.max(minDistance, Math.min(dimension - minDistance, v))] *)
Definition clamp (minDistance dimension : Z) (v : float) : float :=
  fmax (ofZ minDistance) (fmin (fsub (ofZ dimension) (ofZ minDistance)) v).

(** The body of [allNodes.forEach] at lines 194-202. *)
Definition updateNode (dimensions : Dimensions) (nodes : list Node.t)
    (node : SimNode) : list Node.t :=
  match findIndex (samePlace node) nodes with
  | Some nodeIndex =>
      let minDistance := if sim_hasAnomaly node then 60 else 25 in
      updateAt (fun n =>
                  Node.setPosition n
                    (clamp minDistance (width dimensions) (sim_x node))
                    (clamp minDistance (height dimensions) (sim_y node)))
               nodeIndex nodes
  | None => nodes
  end.

Definition updateNodePositions (dimensions : Dimensions)
    (nodes : list Node.t) (allNodes : list SimNode) : list Node.t :=
  fold_left (updateNode dimensions) allNodes nodes.

(** The second pass (lines 205-213).  [groupProcesses] holds the very
    objects that the nodes hold, in the order of their creation, so a
    connection pushed there shows in the node. *)
Definition drawConnections (ids : list string) (index : nat)
  : Gen (list string) :=
  k <- randomInt 3 ;;
  let numConnections := k + 2 in
  ret (map (fun c => nth ((index + c + 1) mod List.length ids)%nat ids "")
           (seq 0 (Z.to_nat numConnections))).

Definition connectProcess (ids : list string) (ip : nat * Process.t)
  : Gen Process.t :=
  let (index, p) := ip in
  cs <- drawConnections ids index ;;
  ret (Process.mk (Process.id p) (Process.name p) (Process.status p)
                  (Process.group p) (Process.connections p ++ cs)%list
                  (Process.weight p)).

Definition setProcesses (n : Node.t) (ps : list Process.t) : Node.t :=
  let pr := Node.properties n in
  Node.mk (Node.id n) (Node.x n) (Node.y n) (Node.radius n)
          (Node.hasAnomaly n) (Node.tag n)
          (Properties.mk (Properties.name pr) (Properties.type pr)
                         (Properties.status pr) ps)
          (Node.date n).

Fixpoint connectNodes (ids : list string) (start : nat)
    (created : list Node.t) : Gen (list Node.t) :=
  match created with
  | [] => ret []
  | n :: rest =>
      let ps := Node.processes n in
      ps' <- mapM (connectProcess ids)
                  (combine (seq start (List.length ps)) ps) ;;
      rest' <- connectNodes ids (start + List.length ps)%nat rest ;;
      ret (setProcesses n ps' :: rest')
  end.

Definition groupProcessIds (created : list Node.t) : list string :=
  flat_map (fun n => map Process.id (Node.processes n)) created.

(** One round of [Object.entries(groups).forEach].  The simulation and
    the update loop read and write positions only and the second pass
    connections only, so the second pass is run here on the group's nodes
    before the update loop sees them in [nodes]; the draws keep their
    order, the simulation drawing nothing from [Math.random]. *)
Definition generateGroup (host : Host) (dimensions : Dimensions)
    (nodes : list Node.t) (entry : string * GroupConfig)
  : Gen (list Node.t) :=
  let (tag, config) := entry in
  let subclusterCount := ceilF (fdiv (ofZ (count config)) (ofZ 15)) in
  subclusters <- makeSubclusters dimensions subclusterCount ;;
  created <- mapM (makeAsset host tag config subclusters subclusterCount)
                  (seq 0 (Z.to_nat (count config))) ;;
  let allNodes := map simNodeOf created in
  connected <- connectNodes (groupProcessIds created) 0 created ;;
  let nodes' := (nodes ++ connected)%list in
  ret (match allNodes with
       | [] => nodes'
       | _ :: _ =>
           updateNodePositions dimensions nodes'
             (forceSimulation host dimensions allNodes)
       end).

Definition generateNodesFrom (table : list (string * GroupConfig))
    (host : Host) (dimensions : Dimensions) : Gen (list Node.t) :=
  foldM (generateGroup host dimensions) table [].

Definition generateNodes : Host -> Dimensions -> Gen (list Node.t) :=
  generateNodesFrom groups.

End V1.

(** * Second revision (lines 710-863): one collection per date *)
Module V2.

(** One round of [for (let i = 0; i < scaledCount; i++)]. *)
Definition makeAsset (host : Host) (date tag : string) (config : GroupConfig)
    (subclusters : list Subcluster) (subclusterCount scaledCount : Z)
    (i : nat) : Gen Node.t :=
  hasAnomaly <- drawAnomaly config ;;
  p <- drawPosition host subclusters subclusterCount scaledCount i
                    hasAnomaly ;;
  processCount <- drawProcessCount ;;
  problematicProcessCount <- drawProblematicCount hasAnomaly ;;
  nodeProcesses <- makeProcesses tag i (Z.to_nat problematicProcessCount)
                                 (Z.to_nat processCount) ;;
  t <- randomInt 3 ;;
  ret (Node.mk (tag ++ "-" ++ date ++ "-" ++ decimal i) (fst p) (snd p) 5
         hasAnomaly tag
         (Properties.mk (tag ++ " Asset " ++ decimal i)
                        (at_index assetTypes t)
                        (assetStatus hasAnomaly) nodeProcesses)
         (Some date)).

(** [Math.round(config.count * scaleFactor)] *)
Definition scaledCountOf (config : GroupConfig) (scaleFactor : float) : Z :=
  roundHalfUp (fmul (ofZ (count config)) scaleFactor).

(** One round of the inner [Object.entries(groups).forEach]. *)
Definition generateGroup (host : Host) (dimensions : Dimensions)
    (date : string) (scaleFactor : float) (entry : string * GroupConfig)
  : Gen (list Node.t) :=
  let (tag, config) := entry in
  let scaledCount := scaledCountOf config scaleFactor in
  let subclusterCount := ceilF (fdiv (ofZ scaledCount) (ofZ 15)) in
  subclusters <- makeSubclusters dimensions subclusterCount ;;
  mapM (makeAsset host date tag config subclusters subclusterCount
                  scaledCount)
       (seq 0 (Z.to_nat scaledCount)).

(** [Math.floor(Math.random() * (1455 - 1410 + 1)) + 1410] *)
Definition drawTotalNodesForDate : Gen Z :=
  k <- randomInt (1455 - 1410 + 1) ;; ret (k + 1410).

(** [Object.values(groups).reduce((sum, g) => sum + g.count, 0)] *)
Definition currentTotalOf (table : list (string * GroupConfig)) : Z :=
  fold_left (fun sum g => sum + count (snd g)) table 0.

Definition scaleFactorOf (table : list (string * GroupConfig))
    (totalNodesForDate : Z) : float :=
  fdiv (ofZ totalNodesForDate) (ofZ (currentTotalOf table)).

(** One round of [dates.forEach]; what the groups push to [nodes], in
    order. *)
Definition generateDate (table : list (string * GroupConfig)) (host : Host)
    (dimensions : Dimensions) (date : string) : Gen (list Node.t) :=
  totalNodesForDate <- drawTotalNodesForDate ;;
  let scaleFactor := scaleFactorOf table totalNodesForDate in
  perGroup <- mapM (generateGroup host dimensions date scaleFactor) table ;;
  ret (List.concat perGroup).

Definition generateNodesFrom (table : list (string * GroupConfig))
    (host : Host) (dimensions : Dimensions) (dates : list string)
  : Gen (list Node.t) :=
  perDate <- mapM (generateDate table host dimensions) dates ;;
  ret (List.concat perDate).

Definition generateNodes : Host -> Dimensions -> list string
                           -> Gen (list Node.t) :=
  generateNodesFrom groups.

(** [filteredData] (lines 737-741). *)
Definition filteredData (nodes : list Node.t) (currentDate : string)
  : list Node.t :=
  if String.eqb currentDate "" then []
  else filter (fun d => match Node.date d with
                        | Some dt => String.eqb dt currentDate
                        | None => false
                        end) nodes.

End V2.

(** * Hexagonal aggregation *)
Module Hexbin.
Section Cells.

(** Modelled from the spec: the d3-hexbin generator that lines 232-239 and
    881-888 configure ([radius(15)], the viewport as extent) and call is
    a dependency that is not part of the sources.  The spec describes a
    bin as the grouping of the assets whose positions fall in the same
    hexagonal cell, holding the references of its members; which cell a
    position falls in is left open here as [cellOf]. *)
Variable Cell : Type.
Variable cell_eq_dec : forall a b : Cell, {a = b} + {a <> b}.
Variable cellOf : float -> float -> Cell.

Record Bin : Type := mkBin { cell : Cell; members : list Node.t }.

Definition cellOfNode (n : Node.t) : Cell := cellOf (Node.x n) (Node.y n).

(** A point joins the bin of its cell, or opens a new bin behind the
    others. *)
Fixpoint addPoint (bins : list Bin) (point : Node.t) : list Bin :=
  match bins with
  | [] => [mkBin (cellOfNode point) [point]]
  | b :: rest =>
      if cell_eq_dec (cell b) (cellOfNode point)
      then mkBin (cell b) (members b ++ [point]) :: rest
      else b :: addPoint rest point
  end.

Definition hexbin (points : list Node.t) : list Bin :=
  fold_left addPoint points [].

(** The bins hold different cells, none is empty, and the members of a
    bin fall in its cell. *)
Definition wellBinned (bins : list Bin) : Prop :=
  NoDup (map cell bins) /\
  Forall (fun b => members b <> [] /\
                   Forall (fun n => cellOfNode n = cell b) (members b)) bins.

(** All members of all bins, bin after bin. *)
Definition allMembers (bins : list Bin) : list Node.t :=
  flat_map members bins.

End Cells.

Arguments mkBin {Cell} _ _.
Arguments cell {Cell} _.
Arguments members {Cell} _.
Arguments cellOfNode {Cell} _ _.
Arguments addPoint {Cell} _ _ _ _.
Arguments hexbin {Cell} _ _ _.
Arguments wellBinned {Cell} _ _.
Arguments allMembers {Cell} _.

End Hexbin.

(** * Cell selection and the selection state *)

(** [p.status !== 'OK'] *)
Definition suspicious (p : Process.t) : bool :=
  negb (String.eqb (Process.status p) "OK").

(** [node.properties.processes.filter(p => p.status !== 'OK').length] *)
Definition issues (n : Node.t) : nat :=
  List.length (filter suspicious (Node.processes n)).

(** [d.reduce((max, node) => currentIssues > maxIssues ? node : max, d[0])]
    in the click and mouseenter handlers.  On an empty bin [d[0]] is
    [undefined] and so is the result. *)
Definition moreIssues (max node : Node.t) : Node.t :=
  if Nat.ltb (issues max) (issues node) then node else max.

Definition nodeWithMostIssues (d : list Node.t) : option Node.t :=
  match d with
  | [] => None
  | d0 :: _ => Some (fold_left moreIssues d d0)
  end.

Module App.

(** The state hooks of the component that the claims read. *)
Record State : Type := mk {
  nodes : list Node.t;
  currentDate : string;
  selectedNode : option Node.t;
  expandedProcess : option string
}.

(** The effect on [selectedNode] (lines 342-352 and 1031-1041). *)
Definition autoExpand (selected : option Node.t)
    (expanded : option string) : option string :=
  match selected with
  | Some n =>
      if Node.hasAnomaly n then
        match find suspicious (Node.processes n) with
        | Some firstSuspiciousProcess =>
            Some (Process.id firstSuspiciousProcess)
        | None => expanded
        end
      else None
  | None => None
  end.

(** React compares the old and the new value of a hook by reference and
    runs the effects of a hook only when it changed.  The nodes of one
    collection carry distinct ids, so two references are taken to be the
    same when the ids are. *)
Definition sameReference (a b : option Node.t) : bool :=
  match a, b with
  | Some n, Some m => String.eqb (Node.id n) (Node.id m)
  | None, None => true
  | _, _ => false
  end.

Definition setSelectedNode (v : option Node.t) (st : State) : State :=
  mk (nodes st) (currentDate st) v
     (if sameReference (selectedNode st) v then expandedProcess st
      else autoExpand v (expandedProcess st)).

Definition setExpandedProcess (v : option string) (st : State) : State :=
  mk (nodes st) (currentDate st) (selectedNode st) v.

Definition setCurrentDate (date : string) (st : State) : State :=
  mk (nodes st) date (selectedNode st) (expandedProcess st).

Inductive Event : Type :=
| ClickCell (d : list Node.t)      (* click on a hexagon with members [d] *)
| ClickBackground                  (* click on the app container itself *)
| ClickClose                       (* the close icon of the panel *)
| ClickProcess (procId : string)   (* a row of the suspicious processes *)
| DateChange (date : string).      (* [onDateChange] of the timeline *)

Definition step (st : State) (ev : Event) : State :=
  match ev with
  | ClickCell d => setSelectedNode (nodeWithMostIssues d) st
  | ClickBackground => setSelectedNode None st
  | ClickClose => setSelectedNode None st
  | ClickProcess procId =>
      setExpandedProcess
        (match expandedProcess st with
         | Some e => if String.eqb e procId then None else Some procId
         | None => Some procId
         end) st
  | DateChange date => setCurrentDate date st
  end.

(** [filteredData] of a state, and the number that the asset counter
    prints (line 1277). *)
Definition filteredData (st : State) : list Node.t :=
  V2.filteredData (nodes st) (currentDate st).

Definition totalCount (st : State) : nat := List.length (filteredData st).

(** The selected asset is one of those on display. *)
Definition selectedIsDisplayed (st : State) : bool :=
  match selectedNode st with
  | Some n =>
      existsb (fun m => String.eqb (Node.id m) (Node.id n)) (filteredData st)
  | None => false
  end.

End App.

(** * The dependency graph of an expanded process
      (lines 389-412 and 1083-1106) *)
Module ProcessGraph.

Record GraphNode : Type := mkNode {
  id : string;
  name : string;
  status : string;
  group : string
}.

Record Link : Type := mkLink {
  source : string;
  target : string;
  value : float
}.

Record Graph : Type := mkGraph {
  graphNodes : list GraphNode;
  links : list Link
}.

(** [Math.random() > 0.8 ? 'Error' : Math.random() > 0.6 ? 'Warning' : 'OK'] *)
Definition drawStatus : Gen string :=
  u <- random ;;
  if fltb c0_8 u then ret "Error"
  else v <- random ;; ret (if fltb c0_6 v then "Warning" else "OK").

(** The callback of [Array.from({ length: nodeCount }, ...)]. *)
Definition makeGraphNode (i : nat) : Gen GraphNode :=
  st <- drawStatus ;;
  g <- randomInt 5 ;;
  ret (mkNode ("node-" ++ decimal i) ("Component " ++ decimal i) st
              (at_index processGroups g)).

Definition idAt (nodes : list GraphNode) (k : nat) : string :=
  match nth_error nodes k with
  | Some n => id n
  | None => ""
  end.

(** One round of the inner loop: a target is drawn, and a link is pushed
    unless the target is the node itself. *)
Definition drawLink (nodes : list GraphNode) (i : nat) (_ : nat)
  : Gen (list Link) :=
  targetIndex <- randomInt (Z.of_nat (List.length nodes)) ;;
  if (targetIndex =? Z.of_nat i)%Z then ret []
  else
    u <- random ;;
    ret [mkLink (idAt nodes i) (idAt nodes (Z.to_nat targetIndex))
                (fadd (fmul u (ofZ 3)) (ofZ 1))].

(** [Math.floor(Math.random() * 3) + 1] *)
Definition drawConnectionCount : Gen Z :=
  k <- randomInt 3 ;; ret (k + 1).

(** One round of the outer loop: what node [i] pushes to [links]. *)
Definition linksFrom (nodes : list GraphNode) (i : nat) : Gen (list Link) :=
  connectionCount <- drawConnectionCount ;;
  pushed <- mapM (drawLink nodes i) (seq 0 (Z.to_nat connectionCount)) ;;
  ret (List.concat pushed).

(** [Math.floor(Math.random() * 6) + 15] *)
Definition drawNodeCount : Gen Z :=
  k <- randomInt 6 ;; ret (k + 15).

Definition generateGraph : Gen Graph :=
  nodeCount <- drawNodeCount ;;
  nodes <- mapM makeGraphNode (seq 0 (Z.to_nat nodeCount)) ;;
  perNode <- mapM (linksFrom nodes) (seq 0 (List.length nodes)) ;;
  ret (mkGraph nodes (List.concat perNode)).

(** [renderProcessGraph(processId, containerId)]: nothing is drawn when
    the container is not in the document; otherwise the graph is
    generated.  [mounted] tells which element ids the document holds. *)
Definition renderProcessGraph (mounted : string -> bool)
    (processId containerId : string) : Gen (option Graph) :=
  if mounted containerId then g <- generateGraph ;; ret (Some g)
  else ret None.

(** The effect on [expandedProcess] (lines 532-539 and 1249-1256). *)
Definition expandEffect (mounted : string -> bool)
    (expandedProcess : option string) : Gen (option Graph) :=
  match expandedProcess with
  | Some e => renderProcessGraph mounted e ("process-graph-" ++ e)
  | None => ret None
  end.

(** The links that leave node [i]. *)
Definition outgoing (g : Graph) (i : nat) : list Link :=
  filter (fun l => String.eqb (source l) (idAt (graphNodes g) i)) (links g).

(** What one round of the inner loop may push for node [i]: a link that
    leaves it for another node. *)
Definition linkFrom (nodes : list GraphNode) (i : nat) (l : Link) : Prop :=
  source l = idAt nodes i /\
  exists t, (t < List.length nodes)%nat /\ t <> i /\ target l = idAt nodes t.

End ProcessGraph.

(** * The draws behind the links of the dependency graph *)
Module GraphDraws.
Import ProcessGraph.

(** The two ends of a link. *)
Definition endpoints (l : Link) : string * string := (source l, target l).

(** The values of [targetIndex] that the rounds of the inner loop draw
    for node [i], the outer round beginning in [r]. *)
Definition targetsFrom (nodes : list GraphNode) (i : nat) (r : Rng)
  : list Z :=
  let (connectionCount, r1) := drawConnectionCount r in
  map (fun r' => fst (randomInt (Z.of_nat (List.length nodes)) r'))
      (statesOf (drawLink nodes i) (seq 0 (Z.to_nat connectionCount)) r1).

(** The states of the random source at the start of the rounds of the
    outer loop, when the graph is generated from [r]. *)
Definition linkStates (r : Rng) : list Rng :=
  let (nodeCount, r1) := drawNodeCount r in
  let (nodes, r2) := mapM makeGraphNode (seq 0 (Z.to_nat nodeCount)) r1 in
  statesOf (linksFrom nodes) (seq 0 (List.length nodes)) r2.

(** The targets drawn for node [i] of the graph generated from [r]. *)
Definition targetsDrawn (r : Rng) (i : nat) : list Z :=
  match nth_error (linkStates r) i with
  | Some r' => targetsFrom (graphNodes (fst (generateGraph r))) i r'
  | None => []
  end.

(** The ends of the links that the targets [ts] give node [i]: one link
    for each target that is not [i] itself, in the order of the draws. *)
Definition linksTo (nodes : list GraphNode) (i : nat) (ts : list Z)
  : list (string * string) :=
  map (fun t => (idAt nodes i, idAt nodes (Z.to_nat t)))
      (filter (fun t => negb (t =? Z.of_nat i)%Z) ts).

End GraphDraws.

(** * The processes of one asset *)

(** What is drawn for one asset before its processes are made. *)
Record AssetDraws : Type := mkDraws {
  processCount : Z;
  anomalous : bool;
  problematicProcessCount : Z
}.

Definition validDraws (d : AssetDraws) : Prop :=
  (1 <= processCount d <= 100)%Z /\
  if anomalous d then (1 <= problematicProcessCount d <= 9)%Z
  else problematicProcessCount d = 0%Z.

(** An asset made for index [i] of group [tag] from the draws [d]: the
    problematic statuses come first, then ['OK'] up to [processCount],
    and the ids count the processes from 0. *)
Definition shaped (tag : string) (i : nat) (d : AssetDraws) (n : Node.t)
  : Prop :=
  let k := Z.to_nat (problematicProcessCount d) in
  let c := Z.to_nat (processCount d) in
  Node.tag n = tag /\
  Node.hasAnomaly n = anomalous d /\
  map Process.status (Node.processes n)
    = (map problematicStatus (seq 0 k) ++ repeat "OK" (c - k))%list /\
  map Process.id (Node.processes n)
    = map (processId tag i) (seq 0 (k + (c - k))).

Definition V1_assetDraws (config : GroupConfig) : Gen AssetDraws :=
  c <- drawProcessCount ;;
  a <- drawAnomaly config ;;
  k <- drawProblematicCount a ;;
  ret (mkDraws c a k).

Definition V2_assetDraws (host : Host) (config : GroupConfig)
    (subclusters : list Subcluster) (subclusterCount scaledCount : Z)
    (i : nat) : Gen AssetDraws :=
  a <- drawAnomaly config ;;
  _ <- drawPosition host subclusters subclusterCount scaledCount i a ;;
  c <- drawProcessCount ;;
  k <- drawProblematicCount a ;;
  ret (mkDraws c a k).

(** What the later passes of the first revision leave alone: they move a
    node and fill the connections of its processes, nothing else. *)
Definition core (n : Node.t)
  : string * bool * string * option string * list (string * string) :=
  (Node.id n, Node.hasAnomaly n, Node.tag n, Node.date n,
   map (fun p => (Process.id p, Process.status p)) (Node.processes n)).

(** An asset made for the slot [(tag, i)] from valid draws. *)
Definition slotShaped (slot : string * nat) (n : Node.t) : Prop :=
  exists d, validDraws d /\ shaped (fst slot) (snd slot) d n.

Definition generatedAsset (n : Node.t) : Prop :=
  exists slot, slotShaped slot n.

(** The slots of a group table, each group with the number of assets
    made for it. *)
Definition slotsOf (assets : GroupConfig -> Z)
    (table : list (string * GroupConfig)) : list (string * nat) :=
  flat_map (fun e => map (pair (fst e)) (seq 0 (Z.to_nat (assets (snd e)))))
           table.

(** * The properties claimed of a generated asset *)

(** 1 to 9 processes that are not OK on an anomalous asset, none on a
    healthy one. *)
Definition anomalyBound (n : Node.t) : Prop :=
  if Node.hasAnomaly n then (1 <= issues n <= 9)%nat else issues n = 0%nat.

(** [proc.status === 'OK'] *)
Definition healthy (p : Process.t) : bool := String.eqb (Process.status p) "OK".

(** The statuses of the processes that are not OK, in the order of the
    list: ['Error'] at the even places, ['Warning'] at the odd ones. *)
Definition alternates (n : Node.t) : Prop :=
  map Process.status (filter suspicious (Node.processes n))
  = map (fun j => if Nat.even j then "Error" else "Warning")
        (seq 0 (issues n)).

(** The process that the effect on [selectedNode] expands is the head
    of the list and carries ['Error']. *)
Definition expandsAnError (n : Node.t) : Prop :=
  exists p,
    hd_error (Node.processes n) = Some p /\
    find suspicious (Node.processes n) = Some p /\
    Process.status p = "Error" /\
    forall expanded,
      App.autoExpand (Some n) expanded = Some (Process.id p).

Definition errorFirst (n : Node.t) : Prop :=
  if Node.hasAnomaly n then alternates n /\ expandsAnError n
  else issues n = 0%nat.

(** The number of processes of an asset made from the draws [d]. *)
Definition ownsAsDrawn (d : AssetDraws) (n : Node.t) : Prop :=
  Node.hasAnomaly n = anomalous d /\
  Z.of_nat (issues n) = problematicProcessCount d /\
  Z.of_nat (List.length (Node.processes n))
  = Z.max (processCount d) (problematicProcessCount d) /\
  (1 <= List.length (Node.processes n) <= 100)%nat /\
  ((processCount d <=? problematicProcessCount d)%Z = true ->
   filter healthy (Node.processes n) = []).

Definition ownsSomeDraw (n : Node.t) : Prop :=
  exists d, validDraws d /\ ownsAsDrawn d n.

(** * Process identifiers *)

(** The ids of all processes of a list of nodes, in order. *)
Definition processIds (ns : list Node.t) : list string :=
  flat_map (fun n => map Process.id (Node.processes n)) ns.

(** The nodes made under a tag and an asset index; the name of a node,
    [`${tag} Asset ${i}`], tells the index. *)
Definition underSlot (tag : string) (i : nat) (ns : list Node.t)
  : list Node.t :=
  filter (fun n =>
            String.eqb (Node.tag n) tag
            && String.eqb (Properties.name (Node.properties n))
                          (tag ++ " Asset " ++ decimal i)) ns.

(** No two processes made under the same tag and asset index share an
    id. *)
Definition idsUniquePerSlot (ns : list Node.t) : Prop :=
  forall tag i, NoDup (processIds (underSlot tag i ns)).

Fixpoint dashFree (s : string) : bool :=
  match s with
  | EmptyString => true
  | String c s' => negb (Ascii.eqb c "-") && dashFree s'
  end.

(** Concrete inputs for running the models: a source that always draws
    0, and a host whose cosine and sine are those of 0 at every angle and
    whose simulation leaves the nodes where they are. *)
Definition zeroRng : Rng := mkRng (fun _ => 0%Z) 0.

Definition stillHost : Host :=
  mkHost (fun _ => mkF 1 0) (fun _ => mkF 0 0) (fun _ allNodes => allNodes).

(** * States for running the interaction *)

(** The second revision after its first render on two dates: the
    collection generated from [zeroRng], the last date current, nothing
    selected. *)
Definition twoDates : list string := ["2024-05-01"; "2024-05-02"].

Definition loadedState : App.State :=
  App.mk (run (V2.generateNodes stillHost (mkDimensions 1280 720) twoDates)
              zeroRng)
         "2024-05-02" None None.

(** All assets of [loadedState] lie on one point, so one hexagon holds
    all that are on display; this is the click on it. *)
Definition clickedState : App.State :=
  App.step loadedState (App.ClickCell (App.filteredData loadedState)).

(** * The scaling of the groups for a date *)

(** [count * total / baseline] to the nearest integer, halves up, in
    exact arithmetic. *)
Definition exactScaled (baseline total count : Z) : Z :=
  (2 * count * total + baseline) / (2 * baseline).

(** The totals that [drawTotalNodesForDate] is meant to range over. *)
Definition totals : list Z := map (fun k => 1410 + Z.of_nat k)%Z (seq 0 46).



(** * Positions and the viewport *)

Definition fleb (x y : float) : bool := negb (fltb y x).

(** The margin that the update loop of the first revision keeps for a
    node: 60 for an anomalous one, 25 for a healthy one. *)
Definition margin (n : Node.t) : Z := if Node.hasAnomaly n then 60 else 25.

(** [r <= x <= width - r] and [r <= y <= height - r] *)
Definition withinBounds (dimensions : Dimensions) (n : Node.t) : bool :=
  let r := margin n in
  fleb (ofZ r) (Node.x n)
  && fleb (Node.x n) (ofZ (width dimensions - r))
  && fleb (ofZ r) (Node.y n)
  && fleb (Node.y n) (ofZ (height dimensions - r)).

(** A narrow viewport, and draws that put the centre of the first
    subcluster at the right end of its range: the draw for [centerX] is
    the first of the first revision and the second of the second (after
    the total of the date).  All other draws are 0. *)
Definition narrow : Dimensions := mkDimensions 400 800.

Definition edgeRng (centerXDraw : nat) : Rng :=
  mkRng (fun k => if Nat.eqb k centerXDraw then 2 ^ 53 - 1 else 0)%Z 0.

(** A host like [stillHost] whose simulation moves every node half a
    pixel to the right, as any simulation that moves nodes at all leaves
    them off the coordinates they started from. *)
Definition driftHost : Host :=
  mkHost (fun _ => mkF 1 0) (fun _ => mkF 0 0)
         (fun _ allNodes =>
            map (fun s => mkSimNode (fadd (sim_x s) c0_5) (sim_y s)
                                    (sim_hasAnomaly s)) allNodes).


(** * The records of the collections *)

(** The fields of a process other than its connections. *)
Definition processFields (p : Process.t)
  : string * string * string * string * Z :=
  (Process.id p, Process.name p, Process.status p, Process.group p,
   Process.weight p).

(** All of a node but its position and the connections of its
    processes. *)
Definition detail (n : Node.t)
  : string * Z * bool * string * option string * string * string * string
    * list (string * string * string * string * Z) :=
  (Node.id n, Node.radius n, Node.hasAnomaly n, Node.tag n, Node.date n,
   Properties.name (Node.properties n), Properties.type (Node.properties n),
   Properties.status (Node.properties n),
   map processFields (Node.processes n)).

(** [`${tag}-${i}`] in the first revision, [`${tag}-${date}-${i}`] in the
    second. *)
Definition assetId (date : option string) (tag : string) (i : nat) : string :=
  match date with
  | None => tag ++ "-" ++ decimal i
  | Some d => tag ++ "-" ++ d ++ "-" ++ decimal i
  end.

(** Process [j] of asset [i] of the group [tag], as the process loops
    write it. *)
Definition describedProcess (tag : string) (i j : nat) (p : Process.t)
  : Prop :=
  Process.id p = processId tag i j /\
  Process.name p = Process.group p ++ " Process " ++ decimal j /\
  In (Process.group p) processGroups /\
  (1 <= Process.weight p <= 3)%Z.

(** Asset [i] of the group [tag], as [nodes.push] writes it. *)
Definition described (date : option string) (slot : string * nat)
    (n : Node.t) : Prop :=
  Node.id n = assetId date (fst slot) (snd slot) /\
  Node.tag n = fst slot /\
  Node.date n = date /\
  Node.radius n = 5%Z /\
  Properties.name (Node.properties n)
  = fst slot ++ " Asset " ++ decimal (snd slot) /\
  In (Properties.type (Node.properties n)) assetTypes /\
  Properties.status (Node.properties n) = assetStatus (Node.hasAnomaly n) /\
  Forall2 (describedProcess (fst slot) (snd slot))
          (seq 0 (List.length (Node.processes n))) (Node.processes n).

(** The nodes of one date of the second revision: the groups in the order
    of the table, each with the assets 0, 1, ... of its scaled count. *)
Definition describedDay (date : string) (pass : list Node.t) : Prop :=
  exists total,
    (1410 <= total <= 1455)%Z /\
    Forall2 (described (Some date))
            (slotsOf (fun c => exactScaled 1422 total (count c)) groups)
            pass.

(** * Connections *)

(** The connections that the second pass of the first revision gives a
    process of the group [tag]: two to four ids, all different, none its
    own, each the id of a process of that group in the collection. *)
Definition goodConnections (ids : list string) (tag : string)
    (p : Process.t) : Prop :=
  (2 <= List.length (Process.connections p) <= 4)%nat /\
  NoDup (Process.connections p) /\
  ~ In (Process.id p) (Process.connections p) /\
  Forall (fun c => In c ids /\ exists i j, c = processId tag i j)
         (Process.connections p).

(** The tag and the processes of a node. *)
Definition tagged (n : Node.t) : string * list Process.t :=
  (Node.tag n, Node.processes n).

Definition wiredRecords (recs : list (string * list Process.t)) : Prop :=
  let ids := flat_map (fun rc => map Process.id (snd rc)) recs in
  Forall (fun rc => Forall (goodConnections ids (fst rc)) (snd rc)) recs.

(** Every process of every node has good connections within the
    collection. *)
Definition wired (ns : list Node.t) : Prop := wiredRecords (map tagged ns).

(** No process of the nodes has a connection. *)
Definition unconnected (ns : list Node.t) : Prop :=
  Forall (fun n => Forall (fun p => Process.connections p = [])
                          (Node.processes n)) ns.

(** What the second pass does to the process at [index] of
    [groupProcesses]. *)
Definition connectedAt (ids : list string) (ip : nat * Process.t)
    (p' : Process.t) : Prop :=
  Process.id p' = Process.id (snd ip) /\
  exists k, (2 <= k <= 4)%nat /\
    Process.connections p'
    = (Process.connections (snd ip)
       ++ map (fun c => nth ((fst ip + c + 1) mod List.length ids)%nat ids "")
              (seq 0 k))%list.

(** [groupProcesses]: the processes of the nodes of a group, in the order
    of their creation. *)
Definition allProcesses (ns : list Node.t) : list Process.t :=
  flat_map Node.processes ns.

(** * The date filter and the timeline *)

(** What the date filter shows for [date], when [pass] is what was
    generated for it: the nodes of the pass and no others, between 1411
    and 1455 of them. *)
Definition displayedDay (nodes : list Node.t) (date : string)
    (pass : list Node.t) : Prop :=
  V2.filteredData nodes date = pass /\
  (1411 <= List.length pass <= 1455)%nat.

Module Timeline.

(** [dates.indexOf(currentDate)] *)
Fixpoint indexOf (x : string) (l : list string) : Z :=
  match l with
  | [] => -1
  | d :: l' =>
      if String.eqb d x then 0
      else let k := indexOf x l' in if (k <? 0)%Z then -1 else k + 1
  end.

(** The attributes [value] and [max] of the range input. *)
Definition value (dates : list string) (currentDate : string) : Z :=
  indexOf currentDate dates.

Definition max (dates : list string) : Z := Z.of_nat (List.length dates) - 1.

(** [dates[k]]; outside the array it is [undefined], which is written
    [""] here: both are falsy, and neither is a date. *)
Definition dateAt (dates : list string) (k : Z) : string :=
  if (k <? 0)%Z then "" else nth (Z.to_nat k) dates "".

(** [onChange]: [onDateChange(dates[parseInt(e.target.value)])] *)
Definition onChange (dates : list string) (k : Z) (st : App.State)
  : App.State :=
  App.step st (App.DateChange (dateAt dates k)).

End Timeline.

(** The effect that sets the initial date (lines 731-735):
    [if (dates.length > 0 && !currentDate) setCurrentDate(dates[dates.length - 1])]. *)
Definition initialDate (dates : list string) (currentDate : string) : string :=
  if (0 <? Z.of_nat (List.length dates))%Z && String.eqb currentDate ""
  then Timeline.dateAt dates (Z.of_nat (List.length dates) - 1)
  else currentDate.

(** [d.date === currentDate] *)
Definition onDate (d : string) (n : Node.t) : bool :=
  match Node.date n with
  | Some dt => String.eqb dt d
  | None => false
  end.

Definition datedAmong (dates : list string) (n : Node.t) : Prop :=
  exists d, In d dates /\ Node.date n = Some d.

(** * The detail panel *)
Module Panel.

(** The rows of the list of suspicious processes, which the panel shows
    for an anomalous selected asset and for no other (lines 572-636 and
    1294-1358): one row for each process that is not OK, under its id. *)
Definition rows (st : App.State) : list string :=
  match App.selectedNode st with
  | Some n =>
      if Node.hasAnomaly n
      then map Process.id (filter suspicious (Node.processes n))
      else []
  | None => []
  end.

(** The elements [process-graph-${proc.id}] of the document: a row holds
    one when [expandedProcess === proc.id]. *)
Definition mounted (st : App.State) (containerId : string) : bool :=
  match App.expandedProcess st with
  | Some e =>
      existsb (String.eqb e) (rows st)
      && String.eqb containerId ("process-graph-" ++ e)
  | None => false
  end.

(** The events that the rendered page offers: a hexagon holds assets of
    the collection, a row can be clicked when the panel shows it, the
    close icon when there is a panel. *)
Definition enabled (st : App.State) (ev : App.Event) : Prop :=
  match ev with
  | App.ClickCell d => d <> [] /\ incl d (App.nodes st)
  | App.ClickProcess procId => In procId (rows st)
  | App.ClickClose => App.selectedNode st <> None
  | App.ClickBackground => True
  | App.DateChange _ => True
  end.

(** The assets of the collection have ids of their own and processes
    that are not OK when they are anomalous, and the selected asset is
    one of them. *)
Definition sound (st : App.State) : Prop :=
  NoDup (map Node.id (App.nodes st)) /\
  Forall anomalyBound (App.nodes st) /\
  match App.selectedNode st with
  | Some n => In n (App.nodes st)
  | None => True
  end.

(** The expanded process is a row of the panel. *)
Definition consistent (st : App.State) : Prop :=
  match App.expandedProcess st with
  | Some e => In e (rows st)
  | None => True
  end.

End Panel.

(** * A hexagon under the pointer *)
Module Hexagon.

(** [d.filter(node => node.hasAnomaly).length] *)
Definition issueCount (d : list Node.t) : nat :=
  List.length (filter Node.hasAnomaly d).

(** The text of class [hex-label] that [mouseenter] appends (lines
    278-300 and 928-950): the number of suspicious processes of the
    member with the most, when a member is anomalous, and no text
    otherwise. *)
Definition hoverLabel (d : list Node.t) : option nat :=
  if Nat.ltb 0 (issueCount d)
  then option_map issues (nodeWithMostIssues d)
  else None.

End Hexagon.

(** * The circles and labels of the dependency graph *)
Module GraphDrawing.

(** [s.split(sep)] for a separator of one character: the pieces between
    the occurrences of [sep], at least one piece. *)
Fixpoint split (sep : ascii) (s : string) : list string :=
  match s with
  | EmptyString => [EmptyString]
  | String c rest =>
      if Ascii.eqb c sep then EmptyString :: split sep rest
      else match split sep rest with
           | piece :: pieces => String c piece :: pieces
           | [] => [String c EmptyString]
           end
  end.

(** The text beside a circle, [d.name.split(' ')[1]] (lines 461 and
    1154); [None] stands for [undefined]. *)
Definition label (n : ProcessGraph.GraphNode) : option string :=
  nth_error (split " " (ProcessGraph.name n)) 1.

(** The fill of a circle (lines 451 and 1144). *)
Definition fill (n : ProcessGraph.GraphNode) : string :=
  if String.eqb (ProcessGraph.status n) "OK" then "#2e7d32"
  else if String.eqb (ProcessGraph.status n) "Warning" then "#ffa000"
  else "#d32f2f".

(** [s] holds no [c]. *)
Fixpoint lacks (c : ascii) (s : string) : bool :=
  match s with
  | EmptyString => true
  | String c' s' => negb (Ascii.eqb c' c) && lacks c s'
  end.

(** What the callback of [Array.from] makes of the index [i]. *)
Definition numbered (i : nat) (n : ProcessGraph.GraphNode) : Prop :=
  ProcessGraph.id n = "node-" ++ decimal i /\
  ProcessGraph.name n = "Component " ++ decimal i /\
  In (ProcessGraph.status n) ["Error"; "Warning"; "OK"] /\
  In (ProcessGraph.group n) processGroups.

End GraphDrawing.

(** * Properties of the number model *)
Section NumberFacts.

Local Open Scope Z_scope.

Lemma rne_bounds (a s : Z) :
  0 <= a -> 0 < s ->
  0 <= rne a s /\ rne a s * 2 ^ s <= a + 2 ^ (s - 1).
Proof.
  intros Ha Hs. unfold rne.
  rewrite Z.shiftr_div_pow2, Z.land_ones, Z.shiftl_mul_pow2 by lia.
  rewrite Z.mul_1_l.
  assert (Hp : 0 < 2 ^ (s - 1)) by (apply Z.pow_pos_nonneg; lia).
  assert (H2 : 2 ^ s = 2 * 2 ^ (s - 1)).
  { replace s with (Z.succ (s - 1)) at 1 by lia. apply Z.pow_succ_r. lia. }
  pose proof (Z.div_mod a (2 ^ s) ltac:(lia)) as Hdm.
  pose proof (Z.mod_pos_bound a (2 ^ s) ltac:(lia)) as Hm.
  assert (Hq : 0 <= a / 2 ^ s) by (apply Z.div_pos; lia).
  destruct ((2 ^ (s - 1) <? a mod 2 ^ s)
            || ((a mod 2 ^ s =? 2 ^ (s - 1)) && Z.odd (a / 2 ^ s))) eqn:E.
  - split; [lia|].
    assert (2 ^ (s - 1) <= a mod 2 ^ s).
    { apply orb_true_iff in E. destruct E as [E|E].
      - apply Z.ltb_lt in E. lia.
      - apply andb_true_iff in E. destruct E as [E _].
        apply Z.eqb_eq in E. lia. }
    nia.
  - split; [lia|]. nia.
Qed.

(** A product [n * k] in units of [2^-53], rounded and floored, stays
    below [k] when [n] is below [2^53]: the rounding error is less than
    the [k * 2^-53] that the exact product is short of [k]. *)
Lemma floor_round_product (n k : Z) :
  0 <= n < 2 ^ 53 -> 1 <= k ->
  0 <= floorF (roundF (n * k) (-53)) < k.
Proof.
  intros Hn Hk. unfold roundF.
  assert (Hp : 0 <= n * k) by nia.
  rewrite Z.abs_eq by exact Hp.
  destruct (Z.log2 (n * k) - 52 <=? 0) eqn:E.
  - unfold floorF; cbn [expo man].
    change (0 <=? -53) with false; cbv iota.
    change (- -53) with 53.
    rewrite Z.shiftr_div_pow2 by lia.
    split.
    + apply Z.div_pos; lia.
    + apply Z.div_lt_upper_bound; [lia|]. nia.
  - apply Z.leb_gt in E.
    set (s := Z.log2 (n * k) - 52) in *.
    assert (Hpos : 0 < n * k).
    { destruct (Z.eq_dec (n * k) 0) as [H0|H0]; [|lia].
      exfalso. subst s. rewrite H0 in E. cbn in E. lia. }
    rewrite (Z.sgn_pos _ Hpos), Z.mul_1_l.
    destruct (rne_bounds (n * k) s Hp E) as [Hr0 Hr].
    destruct (Z.log2_spec (n * k) Hpos) as [Hlo _].
    assert (Hs1 : 2 ^ (s - 1) < k).
    { assert (Hsplit : 2 ^ Z.log2 (n * k) = 2 ^ (s - 1) * 2 ^ 53).
      { rewrite <- Z.pow_add_r by lia. f_equal. lia. }
      rewrite Hsplit in Hlo.
      assert (n * k < k * 2 ^ 53) by nia.
      assert (0 < 2 ^ 53) by lia. nia. }
    assert (Hlt : rne (n * k) s * 2 ^ s < k * 2 ^ 53) by nia.
    unfold floorF; cbn [expo man].
    destruct (0 <=? -53 + s) eqn:E2.
    + apply Z.leb_le in E2.
      assert (Hs : 2 ^ s = 2 ^ (-53 + s) * 2 ^ 53).
      { rewrite <- Z.pow_add_r by lia. f_equal. lia. }
      assert (0 <= 2 ^ (-53 + s)) by (apply Z.pow_nonneg; lia).
      split; [nia|]. rewrite Hs in Hlt. nia.
    + apply Z.leb_gt in E2.
      rewrite Z.shiftr_div_pow2 by lia.
      assert (Hs : 2 ^ 53 = 2 ^ (- (-53 + s)) * 2 ^ s).
      { rewrite <- Z.pow_add_r by lia. f_equal. lia. }
      assert (0 < 2 ^ (- (-53 + s))) by (apply Z.pow_pos_nonneg; lia).
      assert (0 < 2 ^ s) by (apply Z.pow_pos_nonneg; lia).
      split.
      * apply Z.div_pos; lia.
      * apply Z.div_lt_upper_bound; [lia|].
        rewrite Hs in Hlt. nia.
Qed.

Lemma ofZ_small (k : Z) : 0 <= k < 2 ^ 53 -> ofZ k = mkF k 0.
Proof.
  intros Hk. unfold ofZ, roundF. rewrite Z.abs_eq by lia.
  destruct (Z.eq_dec k 0) as [->|Hk0]; [reflexivity|].
  assert (Z.log2 k < 53) by (apply Z.log2_lt_pow2; lia).
  destruct (Z.log2 k - 52 <=? 0) eqn:E; [reflexivity|].
  apply Z.leb_gt in E. lia.
Qed.

End NumberFacts.

(** * Properties of the random source and of the loops *)
Section GenFacts.

Lemma random_mantissa (r : Rng) :
  exists n, (0 <= n < 2 ^ 53)%Z /\ fst (random r) = mkF n (-53).
Proof.
  exists (source r (cursor r) mod 2 ^ 53)%Z. split; [|reflexivity].
  apply Z.mod_pos_bound. lia.
Qed.

(** [Math.floor(Math.random() * k)] is one of [0 .. k-1]. *)
Lemma randomInt_range (k : Z) (r : Rng) :
  (1 <= k < 2 ^ 53)%Z -> (0 <= fst (randomInt k r) < k)%Z.
Proof.
  intros Hk. unfold randomInt, bind, ret.
  destruct (random_mantissa r) as [n [Hn Hu]].
  destruct (random r) as [u r'] eqn:E. cbn [fst] in *. subst u.
  unfold fmul. rewrite ofZ_small by lia. cbn [man expo].
  replace (-53 + 0)%Z with (-53)%Z by lia.
  apply floor_round_product; lia.
Qed.

Context {A B : Type}.

Lemma mapM_length (f : A -> Gen B) (l : list A) (r : Rng) :
  List.length (fst (mapM f l r)) = List.length l.
Proof.
  revert r. induction l as [|a l IH]; intros r; cbn; [reflexivity|].
  unfold bind. destruct (f a r) as [b r1].
  specialize (IH r1). destruct (mapM f l r1) as [bs r2].
  cbn in *. now rewrite IH.
Qed.

(** What holds of every round holds of every element pushed. *)
Lemma mapM_Forall2 (R : A -> B -> Prop) (f : A -> Gen B) (l : list A) :
  (forall a r, In a l -> R a (fst (f a r))) ->
  forall r, Forall2 R l (fst (mapM f l r)).
Proof.
  induction l as [|a l IH]; intros H r; cbn; [constructor|].
  unfold bind. pose proof (H a r (or_introl eq_refl)) as Ha.
  destruct (f a r) as [b r1].
  assert (IH' := IH (fun a' r' Hin => H a' r' (or_intror Hin)) r1).
  destruct (mapM f l r1) as [bs r2]. cbn in *. constructor; assumption.
Qed.

Lemma mapM_Forall (P : B -> Prop) (f : A -> Gen B) (l : list A) :
  (forall a r, In a l -> P (fst (f a r))) ->
  forall r, Forall P (fst (mapM f l r)).
Proof.
  intros H r.
  pose proof (mapM_Forall2 (fun _ b => P b) f l H r) as HF.
  remember (fst (mapM f l r)) as bs eqn:E. clear E H.
  induction HF; constructor; assumption.
Qed.

End GenFacts.

(** * The rounds of a loop *)
Section Rounds.

Context {A B : Type}.

Lemma statesOf_length (f : A -> Gen B) (l : list A) (r : Rng) :
  List.length (statesOf f l r) = List.length l.
Proof.
  revert r. induction l as [|a l IH]; intros r; cbn; [reflexivity|].
  now rewrite IH.
Qed.


Lemma Forall2_rounds (R : A -> B -> Prop) (f : A -> Gen B) (l : list A)
    (r : Rng) :
  Forall2 R l (fst (mapM f l r)) ->
  Forall2 (fun a r' => R a (fst (f a r'))) l (statesOf f l r).
Proof.
  revert r. induction l as [|a l IH]; intros r; cbn; [constructor|].
  unfold bind. destruct (f a r) as [b r1] eqn:E. cbn [snd].
  specialize (IH r1). destruct (mapM f l r1) as [bs r2]. cbn in *.
  intros H. inversion H; subst. constructor; [now rewrite E|auto].
Qed.


End Rounds.

Section AssetFacts.

Lemma Forall2_map_eq {A B C : Type} (g : B -> C) (h : A -> C)
    (l : list A) (l' : list B) :
  Forall2 (fun a b => g b = h a) l l' -> map g l' = map h l.
Proof. induction 1; cbn; congruence. Qed.

Lemma makeProcess_fields (tag : string) (i : nat) (st : string) (j : nat)
    (r : Rng) :
  Process.id (fst (makeProcess tag i st j r)) = processId tag i j /\
  Process.status (fst (makeProcess tag i st j r)) = st.
Proof.
  unfold makeProcess, bind, ret.
  destruct (randomInt 5 r) as [g r1]. destruct (randomInt 3 r1) as [w r2].
  split; reflexivity.
Qed.

Lemma makeProcesses_shape (tag : string) (i k c : nat) (r : Rng) :
  let ps := fst (makeProcesses tag i k c r) in
  map Process.status ps
    = (map problematicStatus (seq 0 k) ++ repeat "OK" (c - k))%list /\
  map Process.id ps = map (processId tag i) (seq 0 (k + (c - k))).
Proof.
  unfold makeProcesses, bind, ret.
  pose proof (mapM_Forall2
    (fun j p => Process.id p = processId tag i j /\
                Process.status p = problematicStatus j)
    (fun j => makeProcess tag i (problematicStatus j) j) (seq 0 k)
    (fun j r' _ => makeProcess_fields tag i (problematicStatus j) j r') r)
    as Hbad.
  destruct (mapM (fun j => makeProcess tag i (problematicStatus j) j)
                 (seq 0 k) r) as [bad r1].
  pose proof (mapM_Forall2
    (fun j p => Process.id p = processId tag i j /\ Process.status p = "OK")
    (makeProcess tag i "OK") (seq k (c - k))
    (fun j r' _ => makeProcess_fields tag i "OK" j r') r1) as Hgood.
  destruct (mapM (makeProcess tag i "OK") (seq k (c - k)) r1) as [good r2].
  cbn [fst] in *. rewrite !map_app, seq_app, map_app. cbn [Nat.add].
  split.
  - f_equal.
    + apply Forall2_map_eq. eapply Forall2_impl; [|exact Hbad].
      intros j p [_ H]. exact H.
    + transitivity (map (fun _ : nat => "OK") (seq k (c - k))).
      * apply Forall2_map_eq. eapply Forall2_impl; [|exact Hgood].
        intros j p [_ H]. exact H.
      * generalize (c - k)%nat as m. generalize k as a.
        intros a m. revert a. induction m; intros a; cbn; congruence.
  - f_equal.
    + apply Forall2_map_eq. eapply Forall2_impl; [|exact Hbad].
      intros j p [H _]. exact H.
    + apply Forall2_map_eq. eapply Forall2_impl; [|exact Hgood].
      intros j p [H _]. exact H.
Qed.

Lemma drawProcessCount_range (r : Rng) :
  (1 <= fst (drawProcessCount r) <= 100)%Z.
Proof.
  unfold drawProcessCount, bind, ret.
  pose proof (randomInt_range 100 r ltac:(lia)) as H.
  destruct (randomInt 100 r) as [k r1]. cbn [fst] in *. lia.
Qed.

Lemma drawProblematicCount_range (a : bool) (r : Rng) :
  if a then (1 <= fst (drawProblematicCount a r) <= 9)%Z
  else fst (drawProblematicCount a r) = 0%Z.
Proof.
  destruct a; unfold drawProblematicCount, bind, ret; [|reflexivity].
  pose proof (randomInt_range 9 r ltac:(lia)) as H.
  destruct (randomInt 9 r) as [k r1]. cbn [fst] in *. lia.
Qed.

Lemma V1_assetDraws_valid (config : GroupConfig) (r : Rng) :
  validDraws (fst (V1_assetDraws config r)).
Proof.
  unfold V1_assetDraws, bind, ret.
  pose proof (drawProcessCount_range r) as Hc.
  destruct (drawProcessCount r) as [c r1].
  destruct (drawAnomaly config r1) as [a r2].
  pose proof (drawProblematicCount_range a r2) as Hk.
  destruct (drawProblematicCount a r2) as [k r3].
  split; assumption.
Qed.

Lemma V2_assetDraws_valid (host : Host) (config : GroupConfig)
    (subclusters : list Subcluster) (sc n : Z) (i : nat) (r : Rng) :
  validDraws (fst (V2_assetDraws host config subclusters sc n i r)).
Proof.
  unfold V2_assetDraws, bind, ret.
  destruct (drawAnomaly config r) as [a r1].
  destruct (drawPosition host subclusters sc n i a r1) as [p r2].
  pose proof (drawProcessCount_range r2) as Hc.
  destruct (drawProcessCount r2) as [c r3].
  pose proof (drawProblematicCount_range a r3) as Hk.
  destruct (drawProblematicCount a r3) as [k r4].
  split; assumption.
Qed.

(** The loop body of the first revision makes an asset of the expected
    shape from what it draws. *)
Lemma V1_makeAsset_shaped (host : Host) (tag : string) (config : GroupConfig)
    (subclusters : list Subcluster) (sc : Z) (i : nat) (r : Rng) :
  shaped tag i (fst (V1_assetDraws config r))
         (fst (V1.makeAsset host tag config subclusters sc i r)).
Proof.
  unfold V1.makeAsset, V1_assetDraws, bind, ret.
  destruct (drawProcessCount r) as [c r1].
  destruct (drawAnomaly config r1) as [a r2].
  destruct (drawProblematicCount a r2) as [k r3].
  pose proof (makeProcesses_shape tag i (Z.to_nat k) (Z.to_nat c) r3) as Hp.
  destruct (makeProcesses tag i (Z.to_nat k) (Z.to_nat c) r3) as [ps r4].
  destruct (drawPosition host subclusters sc (count config) i a r4)
    as [p r5].
  destruct (randomInt 3 r5) as [t r6].
  cbn [fst] in *. unfold shaped. cbn.
  destruct Hp as [Hs Hi]. repeat split; assumption.
Qed.

(** So does the loop body of the second revision. *)
Lemma V2_makeAsset_shaped (host : Host) (date tag : string)
    (config : GroupConfig) (subclusters : list Subcluster) (sc n : Z)
    (i : nat) (r : Rng) :
  shaped tag i (fst (V2_assetDraws host config subclusters sc n i r))
         (fst (V2.makeAsset host date tag config subclusters sc n i r)).
Proof.
  unfold V2.makeAsset, V2_assetDraws, bind, ret.
  destruct (drawAnomaly config r) as [a r1].
  destruct (drawPosition host subclusters sc n i a r1) as [p r2].
  destruct (drawProcessCount r2) as [c r3].
  destruct (drawProblematicCount a r3) as [k r4].
  pose proof (makeProcesses_shape tag i (Z.to_nat k) (Z.to_nat c) r4) as Hp.
  destruct (makeProcesses tag i (Z.to_nat k) (Z.to_nat c) r4) as [ps r5].
  destruct (randomInt 3 r5) as [t r6].
  cbn [fst] in *. unfold shaped. cbn.
  destruct Hp as [Hs Hi]. repeat split; assumption.
Qed.

End AssetFacts.


(** * The collections as a whole *)
Section CollectionFacts.

Lemma Forall2_concat {A B : Type} (R : A -> B -> Prop)
    (ls : list (list A)) (ls' : list (list B)) :
  Forall2 (Forall2 R) ls ls' -> Forall2 R (List.concat ls) (List.concat ls').
Proof.
  induction 1; cbn; [constructor|]. apply Forall2_app; assumption.
Qed.

Lemma Forall2_mapped {A A' B : Type} (R : A' -> B -> Prop) (f : A -> A')
    (l : list A) (l' : list B) :
  Forall2 (fun a b => R (f a) b) l l' -> Forall2 R (map f l) l'.
Proof. induction 1; cbn; constructor; assumption. Qed.

Lemma Forall2_right {A B : Type} (R : A -> B -> Prop) (P : B -> Prop)
    (l : list A) (l' : list B) :
  (forall a b, R a b -> P b) -> Forall2 R l l' -> Forall P l'.
Proof. intros H. induction 1; constructor; eauto. Qed.

Lemma shaped_core (tag : string) (i : nat) (d : AssetDraws) (n m : Node.t) :
  core n = core m -> shaped tag i d n -> shaped tag i d m.
Proof.
  unfold core, shaped. intros E [Ht [Ha [Hs Hi]]].
  injection E as _ Ea Et _ Ep.
  assert (Hst : forall l, map Process.status l
                = map snd (map (fun p => (Process.id p, Process.status p)) l))
    by (intros l; now rewrite map_map).
  assert (Hid : forall l, map Process.id l
                = map fst (map (fun p => (Process.id p, Process.status p)) l))
    by (intros l; now rewrite map_map).
  rewrite <- Et, <- Ea. repeat split; try assumption.
  - rewrite <- Hs. now rewrite !Hst, Ep.
  - rewrite <- Hi. now rewrite !Hid, Ep.
Qed.

Lemma slotShaped_core (slot : string * nat) (n m : Node.t) :
  core n = core m -> slotShaped slot n -> slotShaped slot m.
Proof.
  intros E [d [Hv Hs]]. exists d. split; [exact Hv|].
  eapply shaped_core; eassumption.
Qed.

Lemma Forall2_core (slots : list (string * nat)) (l l' : list Node.t) :
  Forall2 slotShaped slots l ->
  Forall2 (fun n m => core n = core m) l l' ->
  Forall2 slotShaped slots l'.
Proof.
  intros H. revert l'. induction H; intros l2 H2; inversion H2; subst;
    constructor.
  - eapply slotShaped_core; eassumption.
  - auto.
Qed.

Lemma Forall2_core_refl (l : list Node.t) :
  Forall2 (fun n m => core n = core m) l l.
Proof. induction l; constructor; auto. Qed.

Lemma Forall2_core_trans (l1 l2 l3 : list Node.t) :
  Forall2 (fun n m => core n = core m) l1 l2 ->
  Forall2 (fun n m => core n = core m) l2 l3 ->
  Forall2 (fun n m => core n = core m) l1 l3.
Proof.
  intros H. revert l3. induction H; intros l3 H3; inversion H3; subst;
    constructor; [congruence | auto].
Qed.

(** The update loop moves nodes and nothing else. *)
Lemma updateAt_core (f : Node.t -> Node.t) (k : nat) (l : list Node.t) :
  (forall n, core n = core (f n)) ->
  Forall2 (fun n m => core n = core m) l (V1.updateAt f k l).
Proof.
  intros Hf. revert k. induction l as [|a l IH]; intros k; cbn.
  - constructor.
  - destruct k; constructor; auto using Forall2_core_refl.
Qed.

Lemma updateNodePositions_core (dimensions : Dimensions)
    (allNodes : list SimNode) (nodes : list Node.t) :
  Forall2 (fun n m => core n = core m) nodes
          (V1.updateNodePositions dimensions nodes allNodes).
Proof.
  unfold V1.updateNodePositions. revert nodes.
  induction allNodes as [|s sims IH]; intros nodes; cbn.
  - apply Forall2_core_refl.
  - eapply Forall2_core_trans; [|apply IH].
    unfold V1.updateNode.
    destruct (V1.findIndex (V1.samePlace s) nodes).
    + apply updateAt_core. intros m. reflexivity.
    + apply Forall2_core_refl.
Qed.

(** The second pass fills connections and nothing else. *)
Lemma connectProcess_fields (ids : list string) (ip : nat * Process.t)
    (r : Rng) :
  let p' := fst (V1.connectProcess ids ip r) in
  (Process.id p', Process.status p')
  = (Process.id (snd ip), Process.status (snd ip)).
Proof.
  destruct ip as [index p]. unfold V1.connectProcess, bind, ret.
  destruct (V1.drawConnections ids index r) as [cs r1]. reflexivity.
Qed.

Lemma map_snd_combine_seq {A : Type} (l : list A) (start : nat) :
  map snd (combine (seq start (List.length l)) l) = l.
Proof.
  revert start. induction l as [|a l IH]; intros start; cbn;
    [reflexivity|]. now rewrite IH.
Qed.

Lemma connectNodes_core (ids : list string) (created : list Node.t) :
  forall start r,
    Forall2 (fun n m => core n = core m) created
            (fst (V1.connectNodes ids start created r)).
Proof.
  induction created as [|n rest IH]; intros start r; cbn.
  - constructor.
  - unfold bind, ret.
    pose proof (mapM_Forall2
      (fun ip p' => (fun p => (Process.id p, Process.status p)) p'
                    = (fun ip => (Process.id (snd ip),
                                  Process.status (snd ip))) ip)
      (V1.connectProcess ids)
      (combine (seq start (List.length (Node.processes n)))
               (Node.processes n))
      (fun ip r' _ => connectProcess_fields ids ip r') r) as Hps.
    destruct (mapM (V1.connectProcess ids)
                (combine (seq start (List.length (Node.processes n)))
                         (Node.processes n)) r) as [ps' r1].
    specialize (IH (start + List.length (Node.processes n))%nat r1).
    destruct (V1.connectNodes ids
                (start + List.length (Node.processes n))%nat rest r1)
      as [rest' r2].
    cbn [fst] in *. constructor; [|exact IH].
    unfold core, V1.setProcesses, Node.processes. cbn.
    f_equal. apply Forall2_map_eq in Hps. rewrite Hps.
    rewrite <- (map_map snd (fun p => (Process.id p, Process.status p))).
    unfold Node.processes. now rewrite map_snd_combine_seq.
Qed.

Lemma V1_created_shaped (host : Host) (tag : string) (config : GroupConfig)
    (subclusters : list Subcluster) (sc : Z) (l : list nat) (r : Rng) :
  Forall2 slotShaped (map (pair tag) l)
    (fst (mapM (V1.makeAsset host tag config subclusters sc) l r)).
Proof.
  apply Forall2_mapped. apply mapM_Forall2. intros i r' _.
  exists (fst (V1_assetDraws config r')). split.
  - apply V1_assetDraws_valid.
  - apply V1_makeAsset_shaped.
Qed.

Lemma V1_generateGroup_shaped (host : Host) (dimensions : Dimensions)
    (slots : list (string * nat)) (nodes : list Node.t)
    (entry : string * GroupConfig) (r : Rng) :
  Forall2 slotShaped slots nodes ->
  Forall2 slotShaped (slots ++ slotsOf count [entry])
          (fst (V1.generateGroup host dimensions nodes entry r)).
Proof.
  intros Hn. destruct entry as [tag config].
  unfold V1.generateGroup, bind, ret, slotsOf. cbn [flat_map fst snd].
  rewrite app_nil_r.
  destruct (makeSubclusters dimensions
              (ceilF (fdiv (ofZ (count config)) (ofZ 15))) r)
    as [subclusters r1].
  pose proof (V1_created_shaped host tag config subclusters
                (ceilF (fdiv (ofZ (count config)) (ofZ 15)))
                (seq 0 (Z.to_nat (count config))) r1) as Hc.
  destruct (mapM (V1.makeAsset host tag config subclusters
                    (ceilF (fdiv (ofZ (count config)) (ofZ 15))))
                 (seq 0 (Z.to_nat (count config))) r1) as [created r2].
  pose proof (connectNodes_core (V1.groupProcessIds created) created 0%nat r2)
    as Hk.
  destruct (V1.connectNodes (V1.groupProcessIds created) 0 created r2)
    as [connected r3].
  cbn [fst] in *.
  assert (Hall : Forall2 slotShaped
                   (slots ++ map (pair tag) (seq 0 (Z.to_nat (count config))))
                   (nodes ++ connected)).
  { apply Forall2_app; [exact Hn|]. eapply Forall2_core; eassumption. }
  destruct (map V1.simNodeOf created); [exact Hall|].
  eapply Forall2_core; [exact Hall|]. apply updateNodePositions_core.
Qed.

Lemma slotsOf_cons (assets : GroupConfig -> Z) (e : string * GroupConfig)
    (table : list (string * GroupConfig)) :
  slotsOf assets (e :: table)
  = (slotsOf assets [e] ++ slotsOf assets table)%list.
Proof. unfold slotsOf. cbn. now rewrite app_nil_r. Qed.

(** Every node of the first revision's collection was made for the slot
    that its place in the collection says. *)
Lemma V1_generateNodes_shaped (table : list (string * GroupConfig))
    (host : Host) (dimensions : Dimensions) (r : Rng) :
  Forall2 slotShaped (slotsOf count table)
          (fst (V1.generateNodesFrom table host dimensions r)).
Proof.
  unfold V1.generateNodesFrom.
  change (slotsOf count table) with ([] ++ slotsOf count table)%list.
  assert (H0 : Forall2 slotShaped [] []) by constructor.
  revert H0. generalize (@nil Node.t) as nodes.
  generalize (@nil (string * nat)) as slots. revert r.
  induction table as [|e table IH]; intros r slots nodes H0; cbn [foldM].
  - unfold slotsOf. cbn. now rewrite app_nil_r.
  - unfold bind.
    pose proof (V1_generateGroup_shaped host dimensions slots nodes e r H0)
      as He.
    destruct (V1.generateGroup host dimensions nodes e r) as [nodes' r1].
    cbn [fst] in He. rewrite slotsOf_cons, app_assoc. apply IH. exact He.
Qed.

End CollectionFacts.

Section SecondRevisionFacts.

Lemma V2_generateGroup_shaped (host : Host) (dimensions : Dimensions)
    (date : string) (scaleFactor : float) (entry : string * GroupConfig)
    (r : Rng) :
  Forall2 slotShaped
    (slotsOf (fun c => V2.scaledCountOf c scaleFactor) [entry])
    (fst (V2.generateGroup host dimensions date scaleFactor entry r)).
Proof.
  destruct entry as [tag config].
  unfold V2.generateGroup, bind, slotsOf. cbn [flat_map fst snd].
  rewrite app_nil_r.
  destruct (makeSubclusters dimensions
    (ceilF (fdiv (ofZ (V2.scaledCountOf config scaleFactor)) (ofZ 15))) r)
    as [subclusters r1].
  apply Forall2_mapped. apply mapM_Forall2. intros i r' _.
  eexists. split.
  - apply V2_assetDraws_valid.
  - apply V2_makeAsset_shaped.
Qed.

Lemma V2_groups_shaped (host : Host) (dimensions : Dimensions)
    (date : string) (scaleFactor : float)
    (table : list (string * GroupConfig)) (r : Rng) :
  Forall2 slotShaped
    (slotsOf (fun c => V2.scaledCountOf c scaleFactor) table)
    (List.concat
       (fst (mapM (V2.generateGroup host dimensions date scaleFactor)
                  table r))).
Proof.
  revert r. induction table as [|e table IH]; intros r; cbn [mapM].
  - constructor.
  - unfold bind, ret.
    pose proof (V2_generateGroup_shaped host dimensions date scaleFactor e r)
      as He.
    destruct (V2.generateGroup host dimensions date scaleFactor e r)
      as [ns r1].
    specialize (IH r1).
    destruct (mapM (V2.generateGroup host dimensions date scaleFactor)
                   table r1) as [nss r2].
    cbn [fst List.concat] in *. rewrite slotsOf_cons.
    apply Forall2_app; assumption.
Qed.

(** Every node of one date was made for the slot that its place says,
    the groups having the sizes that the total drawn for the date
    gives them. *)
Lemma V2_generateDate_shaped (table : list (string * GroupConfig))
    (host : Host) (dimensions : Dimensions) (date : string) (r : Rng) :
  Forall2 slotShaped
    (slotsOf (fun c => V2.scaledCountOf c
                (V2.scaleFactorOf table (fst (V2.drawTotalNodesForDate r))))
             table)
    (fst (V2.generateDate table host dimensions date r)).
Proof.
  unfold V2.generateDate, bind, ret.
  destruct (V2.drawTotalNodesForDate r) as [total r1]. cbn [fst].
  pose proof (V2_groups_shaped host dimensions date
                (V2.scaleFactorOf table total) table r1) as H.
  destruct (mapM (V2.generateGroup host dimensions date
                    (V2.scaleFactorOf table total)) table r1) as [nss r2].
  exact H.
Qed.

Lemma V2_generateNodes_generated (table : list (string * GroupConfig))
    (host : Host) (dimensions : Dimensions) (dates : list string) (r : Rng) :
  Forall generatedAsset
         (fst (V2.generateNodesFrom table host dimensions dates r)).
Proof.
  unfold V2.generateNodesFrom, bind, ret.
  pose proof (mapM_Forall (Forall generatedAsset)
                (V2.generateDate table host dimensions) dates) as H.
  specialize (H (fun date r' _ =>
    Forall2_right slotShaped generatedAsset _ _
      (fun slot n Hs => ex_intro _ slot Hs)
      (V2_generateDate_shaped table host dimensions date r')) r).
  destruct (mapM (V2.generateDate table host dimensions) dates r)
    as [nss r1].
  cbn [fst] in *. apply Forall_concat. exact H.
Qed.

Lemma V1_generateNodes_generated (table : list (string * GroupConfig))
    (host : Host) (dimensions : Dimensions) (r : Rng) :
  Forall generatedAsset (fst (V1.generateNodesFrom table host dimensions r)).
Proof.
  eapply Forall2_right; [|apply V1_generateNodes_shaped].
  intros slot n Hs. exists slot. exact Hs.
Qed.

End SecondRevisionFacts.

(** * From the shape of an asset to the claims about it *)
Section ShapeFacts.

Lemma filter_status (q : string -> bool) (ps : list Process.t) :
  map Process.status (filter (fun p => q (Process.status p)) ps)
  = filter q (map Process.status ps).
Proof.
  induction ps as [|p ps IH]; cbn; [reflexivity|].
  destruct (q (Process.status p)); cbn; congruence.
Qed.

Lemma problematicStatus_parity (j : nat) :
  problematicStatus j = if Nat.even j then "Error" else "Warning".
Proof.
  unfold problematicStatus.
  destruct (Nat.even j) eqn:E.
  - apply Nat.even_spec in E. destruct E as [m ->].
    replace ((2 * m) mod 2)%nat with 0%nat; [reflexivity|].
    symmetry. rewrite Nat.mul_comm. apply Nat.Div0.mod_mul.
  - assert (Ho : Nat.odd j = true) by (rewrite <- Nat.negb_even, E; reflexivity).
    apply Nat.odd_spec in Ho. destruct Ho as [m ->].
    replace ((2 * m + 1) mod 2)%nat with 1%nat; [reflexivity|].
    symmetry. rewrite Nat.add_comm, Nat.mul_comm, Nat.Div0.mod_add.
    reflexivity.
Qed.

Lemma problematicStatus_not_OK (j : nat) :
  negb (String.eqb (problematicStatus j) "OK") = true.
Proof. unfold problematicStatus. destruct (j mod 2 =? 0)%nat; reflexivity. Qed.

Lemma filter_statuses (q : string -> bool) (k m : nat) :
  (forall j, q (problematicStatus j) = negb (q "OK")) ->
  filter q (map problematicStatus (seq 0 k) ++ repeat "OK" m)
  = if q "OK" then repeat "OK" m else map problematicStatus (seq 0 k).
Proof.
  intros Hq. rewrite filter_app.
  assert (H1 : forall l, filter q (map problematicStatus l)
               = if q "OK" then [] else map problematicStatus l).
  { induction l as [|j l IH]; cbn.
    - now destruct (q "OK").
    - rewrite Hq, IH. now destruct (q "OK"). }
  assert (H2 : filter q (repeat "OK" m)
               = if q "OK" then repeat "OK" m else []).
  { induction m as [|m IH]; cbn.
    - now destruct (q "OK").
    - rewrite IH. now destruct (q "OK"). }
  rewrite H1, H2. destruct (q "OK"); [reflexivity|apply app_nil_r].
Qed.

(** The processes that are not OK are the problematic ones. *)
Lemma shaped_suspicious (tag : string) (i : nat) (d : AssetDraws)
    (n : Node.t) :
  shaped tag i d n ->
  map Process.status (filter suspicious (Node.processes n))
  = map problematicStatus (seq 0 (Z.to_nat (problematicProcessCount d))).
Proof.
  intros [_ [_ [Hs _]]]. unfold suspicious.
  rewrite (filter_status (fun s => negb (String.eqb s "OK"))), Hs.
  rewrite filter_statuses; [reflexivity|].
  intros j. now rewrite problematicStatus_not_OK.
Qed.

Lemma shaped_healthy (tag : string) (i : nat) (d : AssetDraws) (n : Node.t) :
  shaped tag i d n ->
  map Process.status (filter healthy (Node.processes n))
  = repeat "OK" (Z.to_nat (processCount d)
                 - Z.to_nat (problematicProcessCount d)).
Proof.
  intros [_ [_ [Hs _]]]. unfold healthy.
  rewrite (filter_status (fun s => String.eqb s "OK")), Hs.
  rewrite filter_statuses; [reflexivity|].
  intros j. cbn. unfold problematicStatus.
  destruct (j mod 2 =? 0)%nat; reflexivity.
Qed.

Lemma shaped_issues (tag : string) (i : nat) (d : AssetDraws) (n : Node.t) :
  shaped tag i d n -> issues n = Z.to_nat (problematicProcessCount d).
Proof.
  intros H. unfold issues.
  rewrite <- (length_map Process.status), (shaped_suspicious _ _ _ _ H).
  now rewrite length_map, length_seq.
Qed.

Lemma shaped_length (tag : string) (i : nat) (d : AssetDraws) (n : Node.t) :
  shaped tag i d n ->
  List.length (Node.processes n)
  = (Z.to_nat (problematicProcessCount d)
     + (Z.to_nat (processCount d) - Z.to_nat (problematicProcessCount d)))%nat.
Proof.
  intros [_ [_ [_ Hi]]].
  rewrite <- (length_map Process.id), Hi. now rewrite length_map, length_seq.
Qed.

Lemma shaped_anomalyBound (tag : string) (i : nat) (d : AssetDraws)
    (n : Node.t) :
  validDraws d -> shaped tag i d n -> anomalyBound n.
Proof.
  intros [_ Hk] H. unfold anomalyBound.
  rewrite (shaped_issues _ _ _ _ H).
  destruct H as [_ [Ha _]]. rewrite Ha.
  destruct (anomalous d); lia.
Qed.

Lemma shaped_owns (tag : string) (i : nat) (d : AssetDraws) (n : Node.t) :
  validDraws d -> shaped tag i d n -> ownsAsDrawn d n.
Proof.
  intros [Hc Hk] H. unfold ownsAsDrawn.
  rewrite (shaped_issues _ _ _ _ H), (shaped_length _ _ _ _ H).
  assert (0 <= problematicProcessCount d <= 9)%Z
    by (destruct (anomalous d); lia).
  split; [apply H|]. split; [lia|]. split; [lia|]. split; [lia|].
  intros Hle. apply Z.leb_le in Hle.
  pose proof (shaped_healthy _ _ _ _ H) as Hh.
  replace (Z.to_nat (processCount d) - Z.to_nat (problematicProcessCount d))%nat
    with 0%nat in Hh by lia.
  cbn in Hh. now apply map_eq_nil in Hh.
Qed.

Lemma find_hd_filter {A : Type} (q : A -> bool) (l : list A) :
  find q l = hd_error (filter q l).
Proof.
  induction l as [|a l IH]; cbn; [reflexivity|].
  destruct (q a); [reflexivity|exact IH].
Qed.

Lemma shaped_errorFirst (tag : string) (i : nat) (d : AssetDraws)
    (n : Node.t) :
  validDraws d -> shaped tag i d n -> errorFirst n.
Proof.
  intros Hv H. pose proof (shaped_anomalyBound _ _ _ _ Hv H) as Hb.
  pose proof (shaped_suspicious _ _ _ _ H) as Hs.
  pose proof (shaped_issues _ _ _ _ H) as Hk.
  rewrite <- Hk in Hs.
  unfold errorFirst, anomalyBound in *.
  destruct (Node.hasAnomaly n) eqn:Ea; [|exact Hb].
  split.
  - unfold alternates. rewrite Hs. apply map_ext.
    apply problematicStatus_parity.
  - destruct H as [_ [_ [Hst _]]].
    rewrite <- Hk in Hst.
    destruct (issues n) as [|k]; [lia|]. cbn in Hst.
    destruct (Node.processes n) as [|p ps] eqn:Ep; [discriminate|].
    cbn in Hst. injection Hst as Hp _.
    exists p. rewrite Ep. split; [reflexivity|].
    assert (Hf : find suspicious (p :: ps) = Some p).
    { cbn. unfold suspicious at 1. rewrite Hp. reflexivity. }
    split; [exact Hf|]. split; [exact Hp|].
    intros e. unfold App.autoExpand. rewrite Ea, Ep, Hf. reflexivity.
Qed.

End ShapeFacts.

(** * Claims about the processes of the generated assets *)
Section GeneratedAssets.

Lemma generated_Forall (P : Node.t -> Prop) (l : list Node.t) :
  (forall tag i d n, validDraws d -> shaped tag i d n -> P n) ->
  Forall generatedAsset l -> Forall P l.
Proof.
  intros HP H. eapply Forall_impl; [|exact H].
  intros n [slot [d [Hv Hs]]]. eapply HP; eassumption.
Qed.

Lemma V1_generateNodes_length (host : Host) (dimensions : Dimensions)
    (r : Rng) :
  List.length (fst (V1.generateNodes host dimensions r)) = 1422%nat.
Proof.
  pose proof (V1_generateNodes_shaped groups host dimensions r) as H.
  apply Forall2_length in H. unfold V1.generateNodes. rewrite <- H.
  vm_compute. reflexivity.
Qed.

(** C1.  In the collection of either revision an anomalous asset has
    between 1 and 9 processes whose status is not ['OK'], and an asset
    that is not anomalous has none.  The first revision's collection has
    1422 assets, whatever is drawn. *)
Theorem C1_anomalous_assets_have_1_to_9_issues :
  forall (host : Host) (dimensions : Dimensions) (dates : list string)
         (r : Rng),
    Forall anomalyBound (fst (V1.generateNodes host dimensions r)) /\
    Forall anomalyBound (fst (V2.generateNodes host dimensions dates r)) /\
    List.length (fst (V1.generateNodes host dimensions r)) = 1422%nat.
Proof.
  intros host dimensions dates r. split; [|split].
  - apply (generated_Forall _ _ shaped_anomalyBound).
    apply V1_generateNodes_generated.
  - apply (generated_Forall _ _ shaped_anomalyBound).
    apply V2_generateNodes_generated.
  - apply V1_generateNodes_length.
Qed.

(** C8.  On every anomalous asset of either collection the processes
    that are not OK carry ['Error'] and ['Warning'] in turn, ['Error']
    first; the first of them is the head of the asset's list, carries
    ['Error'], and is the process that the effect on [selectedNode]
    expands.  An asset that is not anomalous has no such process. *)
Theorem C8_problematic_statuses_alternate_from_Error :
  forall (host : Host) (dimensions : Dimensions) (dates : list string)
         (r : Rng),
    Forall errorFirst (fst (V1.generateNodes host dimensions r)) /\
    Forall errorFirst (fst (V2.generateNodes host dimensions dates r)).
Proof.
  intros host dimensions dates r. split.
  - apply (generated_Forall _ _ shaped_errorFirst).
    apply V1_generateNodes_generated.
  - apply (generated_Forall _ _ shaped_errorFirst).
    apply V2_generateNodes_generated.
Qed.

(** C9.  The loop body of either revision draws a process count between
    1 and 100 and makes an asset that owns as many processes as the
    larger of that count and the problematic count; so the asset owns
    between 1 and 100 processes, and none of them is OK when the count
    drawn is at most the problematic count.  The same holds of every
    asset of the two collections, for some valid draws. *)
Theorem C9_process_total_is_max_of_counts :
  forall (host : Host) (dimensions : Dimensions) (dates : list string)
         (date tag : string) (config : GroupConfig)
         (subclusters : list Subcluster) (subclusterCount scaledCount : Z)
         (i : nat) (r : Rng),
    (let d := fst (V1_assetDraws config r) in
     validDraws d /\
     ownsAsDrawn d
       (fst (V1.makeAsset host tag config subclusters subclusterCount i r)))
    /\
    (let d := fst (V2_assetDraws host config subclusters subclusterCount
                                 scaledCount i r) in
     validDraws d /\
     ownsAsDrawn d
       (fst (V2.makeAsset host date tag config subclusters subclusterCount
                          scaledCount i r)))
    /\ Forall ownsSomeDraw (fst (V1.generateNodes host dimensions r))
    /\ Forall ownsSomeDraw (fst (V2.generateNodes host dimensions dates r)).
Proof.
  intros host dimensions dates date tag config subclusters sc n i r.
  assert (Hall : forall tag i d n, validDraws d -> shaped tag i d n ->
                                   ownsSomeDraw n).
  { intros tag' i' d m Hv Hs. exists d. split; [exact Hv|].
    eapply shaped_owns; eassumption. }
  split; [|split; [|split]].
  - cbv zeta. split; [apply V1_assetDraws_valid|].
    apply (shaped_owns tag i); [apply V1_assetDraws_valid|].
    apply V1_makeAsset_shaped.
  - cbv zeta. split; [apply V2_assetDraws_valid|].
    apply (shaped_owns tag i); [apply V2_assetDraws_valid|].
    apply V2_makeAsset_shaped.
  - apply (generated_Forall _ _ Hall). apply V1_generateNodes_generated.
  - apply (generated_Forall _ _ Hall). apply V2_generateNodes_generated.
Qed.

End GeneratedAssets.

(** * Process identifiers *)
Section ProcessIds.

Lemma dashFree_split (a b x y : string) :
  dashFree a = true -> dashFree b = true ->
  a ++ String "-" x = b ++ String "-" y -> a = b /\ x = y.
Proof.
  revert b. induction a as [|c a IH]; intros [|c' b] Ha Hb E; cbn in *.
  - injection E as E. now split.
  - injection E as Ec _. subst c'.
    apply andb_true_iff in Hb. destruct Hb as [Hb _]. discriminate.
  - injection E as Ec _. subst c.
    apply andb_true_iff in Ha. destruct Ha as [Ha _]. discriminate.
  - injection E as Ec E. subst c'.
    apply andb_true_iff in Ha. apply andb_true_iff in Hb.
    destruct (IH b (proj2 Ha) (proj2 Hb) E) as [-> ->]. now split.
Qed.

Lemma decimal_dashFree (n : nat) : dashFree (decimal n) = true.
Proof.
  unfold decimal. generalize (Nat.to_uint n) as d.
  induction d; cbn; auto.
Qed.

Lemma decimal_inj (n m : nat) : decimal n = decimal m -> n = m.
Proof.
  unfold decimal. intros E.
  apply (f_equal NilEmpty.uint_of_string) in E.
  rewrite !NilEmpty.usu in E. injection E as E.
  now apply Unsigned.to_uint_inj.
Qed.

(** The id tells the tag, the asset index and the process index, as long
    as the tags hold no dash. *)
Lemma processId_inj (tag tag' : string) (i i' j j' : nat) :
  dashFree tag = true -> dashFree tag' = true ->
  processId tag i j = processId tag' i' j' ->
  tag = tag' /\ i = i' /\ j = j'.
Proof.
  intros Ht Ht' E. unfold processId in E. cbn in E.
  injection E as E.
  apply dashFree_split in E; try assumption. destruct E as [-> E].
  apply dashFree_split in E; try apply decimal_dashFree.
  destruct E as [Ei Ej]. apply decimal_inj in Ei. apply decimal_inj in Ej.
  now subst.
Qed.

Lemma shaped_ids (slot : string * nat) (n : Node.t) :
  slotShaped slot n ->
  exists len, map Process.id (Node.processes n)
              = map (processId (fst slot) (snd slot)) (seq 0 len).
Proof. intros [d [_ [_ [_ [_ H]]]]]. eexists. exact H. Qed.

Lemma processIds_in (slots : list (string * nat)) (ns : list Node.t)
    (s : string) :
  Forall2 slotShaped slots ns -> In s (processIds ns) ->
  exists slot j, In slot slots /\ s = processId (fst slot) (snd slot) j.
Proof.
  induction 1 as [|slot n slots ns Hn _ IH]; cbn; [tauto|].
  intros Hin. apply in_app_or in Hin. destruct Hin as [Hin|Hin].
  - destruct (shaped_ids _ _ Hn) as [len Hl]. rewrite Hl in Hin.
    apply in_map_iff in Hin. destruct Hin as [j [Hj _]].
    exists slot, j. split; [now left|now symmetry].
  - destruct (IH Hin) as [slot' [j [Hs Hj]]].
    exists slot', j. split; [now right|exact Hj].
Qed.

(** Distinct slots with dash-free tags give distinct ids. *)
Lemma processIds_NoDup (slots : list (string * nat)) (ns : list Node.t) :
  Forall2 slotShaped slots ns ->
  NoDup slots ->
  Forall (fun slot => dashFree (fst slot) = true) slots ->
  NoDup (processIds ns).
Proof.
  induction 1 as [|slot n slots ns Hn Hrest IH]; cbn; intros Hnd Hdash.
  - constructor.
  - inversion Hnd as [|? ? Hnotin Hnd']; subst.
    inversion Hdash as [|? ? Hd Hdash']; subst.
    destruct (shaped_ids _ _ Hn) as [len Hl]. rewrite Hl.
    apply NoDup_app.
    + apply NoDup_map_NoDup_ForallPairs; [|apply seq_NoDup].
      intros j j' _ _ E.
      now destruct (processId_inj _ _ _ _ _ _ Hd Hd E) as [_ [_ ?]].
    + now apply IH.
    + intros s Hs Hs'. apply in_map_iff in Hs. destruct Hs as [j [Hj _]].
      destruct (processIds_in _ _ _ Hrest Hs') as [slot' [j' [Hin E]]].
      subst s.
      assert (Hd' : dashFree (fst slot') = true)
        by (rewrite Forall_forall in Hdash'; now apply Hdash').
      destruct (processId_inj _ _ _ _ _ _ Hd Hd' E) as [Et [Ei _]].
      apply Hnotin. destruct slot, slot'; cbn in *. now subst.
Qed.

Lemma slotsOf_tags (assets : GroupConfig -> Z)
    (table : list (string * GroupConfig)) (slot : string * nat) :
  In slot (slotsOf assets table) -> In (fst slot) (map fst table).
Proof.
  unfold slotsOf. intros H. apply in_flat_map in H.
  destruct H as [e [He Hs]]. apply in_map_iff in Hs.
  destruct Hs as [i [<- _]]. cbn. now apply in_map.
Qed.

Lemma slotsOf_NoDup (assets : GroupConfig -> Z)
    (table : list (string * GroupConfig)) :
  NoDup (map fst table) -> NoDup (slotsOf assets table).
Proof.
  induction table as [|e table IH]; cbn [map]; intros H.
  - constructor.
  - inversion H as [|? ? Hnotin H']; subst.
    rewrite slotsOf_cons. apply NoDup_app.
    + unfold slotsOf. cbn. rewrite app_nil_r.
      apply NoDup_map_NoDup_ForallPairs; [|apply seq_NoDup].
      intros i i' _ _ E. now injection E.
    + now apply IH.
    + intros slot Hs Hs'. apply slotsOf_tags in Hs, Hs'.
      cbn in Hs. destruct Hs as [Hs|[]]. rewrite <- Hs in Hs'.
      now apply Hnotin.
Qed.

Lemma processIds_filter (q : Node.t -> bool) (ns : list Node.t) :
  NoDup (processIds ns) -> NoDup (processIds (filter q ns)).
Proof.
  induction ns as [|n ns IH]; cbn; intros H; [constructor|].
  pose proof (NoDup_app_remove_l _ _ H) as Hr.
  destruct (q n); cbn; [|now apply IH].
  apply NoDup_app.
  - now apply NoDup_app_remove_r in H.
  - now apply IH.
  - intros s Hs Hs'.
    assert (Hsub : forall l, In s (processIds (filter q l)) ->
                             In s (processIds l)).
    { induction l as [|m l IHl]; cbn; [tauto|].
      destruct (q m); cbn; intros Hin.
      - apply in_app_or in Hin. apply in_or_app. tauto.
      - apply in_or_app. right. now apply IHl. }
    apply Hsub in Hs'. clear - H Hs Hs'.
    induction (map Process.id (Node.processes n)) as [|a l IHl];
      cbn in *; [tauto|].
    inversion H; subst. destruct Hs as [->|Hs].
    + apply H2. apply in_or_app. now right.
    + now apply IHl.
Qed.

Lemma groups_tags :
  NoDup (map fst groups) /\
  forall assets, Forall (fun slot => dashFree (fst slot) = true)
                        (slotsOf assets groups).
Proof.
  split.
  - cbn. repeat constructor; cbn; intuition discriminate.
  - intros assets. apply Forall_forall. intros slot Hs.
    apply slotsOf_tags in Hs. cbn in Hs.
    repeat (destruct Hs as [<-|Hs]; [reflexivity|]). destruct Hs.
Qed.

(** C5, as the code has it.  In the first revision no two processes of
    the collection share an id; in the second no two processes made for
    one date do.  So within a pass over the group table the processes
    made under a tag and an asset index have ids of their own, and an id
    names the one asset that owns the process. *)
Theorem C5_process_ids_unique_within_a_pass :
  forall (host : Host) (dimensions : Dimensions) (date : string) (r : Rng),
    NoDup (processIds (fst (V1.generateNodes host dimensions r))) /\
    idsUniquePerSlot (fst (V1.generateNodes host dimensions r)) /\
    NoDup (processIds (fst (V2.generateDate groups host dimensions date r)))
    /\
    idsUniquePerSlot (fst (V2.generateDate groups host dimensions date r)).
Proof.
  intros host dimensions date r.
  destruct groups_tags as [Hnd Hdash].
  assert (H1 : NoDup (processIds (fst (V1.generateNodes host dimensions r)))).
  { eapply processIds_NoDup.
    - apply V1_generateNodes_shaped.
    - now apply slotsOf_NoDup.
    - apply Hdash. }
  assert (H2 : NoDup (processIds
                 (fst (V2.generateDate groups host dimensions date r)))).
  { eapply processIds_NoDup.
    - apply V2_generateDate_shaped.
    - now apply slotsOf_NoDup.
    - apply Hdash. }
  repeat split; try assumption.
  - intros tag i. now apply processIds_filter.
  - intros tag i. now apply processIds_filter.
Qed.

(** C5 as stated fails in the second revision: the first asset of
    Production on each of two dates owns a process with the id
    [proc-Production-0-0]. *)
Lemma C5_ids_repeat_across_dates :
  let nodes := run (V2.generateNodes stillHost (mkDimensions 1280 720)
                                     twoDates) zeroRng in
  map Node.id (underSlot "Production" 0 nodes)
  = ["Production-2024-05-01-0"; "Production-2024-05-02-0"] /\
  processIds (underSlot "Production" 0 nodes)
  = ["proc-Production-0-0"; "proc-Production-0-0"] /\
  ~ idsUniquePerSlot nodes.
Proof.
  assert (H : let nodes := run (V2.generateNodes stillHost
                                  (mkDimensions 1280 720) twoDates) zeroRng in
              map Node.id (underSlot "Production" 0 nodes)
              = ["Production-2024-05-01-0"; "Production-2024-05-02-0"] /\
              processIds (underSlot "Production" 0 nodes)
              = ["proc-Production-0-0"; "proc-Production-0-0"])
    by (vm_compute; split; reflexivity).
  cbv zeta in *. destruct H as [H1 H2]. repeat split; try assumption.
  intros Hclaim. specialize (Hclaim "Production" 0%nat).
  rewrite H2 in Hclaim. inversion Hclaim as [|? ? Hnotin _]; subst.
  apply Hnotin. now left.
Qed.

End ProcessIds.

(** * Cell selection *)
Section Selection.

(** The reduction keeps the accumulator unless a later member has more
    issues, and then it keeps the first such member with the most. *)
Lemma reduce_max (l : list Node.t) :
  forall acc,
    let m := fold_left moreIssues l acc in
    (issues acc <= issues m)%nat /\
    Forall (fun n => issues n <= issues m)%nat l /\
    ((m = acc /\ Forall (fun n => issues n <= issues acc)%nat l) \/
     (exists k, nth_error l k = Some m /\
                (issues acc < issues m)%nat /\
                Forall (fun n => issues n < issues m)%nat (firstn k l))).
Proof.
  induction l as [|a l IH]; intros acc; cbn [fold_left].
  - cbv zeta. split; [lia|]. split; [constructor|]. left. now split.
  - specialize (IH (moreIssues acc a)). cbv zeta in *.
    destruct IH as [Hacc [Hall Hcase]].
    assert (Hp : moreIssues acc a = if Nat.ltb (issues acc) (issues a)
                                    then a else acc) by reflexivity.
    destruct (Nat.ltb (issues acc) (issues a)) eqn:E; rewrite Hp in *.
    + apply Nat.ltb_lt in E. split; [lia|]. split; [constructor; assumption|].
      right. destruct Hcase as [[Hm _]|[k [Hk [Hlt Hpre]]]].
      * exists 0%nat. cbn. rewrite Hm. repeat split; [lia|constructor].
      * exists (S k). cbn. repeat split; [assumption|lia|].
        constructor; assumption.
    + apply Nat.ltb_ge in E. split; [lia|].
      split; [constructor; [lia|assumption]|].
      destruct Hcase as [[Hm Hle]|[k [Hk [Hlt Hpre]]]].
      * left. split; [assumption|]. constructor; assumption.
      * right. exists (S k). cbn. repeat split; [assumption|lia|].
        constructor; [lia|assumption].
Qed.

(** C2.  A click on a cell with the members [d0 :: rest] selects a
    member that has the most processes that are not OK, and of the members
    with that many the one that comes first in the cell. *)
Theorem C2_click_selects_first_member_with_most_issues :
  forall (st : App.State) (d0 : Node.t) (rest : list Node.t),
    let d := d0 :: rest in
    exists (m : Node.t) (k : nat),
      App.selectedNode (App.step st (App.ClickCell d)) = Some m /\
      nth_error d k = Some m /\
      Forall (fun n => issues n <= issues m)%nat d /\
      Forall (fun n => issues n < issues m)%nat (firstn k d).
Proof.
  intros st d0 rest d.
  destruct (reduce_max d d0) as [_ [Hall Hcase]].
  exists (fold_left moreIssues d d0).
  destruct Hcase as [[Hm _]|[k [Hk [_ Hpre]]]].
  - exists 0%nat. cbn [App.step App.setSelectedNode App.selectedNode].
    split; [reflexivity|]. split; [rewrite Hm; reflexivity|].
    split; [exact Hall|constructor].
  - exists k. cbn [App.step App.setSelectedNode App.selectedNode].
    split; [reflexivity|]. split; [exact Hk|]. split; assumption.
Qed.

(** C6, as the code has it.  A change of the date changes the current
    date and nothing else: the selected asset and the expanded process
    stay, whether or not the selected asset is on display afterwards. *)
Theorem C6_date_change_keeps_the_selection :
  forall (st : App.State) (date : string),
    let st' := App.step st (App.DateChange date) in
    App.selectedNode st' = App.selectedNode st /\
    App.expandedProcess st' = App.expandedProcess st /\
    App.nodes st' = App.nodes st /\
    App.currentDate st' = date /\
    App.filteredData st' = V2.filteredData (App.nodes st) date.
Proof. intros st date. cbn. repeat split. Qed.

(** C6 as stated fails: with the first asset of 2 May selected, the
    change to 1 May leaves it selected, and its process expanded,
    although it is not on display any more. *)
Lemma C6_selection_survives_absence :
  let st' := App.step clickedState (App.DateChange "2024-05-01") in
  App.selectedIsDisplayed clickedState = true /\
  App.selectedIsDisplayed st' = false /\
  option_map Node.id (App.selectedNode st')
    = Some "Production-2024-05-02-0" /\
  App.expandedProcess st' = Some "proc-Production-0-0" /\
  ~ (forall st date,
       App.selectedIsDisplayed (App.step st (App.DateChange date)) = false ->
       App.selectedNode (App.step st (App.DateChange date)) = None).
Proof.
  assert (H : let st' := App.step clickedState (App.DateChange "2024-05-01") in
              App.selectedIsDisplayed clickedState = true /\
              App.selectedIsDisplayed st' = false /\
              option_map Node.id (App.selectedNode st')
                = Some "Production-2024-05-02-0" /\
              App.expandedProcess st' = Some "proc-Production-0-0").
  { vm_compute. repeat split. }
  cbv zeta in *. destruct H as [H1 [H2 [H3 H4]]].
  repeat split; try assumption.
  intros Hclaim. specialize (Hclaim clickedState "2024-05-01" H2).
  rewrite Hclaim in H3. discriminate H3.
Qed.

End Selection.

(** * The dependency graph *)
Section GraphFacts.

Import ProcessGraph GraphDraws.

Lemma drawNodeCount_range (r : Rng) : (15 <= fst (drawNodeCount r) <= 20)%Z.
Proof.
  unfold drawNodeCount, bind, ret.
  pose proof (randomInt_range 6 r ltac:(lia)) as H.
  destruct (randomInt 6 r) as [k r1]. cbn [fst] in *. lia.
Qed.

Lemma drawConnectionCount_range (r : Rng) :
  (1 <= fst (drawConnectionCount r) <= 3)%Z.
Proof.
  unfold drawConnectionCount, bind, ret.
  pose proof (randomInt_range 3 r ltac:(lia)) as H.
  destruct (randomInt 3 r) as [k r1]. cbn [fst] in *. lia.
Qed.

Lemma makeGraphNode_id (i : nat) (r : Rng) :
  id (fst (makeGraphNode i r)) = "node-" ++ decimal i.
Proof.
  unfold makeGraphNode, bind, ret.
  destruct (drawStatus r) as [st r1]. destruct (randomInt 5 r1) as [g r2].
  reflexivity.
Qed.

Lemma Forall2_right_in {A B : Type} (R : A -> B -> Prop) (P : B -> Prop)
    (l : list A) (l' : list B) :
  (forall a b, In a l -> R a b -> P b) -> Forall2 R l l' -> Forall P l'.
Proof.
  intros H HF. induction HF as [|a b l l' Hab _ IH]; constructor.
  - apply (H a b); [now left|assumption].
  - apply IH. intros a' b' Hin. apply H. now right.
Qed.

Lemma Forall2_nth_error {A B : Type} (R : A -> B -> Prop) (l : list A)
    (l' : list B) :
  Forall2 R l l' ->
  forall k a, nth_error l k = Some a ->
              exists b, nth_error l' k = Some b /\ R a b.
Proof.
  induction 1 as [|x y l l' Hxy _ IH]; intros [|k] a Hk; cbn in *;
    try discriminate.
  - injection Hk as <-. eauto.
  - eauto.
Qed.

Lemma nth_error_seq (start n k : nat) :
  (k < n)%nat -> nth_error (seq start n) k = Some (start + k)%nat.
Proof.
  intros Hk. rewrite nth_error_nth' with (d := 0%nat)
    by (rewrite length_seq; assumption).
  now rewrite seq_nth.
Qed.

(** Node [i] carries the id [node-i]. *)
Lemma graphNodes_numbered (n : nat) (r : Rng) (i : nat) :
  (i < n)%nat ->
  idAt (fst (mapM makeGraphNode (seq 0 n) r)) i = "node-" ++ decimal i.
Proof.
  intros Hi.
  pose proof (mapM_Forall2 (fun i nd => id nd = "node-" ++ decimal i)
                makeGraphNode (seq 0 n)
                (fun i r' _ => makeGraphNode_id i r') r) as H.
  destruct (Forall2_nth_error _ _ _ H i i (nth_error_seq 0 n i Hi))
    as [nd [Hnd Hid]].
  unfold idAt. now rewrite Hnd.
Qed.

Lemma drawLink_pushes (nodes : list GraphNode) (i k : nat) (r : Rng) :
  (1 <= List.length nodes <= 20)%nat ->
  (List.length (fst (drawLink nodes i k r)) <= 1)%nat /\
  Forall (linkFrom nodes i) (fst (drawLink nodes i k r)).
Proof.
  intros Hlen. unfold drawLink, bind, ret.
  pose proof (randomInt_range (Z.of_nat (List.length nodes)) r ltac:(lia))
    as Ht.
  destruct (randomInt (Z.of_nat (List.length nodes)) r) as [t r1].
  cbn [fst] in Ht.
  destruct (t =? Z.of_nat i)%Z eqn:E.
  - cbn. split; [lia|constructor].
  - apply Z.eqb_neq in E. destruct (random r1) as [u r2]. cbn.
    split; [lia|]. constructor; [|constructor].
    split; [reflexivity|]. exists (Z.to_nat t). cbn. repeat split; lia.
Qed.

Lemma concat_length_le {A : Type} (ls : list (list A)) (b : nat) :
  Forall (fun l => List.length l <= b)%nat ls ->
  (List.length (List.concat ls) <= b * List.length ls)%nat.
Proof.
  induction 1 as [|l ls Hl _ IH]; cbn; [lia|].
  rewrite length_app. lia.
Qed.

(** What node [i] pushes: at most as many links as it draws targets,
    which is at most 3, all of them its own. *)
Lemma linksFrom_pushes (nodes : list GraphNode) (i : nat) (r : Rng) :
  (1 <= List.length nodes <= 20)%nat ->
  (List.length (fst (linksFrom nodes i r)) <= 3)%nat /\
  Forall (linkFrom nodes i) (fst (linksFrom nodes i r)).
Proof.
  intros Hlen. unfold linksFrom, bind, ret.
  pose proof (drawConnectionCount_range r) as Hc.
  destruct (drawConnectionCount r) as [c r1]. cbn [fst] in Hc.
  pose proof (mapM_Forall
    (fun L => (List.length L <= 1)%nat /\ Forall (linkFrom nodes i) L)
    (drawLink nodes i) (seq 0 (Z.to_nat c))
    (fun k r' _ => drawLink_pushes nodes i k r' Hlen) r1) as H.
  pose proof (mapM_length (drawLink nodes i) (seq 0 (Z.to_nat c)) r1) as Hl.
  destruct (mapM (drawLink nodes i) (seq 0 (Z.to_nat c)) r1) as [pushed r2].
  cbn [fst] in *. rewrite length_seq in Hl. split.
  - assert (Hb : (List.length (List.concat pushed)
                  <= 1 * List.length pushed)%nat).
    { apply concat_length_le. eapply Forall_impl; [|exact H].
      intros L [HL _]. exact HL. }
    lia.
  - apply Forall_concat. eapply Forall_impl; [|exact H].
    intros L [_ HL]. exact HL.
Qed.

(** The links of a list of rounds that leave the node with the id [s]:
    none when no round is that node's, at most 3 otherwise. *)
Lemma outgoing_bound (nodes : list GraphNode) (s : string)
    (idxs : list nat) (perNode : list (list Link)) :
  Forall2 (fun i L => (List.length L <= 3)%nat /\ Forall (linkFrom nodes i) L)
          idxs perNode ->
  (forall i j, In i idxs -> In j idxs -> idAt nodes i = idAt nodes j -> i = j)
  -> NoDup idxs ->
  let out := filter (fun l => String.eqb (source l) s) (List.concat perNode) in
  (List.length out <= 3)%nat /\
  ((forall i, In i idxs -> idAt nodes i <> s) -> out = []).
Proof.
  intros H. induction H as [|i L idxs' perNode' [HL HF] _ IH];
    intros Hinj Hnd; cbn.
  - split; [lia|reflexivity].
  - inversion Hnd as [|? ? Hnotin Hnd']; subst.
    destruct IH as [IHlen IHnil]; [|assumption|].
    { intros a b Ha Hb. apply Hinj; now right. }
    rewrite filter_app, length_app.
    assert (Hhead : idAt nodes i <> s ->
                    filter (fun l => String.eqb (source l) s) L = []).
    { intros Hne. clear - HF Hne. induction HF as [|l L [Hs _] _ IHL]; cbn;
        [reflexivity|].
      rewrite Hs. destruct (String.eqb_spec (idAt nodes i) s); [tauto|].
      exact IHL. }
    split.
    + destruct (string_dec (idAt nodes i) s) as [E|E].
      * rewrite IHnil.
        -- cbn. pose proof (filter_length_le
                   (fun l => String.eqb (source l) s) L). lia.
        -- intros j Hj Hjs. apply Hnotin.
           rewrite (Hinj i j); [assumption|now left|now right|congruence].
      * rewrite (Hhead E). cbn. exact IHlen.
    + intros Hall. rewrite Hhead by (apply Hall; now left).
      cbn. apply IHnil. intros j Hj. apply Hall. now right.
Qed.

Lemma drawLinks_targets (nodes : list GraphNode) (i : nat) (l : list nat) :
  (1 <= List.length nodes <= 20)%nat ->
  forall r,
    let ts := map (fun r' => fst (randomInt (Z.of_nat (List.length nodes)) r'))
                  (statesOf (drawLink nodes i) l r) in
    List.length ts = List.length l /\
    Forall (fun t => (0 <= t < Z.of_nat (List.length nodes))%Z) ts /\
    map endpoints (List.concat (fst (mapM (drawLink nodes i) l r)))
    = linksTo nodes i ts.
Proof.
  intros Hn. induction l as [|k l IH]; intros r; cbv zeta.
  - cbn. repeat split. constructor.
  - cbn [statesOf map mapM]. unfold bind at 1.
    pose proof (randomInt_range (Z.of_nat (List.length nodes)) r
                  ltac:(lia)) as Ht.
    assert (E : drawLink nodes i k r
                = let (t, r1) := randomInt (Z.of_nat (List.length nodes)) r in
                  if (t =? Z.of_nat i)%Z then ([], r1)
                  else let (u, r2) := random r1 in
                       ([mkLink (idAt nodes i) (idAt nodes (Z.to_nat t))
                                (fadd (fmul u (ofZ 3)) (ofZ 1))], r2)).
    { unfold drawLink, bind, ret.
      destruct (randomInt (Z.of_nat (List.length nodes)) r) as [t r1].
      destruct (t =? Z.of_nat i)%Z; [reflexivity|].
      now destruct (random r1). }
    rewrite E. clear E.
    destruct (randomInt (Z.of_nat (List.length nodes)) r) as [t r1].
    cbn [fst] in *. unfold linksTo in *. cbn [filter List.length].
    destruct (t =? Z.of_nat i)%Z eqn:Eq; cbn [negb].
    + cbn [snd]. destruct (IH r1) as [IHl [IHr IHe]].
      unfold bind, ret.
      destruct (mapM (drawLink nodes i) l r1) as [pushed r2].
      cbn [fst List.concat app] in *.
      split; [now rewrite IHl|]. split; [constructor; assumption|].
      exact IHe.
    + destruct (random r1) as [u r2]. cbn [snd].
      destruct (IH r2) as [IHl [IHr IHe]].
      unfold bind, ret.
      destruct (mapM (drawLink nodes i) l r2) as [pushed r3].
      cbn [fst List.concat app map] in *.
      split; [now rewrite IHl|]. split; [constructor; assumption|].
      cbn [app map]. apply (f_equal2 cons); [reflexivity|exact IHe].
Qed.

(** The links of one round of the outer loop: 1 to 3 targets are drawn,
    and one link is pushed for each target that is not the node itself. *)
Lemma linksFrom_targets (nodes : list GraphNode) (i : nat) (r : Rng) :
  (1 <= List.length nodes <= 20)%nat ->
  let ts := targetsFrom nodes i r in
  (1 <= List.length ts <= 3)%nat /\
  Forall (fun t => (0 <= t < Z.of_nat (List.length nodes))%Z) ts /\
  map endpoints (fst (linksFrom nodes i r)) = linksTo nodes i ts.
Proof.
  intros Hn. cbv zeta. unfold targetsFrom, linksFrom, bind, ret.
  pose proof (drawConnectionCount_range r) as Hc.
  destruct (drawConnectionCount r) as [c r1]. cbn [fst] in Hc.
  destruct (drawLinks_targets nodes i (seq 0 (Z.to_nat c)) Hn r1)
    as [Hl [Hr He]].
  destruct (mapM (drawLink nodes i) (seq 0 (Z.to_nat c)) r1) as [pushed r2].
  cbn [fst] in *. rewrite length_seq in Hl.
  split; [lia|]. split; assumption.
Qed.

Lemma filter_all {A : Type} (f : A -> bool) (l : list A) :
  Forall (fun x => f x = true) l -> filter f l = l.
Proof.
  induction 1 as [|x l Hx _ IH]; cbn; [reflexivity|]. now rewrite Hx, IH.
Qed.

Lemma filter_nothing {A : Type} (f : A -> bool) (l : list A) :
  Forall (fun x => f x = false) l -> filter f l = [].
Proof.
  induction 1 as [|x l Hx _ IH]; cbn; [reflexivity|]. now rewrite Hx.
Qed.

(** The links that leave node [i] are those that its round pushed. *)
Lemma outgoing_round (nodes : list GraphNode) (idxs : list nat) :
  (1 <= List.length nodes <= 20)%nat ->
  (forall a b, In a idxs -> In b idxs -> idAt nodes a = idAt nodes b -> a = b)
  -> NoDup idxs ->
  forall j i r,
    nth_error idxs j = Some i ->
    exists r',
      nth_error (statesOf (linksFrom nodes) idxs r) j = Some r' /\
      filter (fun l => String.eqb (source l) (idAt nodes i))
             (List.concat (fst (mapM (linksFrom nodes) idxs r)))
      = fst (linksFrom nodes i r').
Proof.
  intros Hn. induction idxs as [|k idxs IH]; intros Hinj Hnd j i r Hj.
  - destruct j; discriminate Hj.
  - inversion Hnd as [|? ? Hnotin Hnd']; subst.
    cbn [statesOf mapM]. unfold bind at 1.
    pose proof (linksFrom_pushes nodes k r Hn) as [_ HL].
    destruct (linksFrom nodes k r) as [L r1] eqn:EL. cbn [snd fst] in *.
    pose proof (mapM_Forall2
      (fun k' L' => (List.length L' <= 3)%nat /\ Forall (linkFrom nodes k') L')
      (linksFrom nodes) idxs
      (fun k' r' _ => linksFrom_pushes nodes k' r' Hn) r1) as Hper.
    assert (IH' := fun Hinj' => IH Hinj' Hnd').
    unfold bind, ret.
    destruct (mapM (linksFrom nodes) idxs r1) as [perNode r2] eqn:EM.
    cbn [fst List.concat] in *. rewrite filter_app.
    destruct j as [|j]; cbn [nth_error] in *.
    + injection Hj as <-. exists r. split; [reflexivity|].
      rewrite EL. cbn [fst].
      rewrite filter_all.
      * destruct (outgoing_bound nodes (idAt nodes k) idxs perNode Hper)
          as [_ Hnil]; [| exact Hnd' |].
        { intros a b Ha Hb. apply Hinj; now right. }
        cbv zeta in Hnil. rewrite Hnil; [apply app_nil_r|].
        intros a Ha E. apply Hnotin.
        rewrite <- (Hinj a k (or_intror Ha) (or_introl eq_refl) E).
        exact Ha.
      * eapply Forall_impl; [|exact HL]. intros l [Hs _].
        rewrite Hs. apply String.eqb_refl.
    + assert (Hin : In i idxs) by (eapply nth_error_In; exact Hj).
      rewrite filter_nothing.
      * cbn [app].
        destruct (IH' (fun a b Ha Hb => Hinj a b (or_intror Ha) (or_intror Hb))
                      j i r1 Hj) as [r' [Hr' Hf]].
        rewrite EM in Hf. cbn [fst] in Hf.
        exists r'. split; assumption.
      * eapply Forall_impl; [|exact HL]. intros l [Hs _].
        rewrite Hs. apply String.eqb_neq. intros E. apply Hnotin.
        rewrite (Hinj k i (or_introl eq_refl) (or_intror Hin) E).
        exact Hin.
Qed.

(** What the generator does for every node: it draws 1 to 3 targets
    among the nodes, and the links that leave the node are one for each
    target that is not the node itself. *)
Lemma graph_links_follow_the_targets (r : Rng) (i : nat) :
  let g := fst (generateGraph r) in
  (i < List.length (graphNodes g))%nat ->
  (1 <= List.length (targetsDrawn r i) <= 3)%nat /\
  Forall (fun t => (0 <= t < Z.of_nat (List.length (graphNodes g)))%Z)
         (targetsDrawn r i) /\
  map endpoints (outgoing g i) = linksTo (graphNodes g) i (targetsDrawn r i).
Proof.
  cbv zeta. unfold targetsDrawn, linkStates, outgoing.
  unfold generateGraph, bind, ret.
  pose proof (drawNodeCount_range r) as Hc.
  destruct (drawNodeCount r) as [c r1]. cbn [fst] in Hc.
  pose proof (mapM_length makeGraphNode (seq 0 (Z.to_nat c)) r1) as Hlen.
  pose proof (fun k => graphNodes_numbered (Z.to_nat c) r1 k) as Hnum.
  destruct (mapM makeGraphNode (seq 0 (Z.to_nat c)) r1) as [nodes r2].
  cbn [fst] in *. rewrite length_seq in Hlen.
  assert (Hn : (1 <= List.length nodes <= 20)%nat) by lia.
  destruct (mapM (linksFrom nodes) (seq 0 (List.length nodes)) r2)
    as [perNode r3] eqn:EM.
  cbn [fst graphNodes links]. intros Hi.
  destruct (outgoing_round nodes (seq 0 (List.length nodes)) Hn) with
    (j := i) (i := i) (r := r2) as [r' [Hr' Hf]].
  - intros a b Ha Hb E. apply in_seq in Ha, Hb.
    rewrite !Hnum in E by lia. injection E as E. now apply decimal_inj.
  - apply seq_NoDup.
  - now rewrite nth_error_seq.
  - rewrite EM in Hf. cbn [fst] in Hf. rewrite Hr', Hf.
    apply linksFrom_targets. exact Hn.
Qed.

Lemma graph_node_count (r : Rng) :
  (15 <= List.length (graphNodes (fst (generateGraph r))) <= 20)%nat.
Proof.
  unfold generateGraph, bind, ret.
  pose proof (drawNodeCount_range r) as Hc.
  destruct (drawNodeCount r) as [c r1]. cbn [fst] in Hc.
  pose proof (mapM_length makeGraphNode (seq 0 (Z.to_nat c)) r1) as Hlen.
  destruct (mapM makeGraphNode (seq 0 (Z.to_nat c)) r1) as [nodes r2].
  destruct (mapM (linksFrom nodes) (seq 0 (List.length nodes)) r2).
  cbn [fst graphNodes] in *. rewrite length_seq in Hlen. lia.
Qed.

Lemma outgoing_at_most_3 (r : Rng) (i : nat) :
  (List.length (outgoing (fst (generateGraph r)) i) <= 3)%nat.
Proof.
  unfold generateGraph, bind, ret.
  pose proof (drawNodeCount_range r) as Hc.
  destruct (drawNodeCount r) as [c r1]. cbn [fst] in Hc.
  pose proof (mapM_length makeGraphNode (seq 0 (Z.to_nat c)) r1) as Hlen.
  pose proof (fun k => graphNodes_numbered (Z.to_nat c) r1 k) as Hnum.
  destruct (mapM makeGraphNode (seq 0 (Z.to_nat c)) r1) as [nodes r2].
  cbn [fst] in *. rewrite length_seq in Hlen.
  assert (Hn : (1 <= List.length nodes <= 20)%nat) by lia.
  pose proof (mapM_Forall2
    (fun k L => (List.length L <= 3)%nat /\ Forall (linkFrom nodes k) L)
    (linksFrom nodes) (seq 0 (List.length nodes))
    (fun k r' _ => linksFrom_pushes nodes k r' Hn) r2) as Hper.
  destruct (mapM (linksFrom nodes) (seq 0 (List.length nodes)) r2)
    as [perNode r3].
  cbn [fst graphNodes links]. unfold outgoing. cbn [graphNodes links].
  apply (outgoing_bound nodes (idAt nodes i) _ _ Hper); [|apply seq_NoDup].
  intros a b Ha Hb E. apply in_seq in Ha, Hb.
  rewrite !Hnum in E by lia. injection E as E. now apply decimal_inj.
Qed.

(** C7.  What the generator does, and where it parts from the claim.
    For every draw the graph has between 15 and 20 nodes, 1 to 3 targets
    are drawn for each node, the links that leave a node are one for
    each target drawn for it that is not the node itself, so at most 3,
    and what [renderProcessGraph] draws does not depend on the process.
    A target that is the node itself is skipped and no other is drawn in
    its place: when [Math.random()] returns 0 throughout, the graph has
    15 nodes, one target is drawn for each, node 0 every time; the nodes
    1 to 14 get their link to node 0, and node 0 gets no link, against
    the 1 to 3 links per node of the claim and of the comment at the
    draw of [connectionCount]. *)
Theorem C7_node_that_draws_itself_gets_no_link :
  (forall (r : Rng) (i : nat) (mounted : string -> bool)
          (processId containerId : string),
      let g := fst (generateGraph r) in
      (15 <= List.length (graphNodes g) <= 20)%nat /\
      (List.length (outgoing g i) <= 3)%nat /\
      ((i < List.length (graphNodes g))%nat ->
       (1 <= List.length (targetsDrawn r i) <= 3)%nat /\
       Forall (fun t => (0 <= t < Z.of_nat (List.length (graphNodes g)))%Z)
              (targetsDrawn r i) /\
       map endpoints (outgoing g i)
       = linksTo (graphNodes g) i (targetsDrawn r i)) /\
      fst (renderProcessGraph mounted processId containerId r)
      = if mounted containerId then Some g else None) /\
  let g := fst (generateGraph zeroRng) in
  List.length (graphNodes g) = 15%nat /\
  Forall (fun i => targetsDrawn zeroRng i = [0%Z]) (seq 0 15) /\
  outgoing g 0 = [] /\
  map endpoints (links g)
  = map (fun k => ("node-" ++ decimal k, "node-0")) (seq 1 14) /\
  ~ (forall r i,
       (i < List.length (graphNodes (fst (generateGraph r))))%nat ->
       (1 <= List.length (outgoing (fst (generateGraph r)) i) <= 3)%nat).
Proof.
  split.
  - intros r i mounted processId containerId g.
    split; [apply graph_node_count|].
    split; [apply outgoing_at_most_3|]. split.
    + intros Hi. exact (graph_links_follow_the_targets r i Hi).
    + unfold renderProcessGraph, bind, ret. subst g.
      destruct (mounted containerId); [|reflexivity].
      now destruct (generateGraph r).
  - assert (H : List.length (graphNodes (fst (generateGraph zeroRng)))
                = 15%nat
                /\ forallb (fun i =>
                     match targetsDrawn zeroRng i with
                     | [t] => (t =? 0)%Z
                     | _ => false
                     end) (seq 0 15) = true
                /\ outgoing (fst (generateGraph zeroRng)) 0 = []
                /\ map endpoints (links (fst (generateGraph zeroRng)))
                   = map (fun k => ("node-" ++ decimal k, "node-0"))
                         (seq 1 14))
      by (vm_compute; repeat split; reflexivity).
    cbv zeta. destruct H as [H1 [H2 [H3 H4]]].
    split; [exact H1|]. split; [|split; [exact H3|split; [exact H4|]]].
    + rewrite forallb_forall in H2. apply Forall_forall. intros i Hi.
      specialize (H2 i Hi).
      destruct (targetsDrawn zeroRng i) as [|t [|t' ts]]; try discriminate H2.
      apply Z.eqb_eq in H2. now subst t.
    + intros Hclaim. specialize (Hclaim zeroRng 0%nat).
      rewrite H1, H3 in Hclaim. cbn in Hclaim. lia.
Qed.

End GraphFacts.

(** * The scaling of the groups for a date *)
Section Scaling.

Lemma drawTotalNodesForDate_range (r : Rng) :
  (1410 <= fst (V2.drawTotalNodesForDate r) <= 1455)%Z.
Proof.
  unfold V2.drawTotalNodesForDate, bind, ret.
  pose proof (randomInt_range (1455 - 1410 + 1) r ltac:(lia)) as H.
  destruct (randomInt (1455 - 1410 + 1) r) as [k r1]. cbn [fst] in *. lia.
Qed.

Lemma totals_spec (t : Z) : (1410 <= t <= 1455)%Z -> In t totals.
Proof.
  intros Ht. unfold totals. apply in_map_iff.
  exists (Z.to_nat (t - 1410)). split; [lia|]. apply in_seq. lia.
Qed.

(** For each total that can be drawn and each group of the table, the
    binary64 computation [Math.round(count * (total / 1422))] gives the
    exactly rounded quotient. *)
Lemma scaledCountOf_exact (t : Z) (e : string * GroupConfig) :
  (1410 <= t <= 1455)%Z -> In e groups ->
  V2.scaledCountOf (snd e) (V2.scaleFactorOf groups t)
  = exactScaled 1422 t (count (snd e)).
Proof.
  intros Ht He. apply totals_spec in Ht.
  assert (H : forallb (fun t' =>
                forallb (fun e' =>
                  (V2.scaledCountOf (snd e') (V2.scaleFactorOf groups t')
                   =? exactScaled 1422 t' (count (snd e')))%Z) groups)
                totals = true) by (vm_compute; reflexivity).
  rewrite forallb_forall in H. specialize (H t Ht).
  rewrite forallb_forall in H. specialize (H e He).
  now apply Z.eqb_eq in H.
Qed.





Lemma flat_map_ext_in {A B : Type} (f g : A -> list B) (l : list A) :
  (forall a, In a l -> f a = g a) -> flat_map f l = flat_map g l.
Proof.
  induction l as [|a l IH]; cbn; intros H; [reflexivity|].
  rewrite (H a (or_introl eq_refl)), IH; auto.
Qed.

Lemma V2_makeAsset_date (host : Host) (date tag : string)
    (config : GroupConfig) (subclusters : list Subcluster) (sc n : Z)
    (i : nat) (r : Rng) :
  Node.date (fst (V2.makeAsset host date tag config subclusters sc n i r))
  = Some date.
Proof.
  unfold V2.makeAsset, bind, ret.
  destruct (drawAnomaly config r) as [a r1].
  destruct (drawPosition host subclusters sc n i a r1) as [p r2].
  destruct (drawProcessCount r2) as [c r3].
  destruct (drawProblematicCount a r3) as [k r4].
  destruct (makeProcesses tag i (Z.to_nat k) (Z.to_nat c) r4) as [ps r5].
  destruct (randomInt 3 r5) as [t r6]. reflexivity.
Qed.

Lemma V2_generateGroup_dated (host : Host) (dimensions : Dimensions)
    (date : string) (scaleFactor : float) (entry : string * GroupConfig)
    (r : Rng) :
  Forall (fun n => Node.date n = Some date)
         (fst (V2.generateGroup host dimensions date scaleFactor entry r)).
Proof.
  destruct entry as [tag config]. unfold V2.generateGroup, bind.
  destruct (makeSubclusters dimensions
    (ceilF (fdiv (ofZ (V2.scaledCountOf config scaleFactor)) (ofZ 15))) r)
    as [subclusters r1].
  apply mapM_Forall. intros k r2 _. apply V2_makeAsset_date.
Qed.

Lemma V2_generateDate_dated (table : list (string * GroupConfig))
    (host : Host) (dimensions : Dimensions) (date : string) (r : Rng) :
  Forall (fun n => Node.date n = Some date)
         (fst (V2.generateDate table host dimensions date r)).
Proof.
  unfold V2.generateDate, bind, ret.
  destruct (V2.drawTotalNodesForDate r) as [total r1].
  pose proof (mapM_Forall (Forall (fun n => Node.date n = Some date))
    (V2.generateGroup host dimensions date (V2.scaleFactorOf table total))
    table
    (fun e r' _ => V2_generateGroup_dated host dimensions date
                     (V2.scaleFactorOf table total) e r') r1) as H.
  destruct (mapM (V2.generateGroup host dimensions date
                    (V2.scaleFactorOf table total)) table r1) as [nss r2].
  cbn [fst] in *. now apply Forall_concat.
Qed.




End Scaling.

(** * Hexagonal aggregation *)
Section Aggregation.

Import Hexbin.

Variable Cell : Type.
Variable cell_eq_dec : forall a b : Cell, {a = b} + {a <> b}.
Variable cellOf : float -> float -> Cell.

Lemma addPoint_cells (bins : list (Bin Cell)) (p : Node.t) :
  (In (cellOfNode cellOf p) (map cell bins) /\
   map cell (addPoint cell_eq_dec cellOf bins p) = map cell bins) \/
  (~ In (cellOfNode cellOf p) (map cell bins) /\
   map cell (addPoint cell_eq_dec cellOf bins p)
   = (map cell bins ++ [cellOfNode cellOf p])%list).
Proof.
  induction bins as [|b bins IH]; cbn.
  - right. split; [tauto|reflexivity].
  - destruct (cell_eq_dec (cell b) (cellOfNode cellOf p)) as [E|E]; cbn.
    + left. split; [now left|reflexivity].
    + destruct IH as [[Hin Hc]|[Hin Hc]].
      * left. split; [now right|now rewrite Hc].
      * right. split; [tauto|now rewrite Hc].
Qed.

Lemma addPoint_members (bins : list (Bin Cell)) (p : Node.t) :
  Permutation (allMembers (addPoint cell_eq_dec cellOf bins p))
              (allMembers bins ++ [p]).
Proof.
  unfold allMembers.
  induction bins as [|b bins IH]; cbn.
  - reflexivity.
  - destruct (cell_eq_dec (cell b) (cellOfNode cellOf p)) as [E|E]; cbn.
    + rewrite <- !app_assoc. apply Permutation_app_head.
      apply Permutation_app_comm.
    + rewrite <- app_assoc. now apply Permutation_app_head.
Qed.

Lemma addPoint_wellBinned (bins : list (Bin Cell)) (p : Node.t) :
  wellBinned cellOf bins ->
  wellBinned cellOf (addPoint cell_eq_dec cellOf bins p).
Proof.
  intros [Hnd Hall]. split.
  - destruct (addPoint_cells bins p) as [[_ ->]|[Hnotin ->]];
      [assumption|].
    apply NoDup_app; [assumption|repeat constructor; tauto|].
    intros c Hc [<-|[]]. tauto.
  - clear Hnd. induction Hall as [|b bins [Hne Hb] Hrest IH]; cbn.
    + constructor; [|constructor]. cbn. split; [discriminate|].
      constructor; [reflexivity|constructor].
    + destruct (cell_eq_dec (cell b) (cellOfNode cellOf p)) as [E|E].
      * constructor; [|assumption]. cbn. split.
        -- destruct (members b); discriminate.
        -- apply Forall_app. split; [assumption|].
           constructor; [now symmetry|constructor].
      * constructor; [now split|assumption].
Qed.

Lemma hexbin_from (points : list Node.t) :
  forall bins,
    wellBinned cellOf bins ->
    wellBinned cellOf (fold_left (addPoint cell_eq_dec cellOf) points bins) /\
    Permutation
      (allMembers (fold_left (addPoint cell_eq_dec cellOf) points bins))
      (allMembers bins ++ points).
Proof.
  induction points as [|p points IH]; intros bins Hw; cbn [fold_left].
  - split; [assumption|now rewrite app_nil_r].
  - destruct (IH (addPoint cell_eq_dec cellOf bins p)
                 (addPoint_wellBinned bins p Hw)) as [Hw' Hp].
    split; [assumption|]. rewrite Hp, addPoint_members.
    now rewrite <- app_assoc.
Qed.

Lemma same_cell_same_bin (bins : list (Bin Cell)) (b b' : Bin Cell) :
  NoDup (map cell bins) -> In b bins -> In b' bins -> cell b' = cell b ->
  b' = b.
Proof.
  induction bins as [|a bins IH]; cbn; [tauto|].
  intros Hnd Hb Hb' E. inversion Hnd as [|? ? Hnotin Hnd']; subst.
  destruct Hb as [->|Hb], Hb' as [->|Hb']; auto.
  - exfalso. apply Hnotin. rewrite <- E. now apply in_map.
  - exfalso. apply Hnotin. rewrite E. now apply in_map.
Qed.

(** C10.  The bins of a set of points hold every point once (their
    members, taken together, are a rearrangement of the points), no bin
    is empty, no two bins hold the same cell, and the members of a bin
    fall in its cell: so each point is a member of one bin and of no
    other.  No points give no bins, and the asset counter, which prints
    the size of the filtered set, then prints 0. *)
Theorem C10_bins_partition_the_filtered_set :
  forall (points : list Node.t) (st : App.State),
    let bins := hexbin cell_eq_dec cellOf points in
    Permutation (allMembers bins) points /\
    Forall (fun b => members b <> []) bins /\
    NoDup (map cell bins) /\
    Forall (fun b => Forall (fun n => cellOfNode cellOf n = cell b)
                            (members b)) bins /\
    (forall n, In n points ->
       exists b, In b bins /\ In n (members b) /\
                 forall b', In b' bins -> In n (members b') -> b' = b) /\
    hexbin cell_eq_dec cellOf [] = [] /\
    (App.filteredData st = [] ->
     hexbin cell_eq_dec cellOf (App.filteredData st) = [] /\
     App.totalCount st = 0%nat).
Proof.
  intros points st bins.
  assert (Hw0 : wellBinned cellOf (@nil (Bin Cell))) by (split; constructor).
  destruct (hexbin_from points [] Hw0) as [[Hnd Hall] Hperm].
  fold (hexbin cell_eq_dec cellOf points) in Hnd, Hall, Hperm.
  fold bins in Hnd, Hall, Hperm. cbn in Hperm.
  split; [exact Hperm|]. split.
  { eapply Forall_impl; [|exact Hall]. now intros b [H _]. }
  split; [exact Hnd|]. split.
  { eapply Forall_impl; [|exact Hall]. now intros b [_ H]. }
  split; [|split; [reflexivity|]].
  - intros n Hn.
    apply (Permutation_in _ (Permutation_sym Hperm)) in Hn.
    unfold allMembers in Hn. apply in_flat_map in Hn.
    destruct Hn as [b [Hb Hnb]]. exists b.
    split; [assumption|]. split; [assumption|].
    intros b' Hb' Hnb'. apply (same_cell_same_bin bins); try assumption.
    rewrite Forall_forall in Hall.
    destruct (Hall b Hb) as [_ Hc], (Hall b' Hb') as [_ Hc'].
    rewrite Forall_forall in Hc, Hc'.
    now rewrite <- (Hc n Hnb), <- (Hc' n Hnb').
  - intros E. unfold App.totalCount. rewrite E. split; reflexivity.
Qed.

End Aggregation.

(** * The update loop after the simulation *)
Section Declutter.

Lemma findIndex_none {A : Type} (pred : A -> bool) (l : list A) :
  (forall a, In a l -> pred a = false) -> V1.findIndex pred l = None.
Proof.
  induction l as [|a l IH]; cbn; intros H; [reflexivity|].
  rewrite (H a (or_introl eq_refl)), IH; [reflexivity|].
  intros b Hb. apply H. now right.
Qed.

(** When no simulated node lies exactly where a node of the collection
    lies, the loop finds no node to update and the collection stays as
    it was generated. *)
Lemma updateNodePositions_unmatched (dimensions : Dimensions)
    (nodes : list Node.t) (allNodes : list SimNode) :
  (forall s n, In s allNodes -> In n nodes -> V1.samePlace s n = false) ->
  V1.updateNodePositions dimensions nodes allNodes = nodes.
Proof.
  unfold V1.updateNodePositions.
  induction allNodes as [|s sims IH]; cbn; intros H; [reflexivity|].
  unfold V1.updateNode at 2.
  rewrite findIndex_none by (intros n Hn; apply H; [now left|assumption]).
  apply IH. intros s' n Hs Hn. apply H; [now right|assumption].
Qed.

Lemma fltb_asym (x y : float) : fltb x y = true -> fltb y x = false.
Proof.
  unfold fltb, align. rewrite (Z.min_comm (expo y) (expo x)).
  intros H. apply Z.ltb_lt in H. apply Z.ltb_ge. lia.
Qed.

Lemma fltb_irrefl (x : float) : fltb x x = false.
Proof. unfold fltb, align. apply Z.ltb_irrefl. Qed.

(** Where the loop does write a position, the bounds hold. *)
Lemma clamp_within (minDistance dimension : Z) (v : float) :
  fleb (ofZ minDistance) (fsub (ofZ dimension) (ofZ minDistance)) = true ->
  fleb (ofZ minDistance) (V1.clamp minDistance dimension v) = true /\
  fleb (V1.clamp minDistance dimension v)
       (fsub (ofZ dimension) (ofZ minDistance)) = true.
Proof.
  unfold V1.clamp, fleb, fmax, fmin. intros H.
  set (lo := ofZ minDistance) in *.
  set (hi := fsub (ofZ dimension) lo) in *.
  destruct (fltb v hi) eqn:E1.
  - destruct (fltb lo v) eqn:E2.
    + now rewrite (fltb_asym _ _ E2), (fltb_asym _ _ E1).
    + now rewrite fltb_irrefl, H.
  - destruct (fltb lo hi) eqn:E2.
    + now rewrite (fltb_asym _ _ E2), fltb_irrefl.
    + now rewrite fltb_irrefl, H.
Qed.

(** C3, at the failing input.  On a viewport of 400 by 800 the first
    asset of the first revision is anomalous and is generated at
    [x = 350], right of the bound [400 - 60 = 340].  The simulation moves
    its copy in [allNodes]; the update loop looks for a node that lies
    where the moved copy lies, finds none, and the asset stays at 350,
    where clamping would have put it at 340.  The second revision has no
    such pass, and the same asset stays at 350 there too. *)
Theorem C3_first_asset_is_left_outside_the_bounds :
  let nodes := run (V1.generateNodes driftHost narrow) (edgeRng 0) in
  let nodes2 := run (V2.generateNodes driftHost narrow ["2024-05-02"])
                    (edgeRng 1) in
  (exists n, hd_error nodes = Some n /\
             Node.hasAnomaly n = true /\
             floorF (Node.x n) = 350%Z /\
             withinBounds narrow n = false /\
             withinBounds narrow
               (Node.setPosition n (V1.clamp 60 400 (Node.x n))
                                   (V1.clamp 60 800 (Node.y n))) = true) /\
  forallb (withinBounds narrow) nodes = false /\
  (exists n, hd_error nodes2 = Some n /\
             Node.hasAnomaly n = true /\
             floorF (Node.x n) = 350%Z /\
             withinBounds narrow n = false).
Proof.
  cbv zeta. split; [|split].
  - eexists. split; [vm_compute; reflexivity|].
    vm_compute. repeat split.
  - vm_compute. reflexivity.
  - eexists. split; [vm_compute; reflexivity|].
    vm_compute. repeat split.
Qed.

End Declutter.

(** * The records of the collections *)
Section Records.

Lemma at_index_in (arr : list string) (k : Z) :
  (0 <= k < Z.of_nat (List.length arr))%Z -> In (at_index arr k) arr.
Proof. intros Hk. unfold at_index. apply nth_In. lia. Qed.

Lemma makeProcess_described (tag : string) (i : nat) (st : string) (j : nat)
    (r : Rng) :
  describedProcess tag i j (fst (makeProcess tag i st j r)) /\
  Process.connections (fst (makeProcess tag i st j r)) = [].
Proof.
  unfold makeProcess, bind, ret.
  pose proof (randomInt_range 5 r ltac:(lia)) as Hg.
  destruct (randomInt 5 r) as [g r1].
  pose proof (randomInt_range 3 r1 ltac:(lia)) as Hw.
  destruct (randomInt 3 r1) as [w r2]. cbn [fst] in *.
  split; [|reflexivity]. unfold describedProcess.
  cbn [Process.id Process.name Process.group Process.weight].
  repeat split; try lia.
  apply at_index_in. cbn [processGroups List.length]. lia.
Qed.

Lemma makeProcesses_described (tag : string) (i k c : nat) (r : Rng) :
  let ps := fst (makeProcesses tag i k c r) in
  Forall2 (fun j p => describedProcess tag i j p /\ Process.connections p = [])
          (seq 0 (List.length ps)) ps.
Proof.
  unfold makeProcesses, bind, ret.
  pose proof (mapM_Forall2
    (fun j p => describedProcess tag i j p /\ Process.connections p = [])
    (fun j => makeProcess tag i (problematicStatus j) j) (seq 0 k)
    (fun j r' _ => makeProcess_described tag i (problematicStatus j) j r') r)
    as Hbad.
  destruct (mapM (fun j => makeProcess tag i (problematicStatus j) j)
                 (seq 0 k) r) as [bad r1].
  pose proof (mapM_Forall2
    (fun j p => describedProcess tag i j p /\ Process.connections p = [])
    (makeProcess tag i "OK") (seq k (c - k))
    (fun j r' _ => makeProcess_described tag i "OK" j r') r1) as Hgood.
  destruct (mapM (makeProcess tag i "OK") (seq k (c - k)) r1) as [good r2].
  cbn [fst] in *.
  pose proof (Forall2_length Hbad) as Lb.
  pose proof (Forall2_length Hgood) as Lg.
  rewrite length_seq in Lb, Lg.
  rewrite length_app, <- Lb, <- Lg, seq_app. cbn [Nat.add].
  apply Forall2_app; assumption.
Qed.

Lemma Forall2_weaken {A B : Type} (R R' : A -> B -> Prop) (l : list A)
    (l' : list B) :
  (forall a b, R a b -> R' a b) -> Forall2 R l l' -> Forall2 R' l l'.
Proof. intros H. induction 1; constructor; auto. Qed.

Lemma V1_makeAsset_described (host : Host) (tag : string)
    (config : GroupConfig) (subclusters : list Subcluster) (sc : Z) (i : nat)
    (r : Rng) :
  let n := fst (V1.makeAsset host tag config subclusters sc i r) in
  described None (tag, i) n /\
  Forall (fun p => Process.connections p = []) (Node.processes n).
Proof.
  unfold V1.makeAsset, bind, ret.
  destruct (drawProcessCount r) as [c r1].
  destruct (drawAnomaly config r1) as [a r2].
  destruct (drawProblematicCount a r2) as [k r3].
  pose proof (makeProcesses_described tag i (Z.to_nat k) (Z.to_nat c) r3)
    as Hp.
  destruct (makeProcesses tag i (Z.to_nat k) (Z.to_nat c) r3) as [ps r4].
  destruct (drawPosition host subclusters sc (count config) i a r4)
    as [p r5].
  pose proof (randomInt_range 3 r5 ltac:(lia)) as Ht.
  destruct (randomInt 3 r5) as [t r6].
  cbn [fst] in *. cbv zeta in Hp. split.
  - unfold described, Node.processes.
    cbn [Node.id Node.tag Node.date Node.radius Node.properties
         Node.hasAnomaly Properties.name Properties.type Properties.status
         Properties.processes fst snd].
    repeat split; try reflexivity.
    + apply at_index_in. cbn [assetTypes List.length]. lia.
    + eapply Forall2_weaken; [|exact Hp]. now intros j q [H _].
  - unfold Node.processes. cbn [Node.properties Properties.processes].
    eapply Forall2_right; [|exact Hp]. now intros j q [_ H].
Qed.

Lemma V2_makeAsset_described (host : Host) (date tag : string)
    (config : GroupConfig) (subclusters : list Subcluster) (sc n : Z)
    (i : nat) (r : Rng) :
  let nd := fst (V2.makeAsset host date tag config subclusters sc n i r) in
  described (Some date) (tag, i) nd /\
  Forall (fun p => Process.connections p = []) (Node.processes nd).
Proof.
  unfold V2.makeAsset, bind, ret.
  destruct (drawAnomaly config r) as [a r1].
  destruct (drawPosition host subclusters sc n i a r1) as [p r2].
  destruct (drawProcessCount r2) as [c r3].
  destruct (drawProblematicCount a r3) as [k r4].
  pose proof (makeProcesses_described tag i (Z.to_nat k) (Z.to_nat c) r4)
    as Hp.
  destruct (makeProcesses tag i (Z.to_nat k) (Z.to_nat c) r4) as [ps r5].
  pose proof (randomInt_range 3 r5 ltac:(lia)) as Ht.
  destruct (randomInt 3 r5) as [t r6].
  cbn [fst] in *. cbv zeta in Hp. split.
  - unfold described, Node.processes.
    cbn [Node.id Node.tag Node.date Node.radius Node.properties
         Node.hasAnomaly Properties.name Properties.type Properties.status
         Properties.processes fst snd].
    repeat split; try reflexivity.
    + apply at_index_in. cbn [assetTypes List.length]. lia.
    + eapply Forall2_weaken; [|exact Hp]. now intros j q [H _].
  - unfold Node.processes. cbn [Node.properties Properties.processes].
    eapply Forall2_right; [|exact Hp]. now intros j q [_ H].
Qed.


(** Lists of nodes that agree on a projection [f]. *)
Lemma Forall2_same_refl {K : Type} (f : Node.t -> K) (l : list Node.t) :
  Forall2 (fun n m => f n = f m) l l.
Proof. induction l; constructor; auto. Qed.

Lemma Forall2_same_trans {K : Type} (f : Node.t -> K)
    (l1 l2 l3 : list Node.t) :
  Forall2 (fun n m => f n = f m) l1 l2 ->
  Forall2 (fun n m => f n = f m) l2 l3 ->
  Forall2 (fun n m => f n = f m) l1 l3.
Proof.
  intros H. revert l3. induction H; intros l3 H3; inversion H3; subst;
    constructor; [congruence | auto].
Qed.

Lemma Forall2_same_transfer {K S : Type} (f : Node.t -> K)
    (R : S -> Node.t -> Prop) (slots : list S) (l l' : list Node.t) :
  (forall s n m, f n = f m -> R s n -> R s m) ->
  Forall2 R slots l ->
  Forall2 (fun n m => f n = f m) l l' ->
  Forall2 R slots l'.
Proof.
  intros HR H. revert l'. induction H; intros l2 H2; inversion H2; subst;
    constructor; eauto.
Qed.

Lemma Forall2_same_map {K : Type} (f : Node.t -> K) (l l' : list Node.t) :
  Forall2 (fun n m => f n = f m) l l' -> map f l = map f l'.
Proof. induction 1; cbn; congruence. Qed.

(** The update loop keeps every projection that [setPosition] keeps. *)
Lemma updateNodePositions_same {K : Type} (f : Node.t -> K)
    (dimensions : Dimensions) (allNodes : list SimNode) :
  (forall n x y, f (Node.setPosition n x y) = f n) ->
  forall nodes,
    Forall2 (fun n m => f n = f m) nodes
            (V1.updateNodePositions dimensions nodes allNodes).
Proof.
  intros Hf. unfold V1.updateNodePositions.
  induction allNodes as [|s sims IH]; intros nodes; cbn.
  - apply Forall2_same_refl.
  - eapply Forall2_same_trans; [|apply IH].
    unfold V1.updateNode.
    destruct (V1.findIndex (V1.samePlace s) nodes) as [k|];
      [|apply Forall2_same_refl].
    clear IH. revert k. induction nodes as [|a l IHl]; intros k; cbn.
    + constructor.
    + destruct k; constructor; auto using Forall2_same_refl.
Qed.

Lemma connectProcess_processFields (ids : list string)
    (ip : nat * Process.t) (r : Rng) :
  processFields (fst (V1.connectProcess ids ip r)) = processFields (snd ip).
Proof.
  destruct ip as [index p]. unfold V1.connectProcess, bind, ret.
  destruct (V1.drawConnections ids index r) as [cs r1]. reflexivity.
Qed.

(** The second pass keeps the detail of every node. *)
Lemma connectNodes_detail (ids : list string) (created : list Node.t) :
  forall start r,
    Forall2 (fun n m => detail n = detail m) created
            (fst (V1.connectNodes ids start created r)).
Proof.
  induction created as [|n rest IH]; intros start r; cbn [V1.connectNodes].
  - constructor.
  - unfold bind, ret.
    pose proof (mapM_Forall2
      (fun ip p' => processFields p' = processFields (snd ip))
      (V1.connectProcess ids)
      (combine (seq start (List.length (Node.processes n)))
               (Node.processes n))
      (fun ip r' _ => connectProcess_processFields ids ip r') r) as Hps.
    destruct (mapM (V1.connectProcess ids)
                (combine (seq start (List.length (Node.processes n)))
                         (Node.processes n)) r) as [ps' r1].
    specialize (IH (start + List.length (Node.processes n))%nat r1).
    destruct (V1.connectNodes ids
                (start + List.length (Node.processes n))%nat rest r1)
      as [rest' r2].
    cbn [fst] in *. constructor; [|exact IH].
    unfold detail, V1.setProcesses, Node.processes.
    cbn [Node.id Node.radius Node.hasAnomaly Node.tag Node.date
         Node.properties Properties.name Properties.type Properties.status
         Properties.processes].
    f_equal. apply Forall2_map_eq in Hps. rewrite Hps.
    rewrite <- (map_map snd processFields).
    unfold Node.processes. now rewrite map_snd_combine_seq.
Qed.

Lemma Forall2_map_processFields (R : nat -> Process.t -> Prop)
    (ps ps' : list Process.t) :
  (forall j p q, processFields p = processFields q -> R j p -> R j q) ->
  map processFields ps = map processFields ps' ->
  forall l, Forall2 R l ps -> Forall2 R l ps'.
Proof.
  intros HR. revert ps'. induction ps as [|p ps IH]; intros [|q ps'] E l H;
    cbn in E; try discriminate.
  - exact H.
  - pose proof (f_equal (hd (processFields p)) E) as Ep.
    pose proof (f_equal (@tl _) E) as Et. cbn [hd tl] in Ep, Et.
    inversion H as [|j p0 l0 ps0 Hj Hrest]; subst.
    constructor.
    + exact (HR j p q Ep Hj).
    + exact (IH ps' Et l0 Hrest).
Qed.

(** [described] reads the detail of a node and nothing else. *)
Lemma described_detail (date : option string) (slot : string * nat)
    (n m : Node.t) :
  detail n = detail m -> described date slot n -> described date slot m.
Proof.
  unfold detail, described.
  intros E [H1 [H2 [H3 [H4 [H5 [H6 [H7 H8]]]]]]].
  injection E as E1 E2 E3 E4 E5 E6 E7 E8 E9.
  rewrite <- E1, <- E2, <- E3, <- E4, <- E5, <- E6, <- E7, <- E8.
  repeat split; try assumption.
  assert (El : List.length (Node.processes m) = List.length (Node.processes n)).
  { rewrite <- (length_map processFields (Node.processes m)), <- E9.
    apply length_map. }
  rewrite El. eapply Forall2_map_processFields; [|exact E9|exact H8].
  intros j p q Epq [Ha [Hb [Hc Hd]]]. unfold processFields in Epq.
  injection Epq as Q1 Q2 Q3 Q4 Q5. unfold describedProcess.
  now rewrite <- Q1, <- Q2, <- Q4, <- Q5.
Qed.

(** Every node of the first revision's collection is the record of its
    slot: the update loop and the second pass change no field that
    [described] reads. *)
Lemma V1_generateGroup_described (host : Host) (dimensions : Dimensions)
    (slots : list (string * nat)) (nodes : list Node.t)
    (entry : string * GroupConfig) (r : Rng) :
  Forall2 (described None) slots nodes ->
  Forall2 (described None) (slots ++ slotsOf count [entry])
          (fst (V1.generateGroup host dimensions nodes entry r)).
Proof.
  intros Hn. destruct entry as [tag config].
  unfold V1.generateGroup, bind, ret, slotsOf. cbn [flat_map fst snd].
  rewrite app_nil_r.
  destruct (makeSubclusters dimensions
              (ceilF (fdiv (ofZ (count config)) (ofZ 15))) r)
    as [subclusters r1].
  pose proof (mapM_Forall2 (fun i n => described None (tag, i) n)
    (V1.makeAsset host tag config subclusters
       (ceilF (fdiv (ofZ (count config)) (ofZ 15))))
    (seq 0 (Z.to_nat (count config)))
    (fun i r' _ => proj1 (V1_makeAsset_described host tag config subclusters
                            _ i r')) r1) as Hc.
  apply Forall2_mapped in Hc.
  destruct (mapM (V1.makeAsset host tag config subclusters
                    (ceilF (fdiv (ofZ (count config)) (ofZ 15))))
                 (seq 0 (Z.to_nat (count config))) r1) as [created r2].
  pose proof (connectNodes_detail (V1.groupProcessIds created) created
                0%nat r2) as Hk.
  destruct (V1.connectNodes (V1.groupProcessIds created) 0 created r2)
    as [connected r3].
  cbn [fst] in *.
  assert (Hall : Forall2 (described None)
                   (slots ++ map (pair tag) (seq 0 (Z.to_nat (count config))))
                   (nodes ++ connected)).
  { apply Forall2_app; [exact Hn|].
    eapply (Forall2_same_transfer detail); [|exact Hc|exact Hk].
    intros s n m. apply described_detail. }
  destruct (map V1.simNodeOf created); [exact Hall|].
  eapply (Forall2_same_transfer detail); [|exact Hall|].
  - intros sl a b. apply described_detail.
  - apply updateNodePositions_same. reflexivity.
Qed.

Lemma V1_generateNodes_described (table : list (string * GroupConfig))
    (host : Host) (dimensions : Dimensions) (r : Rng) :
  Forall2 (described None) (slotsOf count table)
          (fst (V1.generateNodesFrom table host dimensions r)).
Proof.
  unfold V1.generateNodesFrom.
  change (slotsOf count table) with ([] ++ slotsOf count table)%list.
  assert (H0 : Forall2 (described None) [] []) by constructor.
  revert H0. generalize (@nil Node.t) as nodes.
  generalize (@nil (string * nat)) as slots. revert r.
  induction table as [|e table IH]; intros r slots nodes H0; cbn [foldM].
  - unfold slotsOf. cbn. now rewrite app_nil_r.
  - unfold bind.
    pose proof (V1_generateGroup_described host dimensions slots nodes e r H0)
      as He.
    destruct (V1.generateGroup host dimensions nodes e r) as [nodes' r1].
    cbn [fst] in He. rewrite slotsOf_cons, app_assoc. apply IH. exact He.
Qed.

(** The same for the nodes of one date of the second revision. *)
Lemma V2_generateDate_described (table : list (string * GroupConfig))
    (host : Host) (dimensions : Dimensions) (date : string) (r : Rng) :
  Forall2 (fun slot n =>
             described (Some date) slot n /\
             Forall (fun p => Process.connections p = []) (Node.processes n))
    (slotsOf (fun c => V2.scaledCountOf c
                (V2.scaleFactorOf table (fst (V2.drawTotalNodesForDate r))))
             table)
    (fst (V2.generateDate table host dimensions date r)).
Proof.
  unfold V2.generateDate, bind, ret.
  destruct (V2.drawTotalNodesForDate r) as [total r1]. cbn [fst].
  generalize (V2.scaleFactorOf table total) as sf. intros sf.
  assert (H : forall tbl r',
    Forall2 (fun slot n =>
               described (Some date) slot n /\
               Forall (fun p => Process.connections p = [])
                      (Node.processes n))
      (slotsOf (fun c => V2.scaledCountOf c sf) tbl)
      (List.concat (fst (mapM (V2.generateGroup host dimensions date sf)
                              tbl r')))).
  { induction tbl as [|[tag config] tbl IH]; intros r'; cbn [mapM].
    - constructor.
    - unfold bind, ret.
      assert (He : Forall2 (fun slot n =>
               described (Some date) slot n /\
               Forall (fun p => Process.connections p = [])
                      (Node.processes n))
          (slotsOf (fun c => V2.scaledCountOf c sf) [(tag, config)])
          (fst (V2.generateGroup host dimensions date sf (tag, config) r'))).
      { unfold V2.generateGroup, bind, slotsOf. cbn [flat_map fst snd].
        rewrite app_nil_r.
        destruct (makeSubclusters dimensions
          (ceilF (fdiv (ofZ (V2.scaledCountOf config sf)) (ofZ 15))) r')
          as [subclusters r2].
        apply Forall2_mapped. apply mapM_Forall2. intros i r3 _.
        apply V2_makeAsset_described. }
      destruct (V2.generateGroup host dimensions date sf (tag, config) r')
        as [ns r2].
      specialize (IH r2).
      destruct (mapM (V2.generateGroup host dimensions date sf) tbl r2)
        as [nss r3].
      cbn [fst List.concat] in *. rewrite slotsOf_cons.
      apply Forall2_app; assumption. }
  specialize (H table r1).
  destruct (mapM (V2.generateGroup host dimensions date sf) table r1)
    as [nss r2].
  exact H.
Qed.


Lemma slotsOf_ext_in (f g : GroupConfig -> Z)
    (table : list (string * GroupConfig)) :
  (forall e, In e table -> f (snd e) = g (snd e)) ->
  slotsOf f table = slotsOf g table.
Proof.
  intros H. unfold slotsOf. apply flat_map_ext_in.
  intros e He. now rewrite (H e He).
Qed.

Lemma V2_generateDate_describedDay (host : Host) (dimensions : Dimensions)
    (date : string) (r : Rng) :
  describedDay date (fst (V2.generateDate groups host dimensions date r)).
Proof.
  exists (fst (V2.drawTotalNodesForDate r)).
  pose proof (drawTotalNodesForDate_range r) as Ht.
  split; [exact Ht|].
  rewrite <- (slotsOf_ext_in
    (fun c => V2.scaledCountOf c
                (V2.scaleFactorOf groups (fst (V2.drawTotalNodesForDate r))))).
  - eapply Forall2_weaken; [|apply V2_generateDate_described].
    now intros slot n [H _].
  - intros e He. now apply scaledCountOf_exact.
Qed.

(** The second revision's collection is the nodes of its dates, one date
    after the other. *)
Lemma V2_generateNodes_by_date (P : string -> list Node.t -> Prop)
    (host : Host) (dimensions : Dimensions) (dates : list string) (r : Rng) :
  (forall date r', P date (fst (V2.generateDate groups host dimensions
                                                date r'))) ->
  exists perDate,
    fst (V2.generateNodes host dimensions dates r) = List.concat perDate /\
    Forall2 P dates perDate.
Proof.
  intros HP. unfold V2.generateNodes, V2.generateNodesFrom, bind, ret.
  pose proof (mapM_Forall2 P (V2.generateDate groups host dimensions) dates
                (fun date r' _ => HP date r') r) as H.
  destruct (mapM (V2.generateDate groups host dimensions) dates r)
    as [perDate r1].
  exists perDate. split; [reflexivity|exact H].
Qed.

(** X1.  Every asset of either collection is the record that the loop
    body wrote for its slot, the slots running through the groups in the
    order of the table: the asset and its processes carry the ids and
    names of their indices, radius 5, a listed type and group, a weight
    from 1 to 3, and the status ['Warning'] exactly on an anomalous asset.
    The update loop and the second pass of the first revision change none
    of this. *)
Theorem X1_assets_are_the_records_of_their_slots :
  forall (host : Host) (dimensions : Dimensions) (dates : list string)
         (r : Rng),
    Forall2 (described None) (slotsOf count groups)
            (fst (V1.generateNodes host dimensions r)) /\
    exists perDate,
      fst (V2.generateNodes host dimensions dates r) = List.concat perDate /\
      Forall2 describedDay dates perDate.
Proof.
  intros host dimensions dates r. split.
  - apply V1_generateNodes_described.
  - apply V2_generateNodes_by_date. intros date r'.
    apply V2_generateDate_describedDay.
Qed.

End Records.

(** * Asset identifiers *)
Section AssetIds.

Lemma append_same_length (a b x y : string) :
  String.length a = String.length b -> a ++ x = b ++ y -> a = b /\ x = y.
Proof.
  revert b. induction a as [|c a IH]; intros [|c' b] Hl E; cbn in *;
    try discriminate.
  - now split.
  - injection E as -> E. injection Hl as Hl.
    destruct (IH b Hl E) as [-> ->]. now split.
Qed.

Lemma assetId_inj (date date' : option string) (tag tag' : string)
    (i i' : nat) :
  dashFree tag = true -> dashFree tag' = true ->
  option_map String.length date = option_map String.length date' ->
  assetId date tag i = assetId date' tag' i' ->
  tag = tag' /\ date = date' /\ i = i'.
Proof.
  intros Ht Ht' Hl E. unfold assetId in E.
  destruct date as [d|], date' as [d'|]; cbn in Hl; try discriminate.
  - apply dashFree_split in E; try assumption. destruct E as [-> E].
    injection Hl as Hl.
    apply append_same_length in E; [|assumption]. destruct E as [-> E].
    injection E as E. apply decimal_inj in E. now subst.
  - apply dashFree_split in E; try assumption. destruct E as [-> E].
    apply decimal_inj in E. now subst.
Qed.

Lemma described_ids (date : option string) (slots : list (string * nat))
    (ns : list Node.t) :
  Forall2 (described date) slots ns ->
  map Node.id ns = map (fun s => assetId date (fst s) (snd s)) slots.
Proof.
  induction 1 as [|slot n slots ns Hn _ IH]; cbn; [reflexivity|].
  destruct Hn as [Hid _]. now rewrite Hid, IH.
Qed.

Lemma slot_ids_NoDup (date : option string) (slots : list (string * nat)) :
  NoDup slots ->
  Forall (fun slot => dashFree (fst slot) = true) slots ->
  NoDup (map (fun s => assetId date (fst s) (snd s)) slots).
Proof.
  intros Hnd Hdash. apply NoDup_map_NoDup_ForallPairs; [|assumption].
  intros [tag i] [tag' i'] Hs Hs' E. rewrite Forall_forall in Hdash.
  destruct (assetId_inj date date tag tag' i i'
              (Hdash _ Hs) (Hdash _ Hs') eq_refl E) as [-> [_ ->]].
  reflexivity.
Qed.

Lemma describedDay_ids (date : string) (pass : list Node.t) :
  describedDay date pass ->
  NoDup (map Node.id pass) /\
  Forall (fun s => exists tag i, dashFree tag = true /\
                                 s = assetId (Some date) tag i)
         (map Node.id pass).
Proof.
  intros [total [_ H]]. rewrite (described_ids _ _ _ H).
  destruct groups_tags as [Hnd Hdash]. split.
  - apply slot_ids_NoDup; [now apply slotsOf_NoDup|apply Hdash].
  - apply Forall_forall. intros s Hs. apply in_map_iff in Hs.
    destruct Hs as [[tag i] [<- Hin]]. exists tag, i. split; [|reflexivity].
    specialize (Hdash (fun c => exactScaled 1422 total (count c))).
    rewrite Forall_forall in Hdash. exact (Hdash _ Hin).
Qed.

Lemma dated_ids_NoDup (dates : list string) (perDate : list (list Node.t)) :
  Forall2 describedDay dates perDate ->
  NoDup dates ->
  Forall (fun d => String.length d = 10%nat) dates ->
  NoDup (map Node.id (List.concat perDate)) /\
  Forall (fun s => exists date tag i,
            In date dates /\ dashFree tag = true /\
            s = assetId (Some date) tag i)
         (map Node.id (List.concat perDate)).
Proof.
  induction 1 as [|date pass dates perDate Hp _ IH]; cbn; intros Hnd Hlen.
  - split; constructor.
  - inversion Hnd as [|? ? Hnotin Hnd']; subst.
    inversion Hlen as [|? ? Hd Hlen']; subst.
    destruct (IH Hnd' Hlen') as [IHn IHf].
    destruct (describedDay_ids _ _ Hp) as [Hpn Hpf].
    rewrite map_app. split.
    + apply NoDup_app; try assumption.
      intros s Hs Hs'. rewrite Forall_forall in Hpf, IHf.
      destruct (Hpf s Hs) as [tag [i [Ht ->]]].
      destruct (IHf _ Hs') as [date' [tag' [i' [Hin [Ht' E]]]]].
      rewrite Forall_forall in Hlen'.
      destruct (assetId_inj (Some date) (Some date') tag tag' i i' Ht Ht')
        as [_ [Ed _]]; [|assumption|].
      * cbn. now rewrite Hd, (Hlen' _ Hin).
      * injection Ed as ->. now apply Hnotin.
    + apply Forall_app. split.
      * eapply Forall_impl; [|exact Hpf].
        intros s [tag [i [Ht E]]]. exists date, tag, i.
        split; [now left|now split].
      * eapply Forall_impl; [|exact IHf].
        intros s [d [tag [i [Hin HE]]]]. exists d, tag, i.
        split; [now right|exact HE].
Qed.

(** X2.  No two assets of a collection share an id: in the first
    revision whatever is drawn, in the second when the dates differ from
    one another and have the ten characters of an ISO date. *)
Theorem X2_asset_ids_are_unique :
  forall (host : Host) (dimensions : Dimensions) (dates : list string)
         (r : Rng),
    NoDup dates ->
    Forall (fun d => String.length d = 10%nat) dates ->
    NoDup (map Node.id (fst (V1.generateNodes host dimensions r))) /\
    NoDup (map Node.id (fst (V2.generateNodes host dimensions dates r))).
Proof.
  intros host dimensions dates r Hnd Hlen. split.
  - unfold V1.generateNodes.
    rewrite (described_ids _ _ _
               (V1_generateNodes_described groups host dimensions r)).
    destruct groups_tags as [Hg Hdash].
    apply slot_ids_NoDup; [now apply slotsOf_NoDup|apply Hdash].
  - destruct (V2_generateNodes_by_date describedDay host dimensions dates r
                (V2_generateDate_describedDay host dimensions))
      as [perDate [E H]].
    rewrite E. exact (proj1 (dated_ids_NoDup dates perDate H Hnd Hlen)).
Qed.

Lemma X2_asset_ids_are_unique_on_two_dates :
  NoDup twoDates /\
  Forall (fun d => String.length d = 10%nat) twoDates /\
  NoDup (map Node.id
           (fst (V1.generateNodes stillHost narrow zeroRng))) /\
  NoDup (map Node.id
           (fst (V2.generateNodes stillHost narrow twoDates zeroRng))).
Proof.
  assert (Hnd : NoDup twoDates)
    by (repeat constructor; cbn; intuition discriminate).
  assert (Hlen : Forall (fun d => String.length d = 10%nat) twoDates)
    by (repeat constructor).
  split; [exact Hnd|]. split; [exact Hlen|].
  exact (X2_asset_ids_are_unique stillHost narrow twoDates zeroRng Hnd Hlen).
Defined.

End AssetIds.

(** * Connections *)
Section Connections.

Lemma mod_shift (a d len : nat) :
  (a < len)%nat -> (d < len)%nat ->
  ((a + d) mod len = a + d /\ a + d < len)%nat \/
  ((a + d) mod len = a + d - len /\ len <= a + d)%nat.
Proof.
  intros Ha Hd. destruct (Nat.lt_ge_cases (a + d) len) as [H|H].
  - left. split; [now apply Nat.mod_small|assumption].
  - right. split; [|assumption].
    replace (a + d)%nat with ((a + d - len) + 1 * len)%nat at 1 by lia.
    rewrite Nat.Div0.mod_add. apply Nat.mod_small. lia.
Qed.

Lemma connectProcess_connectedAt (ids : list string) (ip : nat * Process.t)
    (r : Rng) :
  connectedAt ids ip (fst (V1.connectProcess ids ip r)).
Proof.
  destruct ip as [index p].
  unfold V1.connectProcess, V1.drawConnections, bind, ret.
  pose proof (randomInt_range 3 r ltac:(lia)) as Hk.
  destruct (randomInt 3 r) as [k r1]. cbn [fst snd] in *.
  split; [reflexivity|]. exists (Z.to_nat (k + 2)). split; [lia|].
  reflexivity.
Qed.

Lemma combine_app_seq {A : Type} (l1 l2 : list A) (start : nat) :
  combine (seq start (List.length (l1 ++ l2))) (l1 ++ l2)
  = (combine (seq start (List.length l1)) l1
     ++ combine (seq (start + List.length l1) (List.length l2)) l2)%list.
Proof.
  revert start. induction l1 as [|a l1 IH]; intros start; cbn.
  - now rewrite Nat.add_0_r.
  - rewrite IH. now rewrite Nat.add_succ_r.
Qed.

(** The second pass, seen on [groupProcesses]. *)
Lemma connectNodes_flat (ids : list string) (created : list Node.t) :
  forall start r,
    Forall2 (connectedAt ids)
      (combine (seq start (List.length (allProcesses created)))
               (allProcesses created))
      (allProcesses (fst (V1.connectNodes ids start created r))).
Proof.
  induction created as [|n rest IH]; intros start r; cbn [V1.connectNodes].
  - constructor.
  - unfold bind, ret.
    pose proof (mapM_Forall2 (connectedAt ids) (V1.connectProcess ids)
      (combine (seq start (List.length (Node.processes n)))
               (Node.processes n))
      (fun ip r' _ => connectProcess_connectedAt ids ip r') r) as Hps.
    destruct (mapM (V1.connectProcess ids)
                (combine (seq start (List.length (Node.processes n)))
                         (Node.processes n)) r) as [ps' r1].
    specialize (IH (start + List.length (Node.processes n))%nat r1).
    destruct (V1.connectNodes ids
                (start + List.length (Node.processes n))%nat rest r1)
      as [rest' r2].
    cbn [fst] in *. unfold allProcesses in *. cbn [flat_map].
    rewrite combine_app_seq. apply Forall2_app; assumption.
Qed.

Lemma in_combine_seq {A : Type} (l : list A) (idx : nat) (a : A) :
  In (idx, a) (combine (seq 0 (List.length l)) l) ->
  (idx < List.length l)%nat /\ nth_error l idx = Some a.
Proof.
  assert (H : forall start,
    In (idx, a) (combine (seq start (List.length l)) l) ->
    (start <= idx < start + List.length l)%nat /\
    nth_error l (idx - start) = Some a).
  { induction l as [|b l IH]; intros start; cbn; [tauto|].
    intros [E|Hin].
    - injection E as -> ->. split; [lia|]. now rewrite Nat.sub_diag.
    - destruct (IH (S start) Hin) as [Hr Hn]. split; [lia|].
      replace (idx - start)%nat with (S (idx - S start)) by lia. exact Hn. }
  intros Hin. destruct (H 0%nat Hin) as [Hr Hn].
  rewrite Nat.sub_0_r in Hn. split; [lia|exact Hn].
Qed.

(** From the description of the second pass to good connections: the
    ids of the group differ from one another and there are five or
    more. *)
Lemma connectedAt_good (ids : list string) (tag : string) (idx : nat)
    (p p' : Process.t) :
  NoDup ids -> (5 <= List.length ids)%nat ->
  (forall c, In c ids -> exists i j, c = processId tag i j) ->
  (idx < List.length ids)%nat ->
  Process.id p = nth idx ids "" ->
  Process.connections p = [] ->
  connectedAt ids (idx, p) p' ->
  goodConnections ids tag p'.
Proof.
  intros Hnd Hlen Hform Hidx Hid Hnil [Hid' [k [Hk Hc]]].
  cbn [fst snd] in *. rewrite Hnil, app_nil_l in Hc.
  set (len := List.length ids) in *.
  assert (Hlt : forall c, (c < k)%nat -> ((idx + c + 1) mod len < len)%nat).
  { intros c _. apply Nat.mod_upper_bound. lia. }
  assert (Hne : forall c, (c < k)%nat -> ((idx + c + 1) mod len <> idx)%nat).
  { intros c Hck.
    destruct (mod_shift idx (c + 1) len Hidx ltac:(lia)) as [[E _]|[E H]];
      rewrite <- Nat.add_assoc, E; lia. }
  assert (Hinj : forall c c', (c < k)%nat -> (c' < k)%nat ->
            ((idx + c + 1) mod len = (idx + c' + 1) mod len)%nat -> c = c').
  { intros c c' Hc1 Hc2.
    destruct (mod_shift idx (c + 1) len Hidx ltac:(lia)) as [[E _]|[E H]];
    destruct (mod_shift idx (c' + 1) len Hidx ltac:(lia)) as [[E' _]|[E' H']];
      rewrite <- !Nat.add_assoc, E, E'; lia. }
  unfold goodConnections. rewrite Hc, length_map, length_seq.
  split; [lia|]. split; [|split].
  - apply NoDup_map_NoDup_ForallPairs; [|apply seq_NoDup].
    intros c c' Hc1 Hc2 E. apply in_seq in Hc1, Hc2.
    apply Hinj; try lia.
    apply (proj1 (NoDup_nth ids "") Hnd); try (apply Hlt; lia). exact E.
  - rewrite Hid', Hid. intros Hin. apply in_map_iff in Hin.
    destruct Hin as [c [E Hc1]]. apply in_seq in Hc1.
    apply (Hne c ltac:(lia)).
    apply (proj1 (NoDup_nth ids "") Hnd); try assumption.
    apply Hlt. lia.
  - apply Forall_forall. intros s Hs. apply in_map_iff in Hs.
    destruct Hs as [c [<- Hc1]]. apply in_seq in Hc1.
    assert (Hin : In (nth ((idx + c + 1) mod len) ids "") ids)
      by (apply nth_In, Hlt; lia).
    split; [exact Hin|now apply Hform].
Qed.


Lemma processIds_allProcesses (ns : list Node.t) :
  processIds ns = map Process.id (allProcesses ns).
Proof.
  unfold processIds, allProcesses.
  induction ns as [|n ns IH]; cbn; [reflexivity|].
  now rewrite map_app, IH.
Qed.

Lemma tagged_ids (ns : list Node.t) :
  flat_map (fun rc => map Process.id (snd rc)) (map tagged ns)
  = processIds ns.
Proof.
  unfold processIds. induction ns as [|n ns IH]; cbn; [reflexivity|].
  now rewrite IH.
Qed.

Lemma goodConnections_incl (ids ids' : list string) (tag : string)
    (p : Process.t) :
  incl ids ids' -> goodConnections ids tag p -> goodConnections ids' tag p.
Proof.
  intros Hi [H1 [H2 [H3 H4]]]. repeat split; try assumption; try apply H1.
  eapply Forall_impl; [|exact H4]. intros c [Hin Hf]. split; auto.
Qed.

Lemma wiredRecords_app (A B : list (string * list Process.t)) :
  wiredRecords A -> wiredRecords B -> wiredRecords (A ++ B).
Proof.
  unfold wiredRecords. cbv zeta. intros HA HB.
  rewrite flat_map_app. apply Forall_app. split.
  - eapply Forall_impl; [|exact HA]. intros rc Hrc.
    eapply Forall_impl; [|exact Hrc]. intros p.
    apply goodConnections_incl. apply incl_appl, incl_refl.
  - eapply Forall_impl; [|exact HB]. intros rc Hrc.
    eapply Forall_impl; [|exact Hrc]. intros p.
    apply goodConnections_incl. apply incl_appr, incl_refl.
Qed.

Lemma detail_processIds (l l' : list Node.t) :
  Forall2 (fun n m => detail n = detail m) l l' ->
  processIds l = processIds l' /\ map Node.tag l = map Node.tag l'.
Proof.
  unfold processIds.
  induction 1 as [|n m l l' E _ [IH1 IH2]]; cbn; [now split|].
  unfold detail in E. injection E as _ _ _ Et _ _ _ _ Ep.
  rewrite IH1, IH2, Et. split; [|reflexivity]. f_equal.
  assert (Hid : forall ps, map Process.id ps
                = map (fun t => fst (fst (fst (fst t))))
                      (map processFields ps))
    by (intros ps; now rewrite map_map).
  now rewrite !Hid, Ep.
Qed.

Lemma slotShaped_has_process (slot : string * nat) (n : Node.t) :
  slotShaped slot n -> (1 <= List.length (Node.processes n))%nat.
Proof.
  intros [d [[Hc _] Hs]]. rewrite (shaped_length _ _ _ _ Hs). lia.
Qed.

Lemma allProcesses_length (slots : list (string * nat)) (ns : list Node.t) :
  Forall2 slotShaped slots ns ->
  (List.length ns <= List.length (allProcesses ns))%nat.
Proof.
  unfold allProcesses.
  induction 1 as [|slot n slots ns Hn _ IH]; cbn; [lia|].
  rewrite length_app. apply slotShaped_has_process in Hn. lia.
Qed.

(** The nodes of one group after the second pass. *)
Lemma V1_group_wired (tag : string) (cnt : nat) (created : list Node.t)
    (r : Rng) :
  dashFree tag = true -> (5 <= cnt)%nat ->
  Forall2 slotShaped (map (pair tag) (seq 0 cnt)) created ->
  Forall (fun n => Forall (fun p => Process.connections p = [])
                          (Node.processes n)) created ->
  wired (fst (V1.connectNodes (V1.groupProcessIds created) 0 created r)).
Proof.
  intros Hdash Hcnt Hshape Hnil.
  change (V1.groupProcessIds created) with (processIds created).
  set (ids := processIds created).
  pose proof (connectNodes_flat ids created 0%nat r) as Hflat.
  pose proof (connectNodes_detail ids created 0%nat r) as Hdet.
  set (connected := fst (V1.connectNodes ids 0 created r)) in *.
  destruct (detail_processIds _ _ Hdet) as [Hids Htags].
  assert (Hnd : NoDup ids).
  { eapply processIds_NoDup; [exact Hshape| |].
    - apply NoDup_map_NoDup_ForallPairs; [|apply seq_NoDup].
      intros a b _ _ E. now injection E.
    - apply Forall_forall. intros slot Hs. apply in_map_iff in Hs.
      destruct Hs as [i [<- _]]. exact Hdash. }
  assert (Hform : forall c, In c ids -> exists i j, c = processId tag i j).
  { intros c Hc. destruct (processIds_in _ _ _ Hshape Hc)
      as [slot [j [Hs E]]].
    apply in_map_iff in Hs. destruct Hs as [i [<- _]]. now exists i, j. }
  assert (Hlen : (5 <= List.length ids)%nat).
  { pose proof (allProcesses_length _ _ Hshape) as Hl.
    pose proof (Forall2_length Hshape) as Hc.
    rewrite length_map, length_seq in Hc.
    unfold ids. rewrite processIds_allProcesses, length_map. lia. }
  assert (Hgood : Forall (goodConnections ids tag) (allProcesses connected)).
  { eapply Forall2_right_in; [|exact Hflat].
    intros [idx p] p' Hin Hat. apply in_combine_seq in Hin.
    destruct Hin as [Hidx Hnth].
    assert (Hl : List.length ids = List.length (allProcesses created))
      by (unfold ids; now rewrite processIds_allProcesses, length_map).
    apply (connectedAt_good ids tag idx p p' Hnd Hlen Hform);
      [lia| | |exact Hat].
    - unfold ids. rewrite processIds_allProcesses.
      rewrite nth_indep with (d' := Process.id p)
        by (rewrite length_map; lia).
      rewrite map_nth. f_equal. symmetry. now apply nth_error_nth.
    - apply nth_error_In in Hnth. unfold allProcesses in Hnth.
      apply in_flat_map in Hnth. destruct Hnth as [n [Hn Hp]].
      rewrite Forall_forall in Hnil. specialize (Hnil n Hn).
      rewrite Forall_forall in Hnil. now apply Hnil. }
  unfold wired, wiredRecords. cbv zeta. rewrite tagged_ids, <- Hids.
  fold ids. apply Forall_map. unfold allProcesses in Hgood.
  apply Forall_flat_map in Hgood.
  assert (HT : Forall (fun m => Node.tag m = tag) created).
  { apply (Forall2_right_in slotShaped (fun m => Node.tag m = tag)
             (map (pair tag) (seq 0 cnt)) created); [|exact Hshape].
    intros slot b Hs [d [_ [Hb _]]]. apply in_map_iff in Hs.
    destruct Hs as [i [<- _]]. exact Hb. }
  assert (Ht : Forall (fun n => Node.tag n = tag) connected).
  { apply Forall_forall. intros n Hn.
    apply (in_map Node.tag) in Hn. rewrite <- Htags in Hn.
    apply in_map_iff in Hn. destruct Hn as [m [<- Hm]].
    rewrite Forall_forall in HT. now apply HT. }
  apply Forall_forall. intros n Hn.
  rewrite Forall_forall in Hgood, Ht. cbn [tagged fst snd].
  rewrite (Ht n Hn). now apply Hgood.
Qed.


Lemma V1_generateGroup_wired (host : Host) (dimensions : Dimensions)
    (nodes : list Node.t) (entry : string * GroupConfig) (r : Rng) :
  dashFree (fst entry) = true -> (5 <= count (snd entry))%Z ->
  wired nodes ->
  wired (fst (V1.generateGroup host dimensions nodes entry r)).
Proof.
  intros Hdash Hcnt Hw. destruct entry as [tag config]. cbn [fst snd] in *.
  unfold V1.generateGroup, bind, ret.
  destruct (makeSubclusters dimensions
              (ceilF (fdiv (ofZ (count config)) (ofZ 15))) r)
    as [subclusters r1].
  pose proof (V1_created_shaped host tag config subclusters
                (ceilF (fdiv (ofZ (count config)) (ofZ 15)))
                (seq 0 (Z.to_nat (count config))) r1) as Hc.
  pose proof (mapM_Forall
    (fun n => Forall (fun p => Process.connections p = []) (Node.processes n))
    (V1.makeAsset host tag config subclusters
       (ceilF (fdiv (ofZ (count config)) (ofZ 15))))
    (seq 0 (Z.to_nat (count config)))
    (fun i r' _ => proj2 (V1_makeAsset_described host tag config subclusters
                            _ i r')) r1) as Hnil.
  destruct (mapM (V1.makeAsset host tag config subclusters
                    (ceilF (fdiv (ofZ (count config)) (ofZ 15))))
                 (seq 0 (Z.to_nat (count config))) r1) as [created r2].
  cbn [fst] in *.
  pose proof (V1_group_wired tag (Z.to_nat (count config)) created r2
                Hdash ltac:(lia) Hc Hnil) as Hg.
  destruct (V1.connectNodes (V1.groupProcessIds created) 0 created r2)
    as [connected r3].
  cbn [fst] in *.
  assert (Hall : wired (nodes ++ connected)).
  { unfold wired in *. rewrite map_app. now apply wiredRecords_app. }
  destruct (map V1.simNodeOf created) as [|s0 sims]; [exact Hall|].
  unfold wired in *.
  rewrite <- (Forall2_same_map tagged _ _
                (updateNodePositions_same tagged dimensions _
                   (fun n x y => eq_refl) (nodes ++ connected))).
  exact Hall.
Qed.

Lemma V1_generateNodes_wired (table : list (string * GroupConfig))
    (host : Host) (dimensions : Dimensions) (r : Rng) :
  Forall (fun e => dashFree (fst e) = true /\ (5 <= count (snd e))%Z) table ->
  wired (fst (V1.generateNodesFrom table host dimensions r)).
Proof.
  unfold V1.generateNodesFrom. intros Ht.
  assert (H0 : wired []) by constructor.
  revert H0. generalize (@nil Node.t) as nodes. revert r.
  induction Ht as [|e table [Hd Hc] _ IH]; intros r nodes H0; cbn [foldM].
  - exact H0.
  - unfold bind.
    pose proof (V1_generateGroup_wired host dimensions nodes e r Hd Hc H0)
      as He.
    destruct (V1.generateGroup host dimensions nodes e r) as [nodes' r1].
    apply IH. exact He.
Qed.

Lemma V2_generateNodes_unconnected (host : Host) (dimensions : Dimensions)
    (dates : list string) (r : Rng) :
  unconnected (fst (V2.generateNodes host dimensions dates r)).
Proof.
  destruct (V2_generateNodes_by_date
              (fun _ pass => unconnected pass) host dimensions dates r)
    as [perDate [E H]].
  - intros date r'. eapply Forall2_right;
      [|apply (V2_generateDate_described groups host dimensions date r')].
    now intros slot n [_ Hn].
  - rewrite E. unfold unconnected. apply Forall_concat.
    eapply Forall2_right; [|exact H]. now intros d pass Hp.
Qed.

(** X3.  After the second pass of the first revision every process of
    the collection has two to four connections, all different, none its
    own id, each the id of a process of its own group in the collection.
    The second revision has no such pass, and no process of its
    collection has a connection. *)
Theorem X3_connections_stay_within_the_group :
  forall (host : Host) (dimensions : Dimensions) (dates : list string)
         (r : Rng),
    wired (fst (V1.generateNodes host dimensions r)) /\
    unconnected (fst (V2.generateNodes host dimensions dates r)).
Proof.
  intros host dimensions dates r. split.
  - apply V1_generateNodes_wired.
    repeat constructor; cbn; lia.
  - apply V2_generateNodes_unconnected.
Qed.

End Connections.

(** * The timeline *)
Section TimelineFacts.

Import Timeline.

Lemma indexOf_range (x : string) (l : list string) :
  (-1 <= indexOf x l < Z.of_nat (List.length l))%Z.
Proof.
  induction l as [|d l IH]; cbn [indexOf List.length]; [lia|].
  destruct (String.eqb d x); [lia|].
  destruct (indexOf x l <? 0)%Z eqn:E; [lia|]. apply Z.ltb_ge in E. lia.
Qed.

Lemma indexOf_absent (x : string) (l : list string) :
  indexOf x l = (-1)%Z <-> ~ In x l.
Proof.
  induction l as [|d l IH]; cbn [indexOf In]; [tauto|].
  pose proof (indexOf_range x l) as Hr.
  destruct (String.eqb_spec d x) as [->|Hne].
  - split; [lia|tauto].
  - destruct (indexOf x l <? 0)%Z eqn:E.
    + apply Z.ltb_lt in E. split; [|reflexivity].
      intros _ [H|H]; [contradiction|]. apply IH; [lia|exact H].
    + apply Z.ltb_ge in E. split; [lia|].
      intros H. exfalso. apply H. right.
      destruct (in_dec string_dec x l) as [Hin|Hnin]; [exact Hin|].
      apply IH in Hnin. lia.
Qed.

Lemma dateAt_indexOf (x : string) (l : list string) :
  In x l -> dateAt l (indexOf x l) = x.
Proof.
  unfold dateAt. induction l as [|d l IH]; cbn [indexOf In]; [tauto|].
  intros Hin. destruct (String.eqb_spec d x) as [->|Hne]; [reflexivity|].
  destruct Hin as [H|Hin]; [contradiction|].
  pose proof (indexOf_range x l) as Hr.
  pose proof (proj1 (indexOf_absent x l)) as Ha.
  destruct (indexOf x l <? 0)%Z eqn:E.
  - apply Z.ltb_lt in E. exfalso. apply Ha; [lia|exact Hin].
  - specialize (IH Hin). apply Z.ltb_ge in E.
    replace (indexOf x l + 1 <? 0)%Z with false by (symmetry; apply Z.ltb_ge; lia).
    replace (Z.to_nat (indexOf x l + 1)) with (S (Z.to_nat (indexOf x l)))
      by lia.
    exact IH.
Qed.

Lemma indexOf_dateAt (l : list string) (k : Z) :
  NoDup l -> (0 <= k < Z.of_nat (List.length l))%Z ->
  indexOf (dateAt l k) l = k.
Proof.
  unfold dateAt. intros Hnd. revert k.
  induction Hnd as [|d l Hnotin _ IH]; intros k Hk;
    cbn [List.length] in Hk; [lia|].
  replace (k <? 0)%Z with false by (symmetry; apply Z.ltb_ge; lia).
  destruct (Z.eq_dec k 0) as [->|Hk0].
  - cbn. now rewrite String.eqb_refl.
  - replace (Z.to_nat k) with (S (Z.to_nat (k - 1))) by lia.
    cbn [nth indexOf].
    specialize (IH (k - 1)%Z ltac:(lia)).
    replace (k - 1 <? 0)%Z with false in IH
      by (symmetry; apply Z.ltb_ge; lia).
    assert (Hin : In (nth (Z.to_nat (k - 1)) l "") l) by (apply nth_In; lia).
    destruct (String.eqb_spec d (nth (Z.to_nat (k - 1)) l "")) as [E|_].
    + exfalso. apply Hnotin. now rewrite E.
    + rewrite IH.
      replace (k - 1 <? 0)%Z with false by (symmetry; apply Z.ltb_ge; lia).
      lia.
Qed.

(** X5.  The slider and the current date determine each other.  Moving
    the slider to a position [k] of its range makes [dates[k]] the current
    date, and when the dates differ from one another the slider then
    stands at [k]; the move changes neither the selection nor the
    collection.  Whatever the dates, the slider stands at [-1] exactly
    when the current date is not one of them, and otherwise at a position
    of the range that holds the current date. *)
Theorem X5_slider_and_current_date_round_trip :
  forall (dates : list string) (st : App.State) (k : Z) (d : string),
    NoDup dates ->
    (0 <= k <= Timeline.max dates)%Z ->
    let st' := Timeline.onChange dates k st in
    App.currentDate st' = Timeline.dateAt dates k /\
    In (App.currentDate st') dates /\
    Timeline.value dates (App.currentDate st') = k /\
    App.selectedNode st' = App.selectedNode st /\
    App.expandedProcess st' = App.expandedProcess st /\
    App.nodes st' = App.nodes st /\
    (Timeline.value dates d = (-1)%Z <-> ~ In d dates) /\
    (In d dates ->
     (0 <= Timeline.value dates d <= Timeline.max dates)%Z /\
     Timeline.dateAt dates (Timeline.value dates d) = d).
Proof.
  intros dates st k d Hnd Hk st'. unfold Timeline.max in *.
  assert (Hcur : App.currentDate st' = dateAt dates k) by reflexivity.
  rewrite Hcur. split; [reflexivity|]. split.
  { unfold dateAt.
    replace (k <? 0)%Z with false by (symmetry; apply Z.ltb_ge; lia).
    apply nth_In. lia. }
  split; [apply indexOf_dateAt; [exact Hnd|lia]|].
  split; [reflexivity|]. split; [reflexivity|]. split; [reflexivity|].
  split; [apply indexOf_absent|].
  intros Hin. split; [|now apply dateAt_indexOf].
  pose proof (indexOf_range d dates) as Hr.
  pose proof (proj1 (indexOf_absent d dates)) as Ha.
  unfold value. destruct (Z.eq_dec (indexOf d dates) (-1)) as [E|E].
  - exfalso. now apply Ha.
  - lia.
Qed.

Lemma X5_slider_round_trip_on_two_dates :
  NoDup twoDates /\ (0 <= 1 <= Timeline.max twoDates)%Z /\
  let st' := Timeline.onChange twoDates 1 loadedState in
  App.currentDate st' = Timeline.dateAt twoDates 1 /\
  In (App.currentDate st') twoDates /\
  Timeline.value twoDates (App.currentDate st') = 1%Z /\
  App.selectedNode st' = App.selectedNode loadedState /\
  App.expandedProcess st' = App.expandedProcess loadedState /\
  App.nodes st' = App.nodes loadedState /\
  (Timeline.value twoDates "2024-05-03" = (-1)%Z
   <-> ~ In "2024-05-03" twoDates) /\
  (In "2024-05-03" twoDates ->
   (0 <= Timeline.value twoDates "2024-05-03" <= Timeline.max twoDates)%Z /\
   Timeline.dateAt twoDates (Timeline.value twoDates "2024-05-03")
   = "2024-05-03").
Proof.
  assert (Hnd : NoDup twoDates)
    by (repeat constructor; cbn; intuition discriminate).
  assert (Hk : (0 <= 1 <= Timeline.max twoDates)%Z) by (cbn; lia).
  split; [exact Hnd|]. split; [exact Hk|].
  exact (X5_slider_and_current_date_round_trip twoDates loadedState 1
           "2024-05-03" Hnd Hk).
Defined.

End TimelineFacts.

(** * The date filter and the timeline *)
Section DateFilter.

Lemma filter_dated (d : string) (pass : list Node.t) :
  Forall (fun n => Node.date n = Some d) pass -> filter (onDate d) pass = pass.
Proof.
  induction 1 as [|n pass Hn _ IH]; cbn; [reflexivity|].
  unfold onDate at 1. now rewrite Hn, String.eqb_refl, IH.
Qed.

Lemma filter_other_dates (d : string) (ns : list Node.t) :
  Forall (fun n => Node.date n <> Some d) ns -> filter (onDate d) ns = [].
Proof.
  induction 1 as [|n ns Hn _ IH]; cbn; [reflexivity|].
  unfold onDate at 1. destruct (Node.date n) as [dt|]; [|exact IH].
  destruct (String.eqb_spec dt d) as [->|_]; [congruence|exact IH].
Qed.

Lemma concat_dated (dates : list string) (perDate : list (list Node.t)) :
  Forall2 (fun d pass => Forall (fun n => Node.date n = Some d) pass)
          dates perDate ->
  Forall (datedAmong dates) (List.concat perDate).
Proof.
  induction 1 as [|d pass dates perDate Hp _ IH]; cbn; [constructor|].
  apply Forall_app. split.
  - eapply Forall_impl; [|exact Hp]. intros n Hn. exists d. split;
      [now left|exact Hn].
  - eapply Forall_impl; [|exact IH]. intros n [d' [Hin Hn]].
    exists d'. split; [now right|exact Hn].
Qed.

(** Filtering the collection by one of its dates gives back what was
    generated for that date. *)
Lemma filter_by_date (dates : list string) (perDate : list (list Node.t)) :
  Forall2 (fun d pass => Forall (fun n => Node.date n = Some d) pass)
          dates perDate ->
  NoDup dates ->
  forall before,
    Forall (fun n => forall d, In d dates -> Node.date n <> Some d) before ->
    Forall2 (fun d pass =>
               filter (onDate d) (before ++ List.concat perDate) = pass)
            dates perDate.
Proof.
  induction 1 as [|d pass dates perDate Hp Hrest IH]; intros Hnd before Hb;
    [constructor|].
  inversion Hnd as [|? ? Hnotin Hnd']; subst. constructor.
  - cbn [List.concat]. rewrite !filter_app.
    rewrite (filter_dated d pass Hp).
    rewrite (filter_other_dates d before).
    + rewrite (filter_other_dates d (List.concat perDate));
        [now rewrite app_nil_r|].
      eapply Forall_impl; [|apply (concat_dated _ _ Hrest)].
      intros n [d' [Hin Hn]] E. rewrite Hn in E. injection E as ->.
      now apply Hnotin.
    + eapply Forall_impl; [|exact Hb]. intros n Hn. apply Hn. now left.
  - cbn [List.concat]. rewrite app_assoc. apply IH; [assumption|].
    apply Forall_app. split.
    + eapply Forall_impl; [|exact Hb]. intros n Hn d' Hd'. apply Hn.
      now right.
    + eapply Forall_impl; [|exact Hp]. intros n Hn d' Hd' E.
      rewrite Hn in E. injection E as ->. now apply Hnotin.
Qed.

Lemma Forall2_and {A B : Type} (R R' : A -> B -> Prop) (l : list A)
    (l' : list B) :
  Forall2 R l l' -> Forall2 R' l l' -> Forall2 (fun a b => R a b /\ R' a b) l l'.
Proof.
  induction 1; intros H'; inversion H'; subst; constructor; auto.
Qed.

(** The number of assets of a date. *)
Lemma describedDay_size (date : string) (pass : list Node.t) :
  describedDay date pass -> (1411 <= List.length pass <= 1455)%nat.
Proof.
  intros [total [Ht H]]. apply Forall2_length in H. rewrite <- H.
  assert (Hall : forallb (fun t =>
    let n := Z.of_nat (List.length
               (slotsOf (fun c => exactScaled 1422 t (count c)) groups)) in
    (1411 <=? n)%Z && (n <=? 1455)%Z) totals = true)
    by (vm_compute; reflexivity).
  rewrite forallb_forall in Hall. specialize (Hall total (totals_spec _ Ht)).
  cbv zeta in Hall. rewrite !andb_true_iff, !Z.leb_le in Hall. lia.
Qed.

Lemma displayed_of_described (dates : list string)
    (perDate : list (list Node.t)) :
  Forall2 (fun d pass => describedDay d pass /\
                         Forall (fun n => Node.date n = Some d) pass)
          dates perDate ->
  NoDup dates ->
  Forall (fun d => d <> "") dates ->
  Forall2 (displayedDay (List.concat perDate)) dates perDate.
Proof.
  intros H Hnd Hin.
  assert (Hd : Forall2 (fun d pass =>
                          Forall (fun n => Node.date n = Some d) pass)
                       dates perDate)
    by (eapply Forall2_weaken; [|exact H]; now intros d p [_ Hp]).
  pose proof (filter_by_date dates perDate Hd Hnd [] (Forall_nil _)) as Hf.
  cbn [app] in Hf.
  pose proof (Forall2_and _ _ _ _ H Hf) as Hboth.
  set (all := List.concat perDate) in *. clearbody all.
  clear - Hboth Hin. revert Hin.
  induction Hboth as [|d pass ds ps [[Hday _] Hfil] _ IH];
    intros Hin; constructor.
  - pose proof (Forall_inv Hin) as Hd0. unfold displayedDay. split.
    + unfold V2.filteredData.
      destruct (String.eqb_spec d "") as [E|_]; [congruence|exact Hfil].
    + apply (describedDay_size d pass Hday).
  - apply IH. exact (Forall_inv_tail Hin).
Qed.

Lemma V2_generateDate_day (host : Host) (dimensions : Dimensions)
    (date : string) (r : Rng) :
  let pass := fst (V2.generateDate groups host dimensions date r) in
  describedDay date pass /\ Forall (fun n => Node.date n = Some date) pass.
Proof.
  split; [apply V2_generateDate_describedDay|apply V2_generateDate_dated].
Qed.

(** The number of assets of a date, from the total drawn for it. *)
Lemma V2_generateDate_size (host : Host) (dimensions : Dimensions)
    (date : string) (r : Rng) :
  let total := fst (V2.drawTotalNodesForDate r) in
  let size := List.length (fst (V2.generateDate groups host dimensions
                                                date r)) in
  (1411 <= size <= 1455)%nat /\
  (total - 1 <= Z.of_nat size <= total + 1)%Z.
Proof.
  cbv zeta.
  pose proof (drawTotalNodesForDate_range r) as Ht.
  pose proof (V2_generateDate_described groups host dimensions date r) as H.
  apply Forall2_length in H. rewrite <- H.
  rewrite (slotsOf_ext_in _
             (fun c => exactScaled 1422 (fst (V2.drawTotalNodesForDate r))
                                   (count c)))
    by (intros e He; now apply scaledCountOf_exact).
  assert (Hall : forallb (fun t =>
    let n := Z.of_nat (List.length
               (slotsOf (fun c => exactScaled 1422 t (count c)) groups)) in
    (1411 <=? n)%Z && (n <=? 1455)%Z && (t - 1 <=? n)%Z && (n <=? t + 1)%Z)
    totals = true) by (vm_compute; reflexivity).
  rewrite forallb_forall in Hall.
  specialize (Hall _ (totals_spec _ Ht)).
  cbv zeta in Hall. rewrite !andb_true_iff, !Z.leb_le in Hall. lia.
Qed.

Lemma V2_generateNodes_rounds (host : Host) (dimensions : Dimensions)
    (dates : list string) (r : Rng) :
  fst (V2.generateNodes host dimensions dates r)
  = List.concat (fst (mapM (V2.generateDate groups host dimensions) dates r)).
Proof.
  unfold V2.generateNodes, V2.generateNodesFrom, bind, ret.
  now destruct (mapM (V2.generateDate groups host dimensions) dates r).
Qed.

(** Filtering the collection by one of its dates gives back what the
    round of that date pushed. *)
Lemma V2_filter_rounds (host : Host) (dimensions : Dimensions)
    (dates : list string) (r : Rng) :
  NoDup dates ->
  Forall (fun d => d <> "") dates ->
  Forall2 (fun date r' =>
             V2.filteredData (fst (V2.generateNodes host dimensions dates r))
                             date
             = fst (V2.generateDate groups host dimensions date r'))
          dates (statesOf (V2.generateDate groups host dimensions) dates r).
Proof.
  intros Hnd Hne. rewrite V2_generateNodes_rounds.
  apply (Forall2_rounds
           (fun date pass =>
              V2.filteredData
                (List.concat
                   (fst (mapM (V2.generateDate groups host dimensions)
                              dates r))) date = pass)).
  pose proof (mapM_Forall2
                (fun d pass => Forall (fun n => Node.date n = Some d) pass)
                (V2.generateDate groups host dimensions) dates
                (fun date r' _ =>
                   V2_generateDate_dated groups host dimensions date r') r)
    as Hd.
  pose proof (filter_by_date dates _ Hd Hnd [] (Forall_nil _)) as Hf.
  cbn [app] in Hf.
  set (perDate := fst (mapM (V2.generateDate groups host dimensions) dates r))
    in *.
  set (all := List.concat perDate) in *. clearbody all. clearbody perDate.
  clear Hd Hnd. revert Hne.
  induction Hf as [|d pass ds ps Hfil _ IH]; intros Hne; constructor.
  - unfold V2.filteredData.
    destruct (String.eqb_spec d "") as [E|_]; [|exact Hfil].
    exfalso. exact (Forall_inv Hne E).
  - apply IH. exact (Forall_inv_tail Hne).
Qed.

(** X4.  When the dates differ from one another and none is empty, the
    date filter shows for each date the assets that the round of that
    date pushed, all of them and no others, whatever is selected or
    expanded.  The number that the asset counter prints for the date is
    then between 1411 and 1455, and at most one more or fewer than the
    total that the round drew for the date. *)
Theorem X4_filter_shows_the_assets_of_the_date :
  forall (host : Host) (dimensions : Dimensions) (dates : list string)
         (r : Rng) (selectedNode : option Node.t)
         (expandedProcess : option string),
    NoDup dates ->
    Forall (fun d => d <> "") dates ->
    let nodes := fst (V2.generateNodes host dimensions dates r) in
    Forall2 (fun date r' =>
               let st := App.mk nodes date selectedNode expandedProcess in
               let total := fst (V2.drawTotalNodesForDate r') in
               App.filteredData st
               = fst (V2.generateDate groups host dimensions date r') /\
               (1411 <= App.totalCount st <= 1455)%nat /\
               (total - 1 <= Z.of_nat (App.totalCount st) <= total + 1)%Z)
            dates (statesOf (V2.generateDate groups host dimensions) dates r).
Proof.
  intros host dimensions dates r sel expd Hnd Hne nodes.
  pose proof (V2_filter_rounds host dimensions dates r Hnd Hne) as H.
  fold nodes in H.
  set (starts := statesOf (V2.generateDate groups host dimensions) dates r)
    in *.
  clearbody starts. clearbody nodes. clear Hnd Hne.
  induction H as [|date r' ds rs Hf _ IH]; [constructor|].
  constructor; [|exact IH].
  cbv zeta. unfold App.totalCount, App.filteredData.
  cbn [App.nodes App.currentDate]. rewrite Hf.
  split; [reflexivity|]. apply V2_generateDate_size.
Qed.

Lemma twoDates_distinct :
  NoDup twoDates /\ Forall (fun d => d <> "") twoDates /\ twoDates <> [].
Proof.
  split; [repeat constructor; cbn; intuition discriminate|].
  split; [repeat constructor; discriminate|discriminate].
Defined.

Lemma X4_filter_shows_the_assets_of_two_dates :
  NoDup twoDates /\
  Forall (fun d => d <> "") twoDates /\
  let nodes := fst (V2.generateNodes stillHost narrow twoDates zeroRng) in
  Forall2 (fun date r' =>
             let st := App.mk nodes date None None in
             let total := fst (V2.drawTotalNodesForDate r') in
             App.filteredData st
             = fst (V2.generateDate groups stillHost narrow date r') /\
             (1411 <= App.totalCount st <= 1455)%nat /\
             (total - 1 <= Z.of_nat (App.totalCount st) <= total + 1)%Z)
          twoDates
          (statesOf (V2.generateDate groups stillHost narrow) twoDates
                    zeroRng).
Proof.
  split; [exact (proj1 twoDates_distinct)|].
  split; [exact (proj1 (proj2 twoDates_distinct))|].
  exact (X4_filter_shows_the_assets_of_the_date stillHost narrow twoDates
           zeroRng None None (proj1 twoDates_distinct)
           (proj1 (proj2 twoDates_distinct))).
Defined.

Lemma Forall2_last {A B : Type} (R : A -> B -> Prop) (l : list A)
    (l' : list B) (a : A) :
  Forall2 R l l' -> l <> [] ->
  exists before b, l' = (before ++ [b])%list /\ R (last l a) b.
Proof.
  induction 1 as [|x y l l' Hxy Hrest IH]; intros Hne; [congruence|].
  destruct l as [|x' l].
  - inversion Hrest; subst. exists [], y. split; [reflexivity|exact Hxy].
  - destruct IH as [before [b [E Hb]]]; [discriminate|].
    exists (y :: before), b. split; [cbn; now rewrite E|exact Hb].
Qed.

Lemma dateAt_last (dates : list string) :
  Timeline.dateAt dates (Z.of_nat (List.length dates) - 1) = last dates "".
Proof.
  unfold Timeline.dateAt. destruct dates as [|d dates]; [reflexivity|].
  replace (Z.of_nat (List.length (d :: dates)) - 1 <? 0)%Z with false
    by (symmetry; apply Z.ltb_ge; cbn [List.length]; lia).
  replace (Z.to_nat (Z.of_nat (List.length (d :: dates)) - 1))
    with (List.length dates) by (cbn [List.length]; lia).
  revert d. induction dates as [|e dates IH]; intros d; [reflexivity|].
  change (nth (List.length (e :: dates)) (d :: e :: dates) "")
    with (nth (List.length dates) (e :: dates) "").
  rewrite (IH e). reflexivity.
Qed.

(** X6.  On the first render the effect on the dates makes the last of
    them the current date, and leaves a date that was chosen alone.  When
    the dates differ from one another and none is empty, the slider then
    stands at the right end of its range, and the filtered set is the
    last stretch of the collection: the 1411 to 1455 assets generated for
    the last date. *)
Theorem X6_first_render_shows_the_last_date :
  forall (host : Host) (dimensions : Dimensions) (dates : list string)
         (r : Rng) (c : ascii) (chosen : string),
    dates <> [] ->
    NoDup dates ->
    Forall (fun d => d <> "") dates ->
    let d0 := initialDate dates "" in
    let nodes := fst (V2.generateNodes host dimensions dates r) in
    d0 = last dates "" /\
    initialDate dates d0 = d0 /\
    initialDate dates (String c chosen) = String c chosen /\
    Timeline.value dates d0 = Timeline.max dates /\
    exists before pass,
      nodes = (before ++ pass)%list /\
      V2.filteredData nodes d0 = pass /\
      (1411 <= List.length pass <= 1455)%nat.
Proof.
  intros host dimensions dates r c chosen Hne Hnd Hin d0 nodes.
  assert (Hlen : (0 < Z.of_nat (List.length dates))%Z)
    by (destruct dates; [congruence|cbn [List.length]; lia]).
  assert (Hd0 : d0 = last dates "").
  { unfold d0, initialDate.
    replace (0 <? Z.of_nat (List.length dates))%Z with true
      by (symmetry; now apply Z.ltb_lt).
    cbn [andb String.eqb]. apply dateAt_last. }
  assert (Hin0 : In d0 dates).
  { rewrite Hd0. destruct dates as [|d l]; [congruence|].
    clear. revert d. induction l as [|e l IH]; intros d; [now left|].
    right. apply (IH e). }
  assert (Hne0 : d0 <> "") by (rewrite Forall_forall in Hin; now apply Hin).
  split; [exact Hd0|]. split.
  { unfold initialDate at 1. destruct (String.eqb_spec d0 "") as [E|_];
      [contradiction|]. now rewrite andb_false_r. }
  split.
  { unfold initialDate. cbn [String.eqb]. now rewrite andb_false_r. }
  split.
  { unfold Timeline.value, Timeline.max.
    rewrite Hd0, <- dateAt_last. apply indexOf_dateAt; [exact Hnd|lia]. }
  destruct (V2_generateNodes_by_date
              (fun d pass => describedDay d pass /\
                             Forall (fun n => Node.date n = Some d) pass)
              host dimensions dates r
              (V2_generateDate_day host dimensions)) as [perDate [E H]].
  pose proof (displayed_of_described dates perDate H Hnd Hin) as Hdisp.
  destruct (Forall2_last _ _ _ "" Hdisp Hne) as [pre [pass [Ep Hp]]].
  exists (List.concat pre), pass. subst nodes. rewrite E, Hd0.
  destruct Hp as [Hf Hsize]. split; [|split; assumption].
  rewrite Ep, concat_app. cbn. now rewrite app_nil_r.
Qed.

Lemma X6_first_render_on_two_dates :
  twoDates <> [] /\ NoDup twoDates /\ Forall (fun d => d <> "") twoDates /\
  let d0 := initialDate twoDates "" in
  let nodes := fst (V2.generateNodes stillHost narrow twoDates zeroRng) in
  d0 = last twoDates "" /\
  initialDate twoDates d0 = d0 /\
  initialDate twoDates "2024-05-01" = "2024-05-01" /\
  Timeline.value twoDates d0 = Timeline.max twoDates /\
  exists before pass,
    nodes = (before ++ pass)%list /\
    V2.filteredData nodes d0 = pass /\
    (1411 <= List.length pass <= 1455)%nat.
Proof.
  split; [exact (proj2 (proj2 twoDates_distinct))|].
  split; [exact (proj1 twoDates_distinct)|].
  split; [exact (proj1 (proj2 twoDates_distinct))|].
  exact (X6_first_render_shows_the_last_date stillHost narrow twoDates
           zeroRng "2" "024-05-01" (proj2 (proj2 twoDates_distinct))
           (proj1 twoDates_distinct) (proj1 (proj2 twoDates_distinct))).
Defined.

End DateFilter.


(** * The selection state *)
Section SelectionState.

Lemma reduce_member (l : list Node.t) (acc : Node.t) :
  In (fold_left moreIssues l acc) (acc :: l).
Proof.
  revert acc. induction l as [|a l IH]; intros acc; cbn [fold_left].
  - now left.
  - destruct (IH (moreIssues acc a)) as [E|Hin].
    + rewrite <- E. unfold moreIssues.
      destruct (Nat.ltb (issues acc) (issues a)); [right|]; now left.
    + right. now right.
Qed.

Lemma same_id_same_node (ns : list Node.t) (a b : Node.t) :
  NoDup (map Node.id ns) -> In a ns -> In b ns -> Node.id a = Node.id b ->
  a = b.
Proof.
  induction ns as [|n ns IH]; cbn; [tauto|].
  intros Hnd Ha Hb E. inversion Hnd as [|? ? Hnotin Hnd']; subst.
  destruct Ha as [->|Ha], Hb as [->|Hb]; auto.
  - exfalso. apply Hnotin. rewrite E. now apply in_map.
  - exfalso. apply Hnotin. rewrite <- E. now apply in_map.
Qed.

Lemma anomalous_has_row (n : Node.t) :
  anomalyBound n -> Node.hasAnomaly n = true ->
  exists p, find suspicious (Node.processes n) = Some p /\
            In (Process.id p)
               (map Process.id (filter suspicious (Node.processes n))).
Proof.
  unfold anomalyBound, issues. intros Hb Ha. rewrite Ha in Hb.
  rewrite find_hd_filter.
  destruct (filter suspicious (Node.processes n)) as [|p ps];
    [cbn in Hb; lia|].
  exists p. split; [reflexivity|now left].
Qed.

(** X7.  A step of the interaction keeps the expanded process among the
    rows of the panel: after any event that the page offers, the process
    that is expanded, if there is one, is a suspicious process of the
    selected asset, and that asset is anomalous and part of the
    collection; with no asset selected no process is expanded.  So the
    container of the expanded process is in the document, and the effect
    on [expandedProcess] draws a graph exactly when a process is
    expanded. *)
Theorem X7_expanded_process_is_a_row_of_the_panel :
  forall (st : App.State) (ev : App.Event) (r : Rng),
    Panel.sound st ->
    Panel.consistent st ->
    Panel.enabled st ev ->
    let st' := App.step st ev in
    Panel.sound st' /\
    Panel.consistent st' /\
    (App.selectedNode st' = None -> App.expandedProcess st' = None) /\
    fst (ProcessGraph.expandEffect (Panel.mounted st')
                                   (App.expandedProcess st') r)
    = match App.expandedProcess st' with
      | Some _ => Some (fst (ProcessGraph.generateGraph r))
      | None => None
      end.
Proof.
  intros st ev r [Hnd [Hall Hsel]] Hcons Hen st'.
  assert (Hstep : Panel.sound st' /\ Panel.consistent st').
  { destruct st as [nodes date sel expd].
    unfold Panel.consistent, Panel.rows, Panel.sound in *.
    cbn [App.nodes App.selectedNode App.expandedProcess] in *.
    destruct ev as [d| | |procId|date']; cbn in Hen; subst st';
      cbn [App.step App.setSelectedNode App.setExpandedProcess
           App.setCurrentDate App.nodes App.selectedNode
           App.expandedProcess App.currentDate].
    - destruct Hen as [Hne Hincl]. destruct d as [|d0 rest]; [congruence|].
      cbn [nodeWithMostIssues].
      set (m := fold_left moreIssues (d0 :: rest) d0).
      assert (Hm : In m nodes).
      { apply Hincl. destruct (reduce_member (d0 :: rest) d0) as [E|Hin];
          [fold m in E; rewrite <- E; now left|exact Hin]. }
      split; [repeat split; assumption|].
      destruct sel as [n|]; cbn [App.sameReference].
      + destruct (String.eqb_spec (Node.id n) (Node.id m)) as [E|_].
        * rewrite <- (same_id_same_node nodes n m Hnd Hsel Hm E).
          exact Hcons.
        * cbn [App.autoExpand]. rewrite Forall_forall in Hall.
          destruct (Node.hasAnomaly m) eqn:Ea; [|exact I].
          destruct (anomalous_has_row m (Hall m Hm) Ea) as [p [Hf Hp]].
          rewrite Hf. exact Hp.
      + cbn [App.autoExpand]. rewrite Forall_forall in Hall.
        destruct (Node.hasAnomaly m) eqn:Ea; [|exact I].
        destruct (anomalous_has_row m (Hall m Hm) Ea) as [p [Hf Hp]].
        rewrite Hf. exact Hp.
    - split; [repeat split; assumption|].
      destruct sel as [n|]; cbn [App.sameReference App.autoExpand];
        [exact I|exact Hcons].
    - split; [repeat split; assumption|].
      destruct sel as [n|]; cbn [App.sameReference App.autoExpand];
        [exact I|exact Hcons].
    - split; [repeat split; assumption|].
      destruct expd as [e|]; [|exact Hen].
      destruct (String.eqb e procId); [exact I|exact Hen].
    - split; [repeat split; assumption|exact Hcons]. }
  destruct Hstep as [Hs' Hc']. split; [exact Hs'|]. split; [exact Hc'|].
  unfold Panel.consistent in Hc'. split.
  - intros Hnone. unfold Panel.rows in Hc'. rewrite Hnone in Hc'.
    destruct (App.expandedProcess st'); [destruct Hc'|reflexivity].
  - unfold ProcessGraph.expandEffect, ProcessGraph.renderProcessGraph,
      Panel.mounted.
    destruct (App.expandedProcess st') as [e|]; [|reflexivity].
    assert (Hex : existsb (String.eqb e) (Panel.rows st') = true).
    { apply existsb_exists. exists e. split; [exact Hc'|].
      apply String.eqb_refl. }
    rewrite Hex, String.eqb_refl. cbn [andb]. unfold bind, ret.
    now destruct (ProcessGraph.generateGraph r).
Qed.

Lemma generated_state_sound (host : Host) (dimensions : Dimensions)
    (dates : list string) (r : Rng) (date : string) :
  NoDup dates ->
  Forall (fun d => String.length d = 10%nat) dates ->
  Panel.sound (App.mk (fst (V2.generateNodes host dimensions dates r))
                      date None None).
Proof.
  intros Hnd Hlen. unfold Panel.sound.
  cbn [App.nodes App.selectedNode]. split; [|split; [|exact I]].
  - destruct (V2_generateNodes_by_date describedDay host dimensions dates r
                (V2_generateDate_describedDay host dimensions))
      as [perDate [E H]].
    rewrite E. exact (proj1 (dated_ids_NoDup dates perDate H Hnd Hlen)).
  - apply generated_Forall.
    + intros tag i d n. apply shaped_anomalyBound.
    + apply V2_generateNodes_generated.
Qed.

Lemma filteredData_incl (st : App.State) :
  incl (App.filteredData st) (App.nodes st).
Proof.
  intros n. unfold App.filteredData, V2.filteredData.
  destruct (String.eqb (App.currentDate st) ""); [intros []|].
  intros H. apply filter_In in H. exact (proj1 H).
Qed.

Lemma loadedState_sound : Panel.sound loadedState.
Proof.
  apply generated_state_sound.
  - repeat constructor; cbn; intuition discriminate.
  - repeat constructor.
Qed.

Lemma loadedState_click_enabled :
  Panel.enabled loadedState (App.ClickCell (App.filteredData loadedState)).
Proof.
  split.
  - assert (Hn : match App.filteredData loadedState with
                 | [] => false
                 | _ :: _ => true
                 end = true) by (vm_compute; reflexivity).
    intros E. rewrite E in Hn. discriminate Hn.
  - apply filteredData_incl.
Qed.

Lemma X7_expanded_process_after_a_click :
  Panel.sound loadedState /\
  Panel.consistent loadedState /\
  Panel.enabled loadedState (App.ClickCell (App.filteredData loadedState)) /\
  let st' :=
    App.step loadedState (App.ClickCell (App.filteredData loadedState)) in
  Panel.sound st' /\
  Panel.consistent st' /\
  (App.selectedNode st' = None -> App.expandedProcess st' = None) /\
  fst (ProcessGraph.expandEffect (Panel.mounted st')
                                 (App.expandedProcess st') zeroRng)
  = match App.expandedProcess st' with
    | Some _ => Some (fst (ProcessGraph.generateGraph zeroRng))
    | None => None
    end.
Proof.
  assert (Hc : Panel.consistent loadedState) by exact I.
  split; [exact loadedState_sound|]. split; [exact Hc|].
  split; [exact loadedState_click_enabled|].
  exact (X7_expanded_process_is_a_row_of_the_panel
           loadedState _ zeroRng loadedState_sound Hc
           loadedState_click_enabled).
Defined.

Lemma filter_none {A : Type} (f : A -> bool) (l : list A) :
  List.length (filter f l) = 0%nat -> Forall (fun x => f x = false) l.
Proof.
  induction l as [|a l IH]; cbn; [constructor|].
  destruct (f a) eqn:E; cbn; [discriminate|].
  intros H. constructor; [exact E|exact (IH H)].
Qed.

Lemma filter_some {A : Type} (f : A -> bool) (l : list A) :
  (0 < List.length (filter f l))%nat -> exists x, In x l /\ f x = true.
Proof.
  induction l as [|a l IH]; cbn; [lia|].
  destruct (f a) eqn:E.
  - intros _. exists a. split; [now left|exact E].
  - intros H. destruct (IH H) as [x [Hin Hx]]. exists x.
    split; [now right|exact Hx].
Qed.

(** X8.  The number that a hexagon shows under the pointer is the
    number of rows of the panel that a click on the same hexagon opens:
    with a label [k] some member is anomalous, no member has more than
    [k] suspicious processes, [k] is between 1 and 9 and the panel lists
    [k] processes; with no label no member has a suspicious process and
    the panel lists none. *)
Theorem X8_hover_label_counts_the_rows_of_the_click :
  forall (st : App.State) (d : list Node.t),
    Forall anomalyBound (App.nodes st) ->
    Panel.enabled st (App.ClickCell d) ->
    let st' := App.step st (App.ClickCell d) in
    App.selectedNode st' = nodeWithMostIssues d /\
    match Hexagon.hoverLabel d with
    | Some k =>
        (1 <= k <= 9)%nat /\
        existsb Node.hasAnomaly d = true /\
        Forall (fun n => issues n <= k)%nat d /\
        List.length (Panel.rows st') = k
    | None =>
        existsb Node.hasAnomaly d = false /\
        Forall (fun n => issues n = 0%nat) d /\
        Panel.rows st' = []
    end.
Proof.
  intros st d Hall [Hne Hincl] st'.
  destruct d as [|d0 rest]; [congruence|].
  assert (Hsel : App.selectedNode st' = nodeWithMostIssues (d0 :: rest)).
  { subst st'. destruct st as [nodes date sel expd]. reflexivity. }
  split; [exact Hsel|].
  unfold Panel.rows. rewrite Hsel.
  unfold Hexagon.hoverLabel, Hexagon.issueCount.
  cbn [nodeWithMostIssues option_map].
  set (d := d0 :: rest) in *.
  set (m := fold_left moreIssues d d0).
  assert (Hbound : Forall anomalyBound d).
  { rewrite Forall_forall in *. intros n Hn. apply Hall, Hincl, Hn. }
  assert (Hm : In m d).
  { destruct (reduce_member d d0) as [E|Hin];
      [fold m in E; rewrite <- E; now left|exact Hin]. }
  destruct (reduce_max d d0) as [_ [Hmax _]]. fold m in Hmax.
  pose proof (proj1 (Forall_forall _ _) Hbound m Hm) as Hbm.
  unfold anomalyBound in Hbm.
  destruct (Nat.ltb 0 (List.length (filter Node.hasAnomaly d))) eqn:E.
  - apply Nat.ltb_lt in E. destruct (filter_some _ _ E) as [a [Ha Hanom]].
    pose proof (proj1 (Forall_forall _ _) Hbound a Ha) as Hba.
    unfold anomalyBound in Hba. rewrite Hanom in Hba.
    pose proof (proj1 (Forall_forall _ _) Hmax a Ha) as Hle.
    cbv beta in Hle.
    destruct (Node.hasAnomaly m); [|lia].
    split; [lia|]. split.
    + apply existsb_exists. exists a. now split.
    + split; [exact Hmax|]. now rewrite length_map.
  - apply Nat.ltb_ge in E.
    assert (E0 : List.length (filter Node.hasAnomaly d) = 0%nat) by lia.
    pose proof (filter_none _ _ E0) as Hnone.
    rewrite Forall_forall in Hnone. split.
    + destruct (existsb Node.hasAnomaly d) eqn:Ex; [|reflexivity].
      apply existsb_exists in Ex. destruct Ex as [a [Ha Hanom]].
      rewrite (Hnone a Ha) in Hanom. discriminate Hanom.
    + split.
      * apply Forall_forall. intros n Hn.
        pose proof (proj1 (Forall_forall _ _) Hbound n Hn) as Hbn.
        unfold anomalyBound in Hbn. now rewrite (Hnone n Hn) in Hbn.
      * now rewrite (Hnone m Hm).
Qed.

Lemma X8_hover_label_on_the_loaded_collection :
  Forall anomalyBound (App.nodes loadedState) /\
  Panel.enabled loadedState (App.ClickCell (App.filteredData loadedState)) /\
  let d := App.filteredData loadedState in
  let st' := App.step loadedState (App.ClickCell d) in
  App.selectedNode st' = nodeWithMostIssues d /\
  match Hexagon.hoverLabel d with
  | Some k =>
      (1 <= k <= 9)%nat /\
      existsb Node.hasAnomaly d = true /\
      Forall (fun n => issues n <= k)%nat d /\
      List.length (Panel.rows st') = k
  | None =>
      existsb Node.hasAnomaly d = false /\
      Forall (fun n => issues n = 0%nat) d /\
      Panel.rows st' = []
  end.
Proof.
  pose proof loadedState_sound as [_ [Hb _]].
  split; [exact Hb|]. split; [exact loadedState_click_enabled|].
  exact (X8_hover_label_counts_the_rows_of_the_click
           loadedState _ Hb loadedState_click_enabled).
Defined.

End SelectionState.

(** * The nodes of the dependency graph *)
Section GraphNodes.

Import ProcessGraph GraphDrawing.

Lemma split_lacks (sep : ascii) (s : string) :
  lacks sep s = true -> split sep s = [s].
Proof.
  induction s as [|c s IH]; cbn; [reflexivity|].
  intros H. apply andb_true_iff in H. destruct H as [Hc Hs].
  apply negb_true_iff in Hc. rewrite Hc, (IH Hs). reflexivity.
Qed.

Lemma split_prefix (sep : ascii) (p rest : string) :
  lacks sep p = true ->
  split sep (p ++ String sep rest) = p :: split sep rest.
Proof.
  induction p as [|c p IH]; cbn.
  - intros _. now rewrite Ascii.eqb_refl.
  - intros H. apply andb_true_iff in H. destruct H as [Hc Hp].
    apply negb_true_iff in Hc. rewrite Hc, (IH Hp). reflexivity.
Qed.

Lemma decimal_lacks_space (n : nat) : lacks " " (decimal n) = true.
Proof.
  unfold decimal. generalize (Nat.to_uint n) as d.
  induction d; cbn; auto.
Qed.

Lemma drawStatus_listed (r : Rng) :
  In (fst (drawStatus r)) ["Error"; "Warning"; "OK"].
Proof.
  unfold drawStatus, bind, ret. destruct (random r) as [u r1].
  destruct (fltb c0_8 u); [now left|].
  destruct (random r1) as [v r2]. cbn [fst].
  destruct (fltb c0_6 v); [right; now left|right; right; now left].
Qed.

Lemma makeGraphNode_numbered (i : nat) (r : Rng) :
  numbered i (fst (makeGraphNode i r)).
Proof.
  unfold makeGraphNode, bind, ret.
  pose proof (drawStatus_listed r) as Hst.
  destruct (drawStatus r) as [st r1]. cbn [fst] in Hst.
  pose proof (randomInt_range 5 r1 ltac:(lia)) as Hg.
  destruct (randomInt 5 r1) as [g r2]. cbn [fst] in *.
  repeat split; try assumption.
  apply at_index_in. cbn. lia.
Qed.

Lemma numbered_label (i : nat) (n : GraphNode) :
  numbered i n -> label n = Some (decimal i).
Proof.
  intros [_ [Hname _]]. unfold label. rewrite Hname.
  change ("Component " ++ decimal i)
    with ("Component" ++ String " " (decimal i)).
  rewrite split_prefix by reflexivity.
  now rewrite split_lacks by apply decimal_lacks_space.
Qed.

Lemma numbered_ids (idxs : list nat) (nodes : list GraphNode) :
  Forall2 numbered idxs nodes ->
  map id nodes = map (fun i => "node-" ++ decimal i) idxs.
Proof.
  induction 1 as [|i n idxs nodes [Hid _] _ IH]; cbn; [reflexivity|].
  now rewrite Hid, IH.
Qed.

Lemma NoDup_map_injective {A B : Type} (f : A -> B) (l : list A) :
  (forall a b, f a = f b -> a = b) -> NoDup l -> NoDup (map f l).
Proof.
  intros Hf. induction 1 as [|a l Hnotin _ IH]; cbn; constructor.
  - intros Hin. apply in_map_iff in Hin. destruct Hin as [b [E Hb]].
    apply Hf in E. subst b. contradiction.
  - exact IH.
Qed.

(** X10.  The nodes of a dependency graph are numbered in the order of
    the list: node [i] has the id [node-i] and the name [Component i],
    the text beside its circle is [i], its status is one of Error,
    Warning and OK and its group one of the five listed; the circle is
    red exactly for the status Error.  No two nodes share an id, and the
    graph has at most three links for each node. *)
Theorem X10_graph_nodes_are_numbered_in_order :
  forall (r : Rng),
    let g := fst (generateGraph r) in
    Forall2 (fun i n =>
               numbered i n /\
               label n = Some (decimal i) /\
               (fill n = "#d32f2f" <-> status n = "Error"))
            (seq 0 (List.length (graphNodes g))) (graphNodes g) /\
    NoDup (map id (graphNodes g)) /\
    (List.length (links g) <= 3 * List.length (graphNodes g))%nat.
Proof.
  intros r. cbv zeta. unfold generateGraph, bind, ret.
  pose proof (drawNodeCount_range r) as Hc.
  destruct (drawNodeCount r) as [c r1]. cbn [fst] in Hc.
  pose proof (mapM_length makeGraphNode (seq 0 (Z.to_nat c)) r1) as Hlen.
  pose proof (mapM_Forall2 numbered makeGraphNode (seq 0 (Z.to_nat c))
                (fun i r' _ => makeGraphNode_numbered i r') r1) as Hnum.
  destruct (mapM makeGraphNode (seq 0 (Z.to_nat c)) r1) as [nodes r2].
  cbn [fst] in *. rewrite length_seq in Hlen.
  assert (Hn : (1 <= List.length nodes <= 20)%nat) by lia.
  pose proof (mapM_Forall
    (fun L => (List.length L <= 3)%nat)
    (linksFrom nodes) (seq 0 (List.length nodes))
    (fun k r' _ => proj1 (linksFrom_pushes nodes k r' Hn)) r2) as Hper.
  pose proof (mapM_length (linksFrom nodes) (seq 0 (List.length nodes)) r2)
    as Hl.
  destruct (mapM (linksFrom nodes) (seq 0 (List.length nodes)) r2)
    as [perNode r3].
  cbn [fst graphNodes links] in *. rewrite length_seq in Hl.
  rewrite Hlen. split; [|split].
  - eapply Forall2_impl; [|exact Hnum].
    intros i n Hin. split; [exact Hin|].
    split; [now apply numbered_label|].
    destruct Hin as [_ [_ [Hst _]]]. unfold fill.
    destruct Hst as [<-|[<-|[<-|[]]]]; cbn; split; congruence.
  - rewrite (numbered_ids _ _ Hnum).
    apply NoDup_map_injective; [|apply seq_NoDup].
    intros a b E. injection E as E. now apply decimal_inj.
  - pose proof (concat_length_le perNode 3 Hper) as H. lia.
Qed.

End GraphNodes.
